(** * webthing-node over CoAP: the Thing model, the description renderer,
      the link-format encoder and the CoAP resource handlers.

    The development follows the JavaScript sources:
    - [Thing]: the class Thing, the entity model;
    - [helpers]: the helper functions [getDescription],
      [getCoreLinkFormat], [getBody];
    - [Coap*Handler], [CoapWebThingServer]: the resource handlers and the
      server of the CoAP binding.

    Modelling conventions.
    - JSON values are the inductive type [json]; numbers are integers.
    - A JavaScript object used as a map is the association list of its
      own members, kept in insertion order ([obj]); enumeration
      ([own_keys]) follows the engine: array-index keys first, ascending,
      then the other keys in insertion order.  The two member names that
      reach [Object.prototype] are modelled as the engine treats them:
      [o.hasOwnProperty(k)] throws when [o] has an own member named
      [hasOwnProperty], and [o["__proto__"] = v] stores no member.  An
      [obj] stands for an object whose prototype is [Object.prototype].
    - Expressions that read the state and may throw have a [result];
      methods that mutate [this] live in the monad [M], a state
      transformer whose outcome is a returned value or a thrown exception,
      both with the state reached so far.  A run in which a dictionary of
      a Thing would get another prototype (a registration under the name
      [__proto__]) is followed up to that assignment and ends in
      [Outside].
    - The external collaborators (JSON text codec, the schema validator,
      the subscriber sockets, the classes Property / Action / Event whose
      rendering is not part of these sources) are the fields of the class
      [Collaborators]. *)

From Stdlib Require Import List String Ascii ZArith NArith Arith Bool Lia
  Permutation DecimalString.
From Stdlib Require DecimalNat DecimalFacts.
Import ListNotations.
Local Open Scope string_scope.
Local Open Scope list_scope.

Set Implicit Arguments.

(** ** JavaScript prelude *)

Module JS.

(** JSON values, as [JSON.parse] produces them. *)
#[warnings="-register-all"]
Inductive json : Type :=
| JNull
| JBool (b : bool)
| JNum (z : Z)
| JStr (s : string)
| JArr (l : list json)
| JObj (o : list (string * json)).

(** ToBoolean. *)
Definition truthy (j : json) : bool :=
  match j with
  | JNull => false
  | JBool b => b
  | JNum z => negb (Z.eqb z 0)
  | JStr s => negb (String.eqb s "")
  | JArr _ | JObj _ => true
  end.

(** [a || b] *)
Definition or_else (a b : json) : json := if truthy a then a else b.

(** Exceptions the modelled code can raise. *)
Inductive exn : Type :=
| SyntaxError      (* JSON.parse on malformed text *)
| TypeError        (* member access on null / undefined, call of a non-function *)
| PropertyError    (* a property rejected the value *)
| SendError.       (* a subscriber socket failed *)

(** The result of an expression that leaves the state alone: its value,
    or the exception it throws. *)
Inductive result (A : Type) : Type :=
| Ok (a : A)
| Err (e : exn).

Arguments Ok {A} a.
Arguments Err {A} e.

Definition and_then {A B : Type} (r : result A) (k : A -> result B)
  : result B :=
  match r with
  | Ok a => k a
  | Err e => Err e
  end.

(** A loop that stops at the first exception. *)
Fixpoint fold_result {A B : Type} (f : A -> B -> result A) (l : list B)
    (a : A) : result A :=
  match l with
  | [] => Ok a
  | b :: r => and_then (f a b) (fold_result f r)
  end.

(** *** Objects used as maps *)

Definition obj (A : Type) : Type := list (string * A).

Section Obj.
Variable A : Type.

(** Whether [k] is an own member of [o]. *)
Fixpoint owns (o : obj A) (k : string) : bool :=
  match o with
  | [] => false
  | (k', _) :: r => if String.eqb k k' then true else owns r k
  end.

(** Whether [o] has an own member named [hasOwnProperty], which hides
    the method of [Object.prototype]. *)
Definition shadowed (o : obj A) : bool := owns o "hasOwnProperty".

(** [o.hasOwnProperty(k)].  The method is looked up on [o] itself before
    [Object.prototype]: when [o] has an own member named
    [hasOwnProperty], that member is what gets called, and no member of
    the objects modelled here is a function. *)
Definition hasOwnProperty (o : obj A) (k : string) : result bool :=
  if shadowed o then Err TypeError else Ok (owns o k).

(** [o[k]], [None] standing for [undefined]. *)
Fixpoint get (o : obj A) (k : string) : option A :=
  match o with
  | [] => None
  | (k', v) :: r => if String.eqb k k' then Some v else get r k
  end.

(** The own member [k] defined or updated: an existing key keeps its
    place, a new key goes last. *)
Fixpoint set (o : obj A) (k : string) (v : A) : obj A :=
  match o with
  | [] => [(k, v)]
  | (k', v') :: r =>
      if String.eqb k k' then (k, v) :: r else (k', v') :: set r k v
  end.

(** Whether the assignment [o[k] = v] ends in the [__proto__] accessor
    of [Object.prototype]: the key is [__proto__] and [o] has no own
    member of that name.  The assignment then replaces the prototype of
    [o] and stores nothing. *)
Definition replaces_prototype (o : obj A) (k : string) : bool :=
  String.eqb k "__proto__" && negb (owns o k).

(** [o[k] = v], seen through the own members of [o]. *)
Definition put (o : obj A) (k : string) (v : A) : obj A :=
  if replaces_prototype o k then o else set o k v.

(** [delete o[k]] *)
Fixpoint delete (o : obj A) (k : string) : obj A :=
  match o with
  | [] => []
  | (k', v') :: r =>
      if String.eqb k k' then r else (k', v') :: delete r k
  end.
End Obj.

(** *** Own-key enumeration order *)

Definition is_digit (c : ascii) : bool :=
  (48 <=? nat_of_ascii c)%nat && (nat_of_ascii c <=? 57)%nat.

Fixpoint digits_value (s : string) (acc : N) : option N :=
  match s with
  | EmptyString => Some acc
  | String c r =>
      if is_digit c
      then digits_value r (acc * 10 + (N_of_ascii c - 48))%N
      else None
  end.

(** A key is an array index when it is the canonical decimal text of an
    integer in [0, 2^32 - 2]. *)
Definition array_index (s : string) : option N :=
  match s with
  | EmptyString => None
  | String c r =>
      if Ascii.eqb c "0" && negb (String.eqb r "") then None
      else match digits_value s 0 with
           | Some n => if (n <? 4294967295)%N then Some n else None
           | None => None
           end
  end.

Fixpoint insert_index (x : N * string) (l : list (N * string))
  : list (N * string) :=
  match l with
  | [] => [x]
  | y :: r => if (fst x <? fst y)%N then x :: y :: r else y :: insert_index x r
  end.

Definition sort_index (l : list (N * string)) : list (N * string) :=
  fold_right insert_index [] l.

Fixpoint index_keys (ks : list string) : list (N * string) :=
  match ks with
  | [] => []
  | k :: r => match array_index k with
              | Some n => (n, k) :: index_keys r
              | None => index_keys r
              end
  end.

Definition is_index (k : string) : bool :=
  match array_index k with Some _ => true | None => false end.

(** Order in which an engine enumerates a list of own keys. *)
Definition enum_order (ks : list string) : list string :=
  map snd (sort_index (index_keys ks))
  ++ filter (fun k => negb (is_index k)) ks.

(** [Object.keys(o)], also the order of [for (k in o)]. *)
Definition own_keys (A : Type) (o : obj A) : list string :=
  enum_order (map fst o).

(** [Object.values(o)] and the entries in enumeration order. *)
Definition own_entries (A : Type) (o : obj A) : list (string * A) :=
  flat_map (fun k => match get o k with
                     | Some v => [(k, v)]
                     | None => []
                     end) (own_keys o).

(** *** Text *)

(** The double quote, as a one-character string. *)
Definition dq : string := String (ascii_of_nat 34) EmptyString.

(** Decimal text of a natural number, as a template literal prints it. *)
Definition nat_text (n : nat) : string :=
  NilZero.string_of_uint (Nat.to_uint n).

(** A value that may be [undefined], inside a template literal. *)
Definition text_of (o : option string) : string :=
  match o with Some s => s | None => "undefined" end.

(** [xs.join(sep)] on an array of strings. *)
Definition join (sep : string) (xs : list string) : string :=
  String.concat sep xs.

(** *** Sets (insertion ordered, as [Set]) *)

Section JSSet.
Variable A : Type.
Variable eqb : A -> A -> bool.

Definition set_has (s : list A) (x : A) : bool := existsb (eqb x) s.
Definition set_add (s : list A) (x : A) : list A :=
  if set_has s x then s else s ++ [x].
Definition set_delete (s : list A) (x : A) : list A :=
  filter (fun y => negb (eqb x y)) s.
End JSSet.

End JS.

Import JS.

(** ** State and exceptions *)

(** The outcome of running a method: the value it returned or the
    exception it threw, with the state as the method left it.
    [Outside s] says that in state [s] the run reached a step this model
    does not follow: a dictionary of a Thing is about to get another
    prototype, after which [for ... in] over it also visits the members
    of the stored object. *)
Inductive outcome (S A : Type) : Type :=
| Ret (a : A) (s : S)
| Throw (e : exn) (s : S)
| Outside (s : S).

Arguments Ret {S A} a s.
Arguments Throw {S A} e s.
Arguments Outside {S A} s.

Definition M (S A : Type) : Type := S -> outcome S A.

Definition ret {S A : Type} (a : A) : M S A := fun s => Ret a s.

Definition bind {S A B : Type} (m : M S A) (k : A -> M S B) : M S B :=
  fun s => match m s with
           | Ret a s' => k a s'
           | Throw e s' => Throw e s'
           | Outside s' => Outside s'
           end.

Definition throw {S A : Type} (e : exn) : M S A := fun s => Throw e s.

Definition outside {S A : Type} : M S A := fun s => Outside s.

(** A [result] as a method that leaves the state alone. *)
Definition lift {S A : Type} (r : result A) : M S A :=
  match r with
  | Ok a => ret a
  | Err e => throw e
  end.

(** [try { m } catch (e) { h e }] *)
Definition try_catch {S A : Type} (m : M S A) (h : exn -> M S A) : M S A :=
  fun s => match m s with
           | Ret a s' => Ret a s'
           | Throw e s' => h e s'
           | Outside s' => Outside s'
           end.

Definition gets {S A : Type} (f : S -> A) : M S A := fun s => Ret (f s) s.
Definition modify {S : Type} (f : S -> S) : M S unit := fun s => Ret tt (f s).

(** [for (x of xs) body x] *)
Fixpoint for_of {S A : Type} (xs : list A) (body : A -> M S unit)
  : M S unit :=
  match xs with
  | [] => ret tt
  | x :: r => bind (body x) (fun _ => for_of r body)
  end.

Declare Scope js_scope.
Delimit Scope js_scope with js.
Notation "x <- m ;; k" := (bind m (fun x => k))
  (at level 61, m at next level, right associativity) : js_scope.
Notation "m ;; k" := (bind m (fun _ => k))
  (at level 61, right associativity) : js_scope.
Local Open Scope js_scope.

Definition state_of {S A : Type} (r : outcome S A) : S :=
  match r with Ret _ s => s | Throw _ s => s | Outside s => s end.

(** ** Data model *)

(** An action identifier is whatever the action class passes to the base
    constructor: a counter value or a token. *)
Inductive ActionId : Type :=
| IdNum (n : Z)
| IdStr (s : string).

(** [a === b] on identifiers: no conversion between numbers and text. *)
Definition id_eqb (a b : ActionId) : bool :=
  match a, b with
  | IdNum x, IdNum y => Z.eqb x y
  | IdStr x, IdStr y => String.eqb x y
  | _, _ => false
  end.

(** [{rel, href}] with the optional [mediaType] of the alternate link. *)
Record Link : Type := mkLink {
  rel : string;
  href : string;
  mediaType : option string
}.

(** The ['@type'] member: one tag or an array of tags. *)
Inductive AtType : Type :=
| TScalar (s : string)
| TList (l : list string).

(** A metadata object: the members the code reads or writes by name, each
    absent ([None]) or present, and the remaining members. *)
Record Metadata : Type := mkMetadata {
  md_type : option AtType;          (* '@type' *)
  md_title : option string;         (* title *)
  md_input : option json;           (* input: the input schema *)
  md_links : option (list Link);    (* links *)
  md_rest : obj json
}.

(** [{}] *)
Definition empty_metadata : Metadata :=
  mkMetadata None None None None [].

Definition with_links (m : Metadata) (ls : list Link) : Metadata :=
  mkMetadata (md_type m) (md_title m) (md_input m) (Some ls) (md_rest m).

Definition present {A : Type} (o : option A) : bool :=
  match o with Some _ => true | None => false end.

(** Whether [k] is an own member of a metadata object. *)
Definition md_owns (m : Metadata) (k : string) : bool :=
  if String.eqb k "@type" then present (md_type m)
  else if String.eqb k "title" then present (md_title m)
  else if String.eqb k "input" then present (md_input m)
  else if String.eqb k "links" then present (md_links m)
  else owns (md_rest m) k.

(** [m.hasOwnProperty(k)] on a metadata object; see [hasOwnProperty]. *)
Definition md_shadowed (m : Metadata) : bool := md_owns m "hasOwnProperty".

Definition Metadata_hasOwnProperty (m : Metadata) (k : string) : result bool :=
  if md_shadowed m then Err TypeError else Ok (md_owns m k).

Record Property : Type := mkProperty {
  p_name : string;
  p_value : json;
  p_metadata : Metadata;
  p_hrefPrefix : string
}.

Record Action : Type := mkAction {
  a_id : ActionId;
  a_name : string;
  a_input : json;
  a_status : string;
  a_hrefPrefix : string
}.

(** An action class: the name it passes to the base constructor and the
    identifier it draws when [n] instances were constructed before
    ([count++], a token). *)
Record ActionClass : Type := mkActionClass {
  cls_name : string;
  cls_id : nat -> ActionId
}.

Record Event : Type := mkEvent {
  e_name : string;
  e_data : json;
  e_time : string
}.

(** A subscriber socket, by handle. *)
Definition Subscriber : Type := nat.

(** The rendered Thing Description.  Members tested with
    [hasOwnProperty] by the encoder are optional. *)
Record Description : Type := mkDescription {
  d_id : string;
  d_title : string;
  d_context : string;
  d_type : list string;
  d_properties : option (obj Metadata);
  d_actions : option (obj Metadata);
  d_events : option (obj Metadata);
  d_links : option (list Link);
  d_description : option string;
  d_href : option string;
  d_base : option string;
  d_securityDefinitions : option (obj (obj string));
  d_security : option string
}.

(** What the environment observes of a run. *)
Inductive Effect : Type :=
| Sent (ws : Subscriber) (message : string)   (* a send that succeeded *)
| Callback (name : string) (v : json)         (* a property's change callback *)
| Cancelled (a : ActionId)                    (* action.cancel() *)
| Started (a : ActionId).                     (* action.start() *)

(** The collaborators outside these sources. *)
Class Collaborators : Type := {
  (** [JSON.parse]; [None] when it throws. *)
  JSON_parse : string -> option json;
  JSON_stringify : json -> string;
  (** [ajv.validate(schema, data)] *)
  ajv_validate : json -> json -> bool;
  (** whether a value satisfies a property's declared constraints *)
  satisfies : Metadata -> json -> bool;
  (** whether [ws.send(message)] goes through; it throws otherwise *)
  send_ok : Subscriber -> string -> bool;
  asPropertyDescription : Property -> Metadata;
  asActionDescription : Action -> obj json;
  asEventDescription : Event -> json
}.

(** ** The classes whose sources are not part of this development *)

(** Modelled from the spec: Property (property.js is missing).  A property
    wraps one mutable value and its metadata; [getValue] reads the value
    and [setHrefPrefix] records the prefix of the owning Thing. *)
Definition Property_getValue (p : Property) : json := p_value p.

Definition Property_setHrefPrefix (p : Property) (prefix : string) : Property :=
  mkProperty (p_name p) (p_value p) (p_metadata p) prefix.

Definition Property_store (p : Property) (v : json) : Property :=
  mkProperty (p_name p) v (p_metadata p) (p_hrefPrefix p).

(** Modelled from the spec: Action (action.js is missing).  The base
    constructor [Action(id, thing, name, input)] yields an instance in
    state [created]; time stamps are not modelled. *)
Definition Action_new (id : ActionId) (name : string) (input : json) : Action :=
  mkAction id name input "created" "".

Definition Action_setHrefPrefix (a : Action) (prefix : string) : Action :=
  mkAction (a_id a) (a_name a) (a_input a) (a_status a) prefix.

Definition Action_setStatus (a : Action) (status : string) : Action :=
  mkAction (a_id a) (a_name a) (a_input a) status (a_hrefPrefix a).

(** ** Thing *)

Module Thing.

(** An entry of [availableActions]: [{metadata, class}]. *)
Record AvailableAction : Type := mkAvailableAction {
  aa_metadata : Metadata;
  aa_class : ActionClass
}.

(** An entry of [availableEvents]: [{metadata, subscribers}]. *)
Record AvailableEvent : Type := mkAvailableEvent {
  ae_metadata : Metadata;
  ae_subscribers : list Subscriber
}.

Record t : Type := mk {
  id : string;
  title : string;
  context : string;
  type : list string;
  description : string;
  properties : obj Property;
  availableActions : obj AvailableAction;
  availableEvents : obj AvailableEvent;
  actions : obj (list Action);
  events : list Event;
  subscribers : list Subscriber;
  hrefPrefix : string;
  uiHref : option string
}.

Definition set_properties (x : t) (v : obj Property) : t :=
  mk (id x) (title x) (context x) (type x) (description x) v
     (availableActions x) (availableEvents x) (actions x) (events x)
     (subscribers x) (hrefPrefix x) (uiHref x).

Definition set_availableActions (x : t) (v : obj AvailableAction) : t :=
  mk (id x) (title x) (context x) (type x) (description x) (properties x)
     v (availableEvents x) (actions x) (events x)
     (subscribers x) (hrefPrefix x) (uiHref x).

Definition set_availableEvents (x : t) (v : obj AvailableEvent) : t :=
  mk (id x) (title x) (context x) (type x) (description x) (properties x)
     (availableActions x) v (actions x) (events x)
     (subscribers x) (hrefPrefix x) (uiHref x).

Definition set_actions (x : t) (v : obj (list Action)) : t :=
  mk (id x) (title x) (context x) (type x) (description x) (properties x)
     (availableActions x) (availableEvents x) v (events x)
     (subscribers x) (hrefPrefix x) (uiHref x).

Definition set_events (x : t) (v : list Event) : t :=
  mk (id x) (title x) (context x) (type x) (description x) (properties x)
     (availableActions x) (availableEvents x) (actions x) v
     (subscribers x) (hrefPrefix x) (uiHref x).

Definition set_subscribers (x : t) (v : list Subscriber) : t :=
  mk (id x) (title x) (context x) (type x) (description x) (properties x)
     (availableActions x) (availableEvents x) (actions x) (events x)
     v (hrefPrefix x) (uiHref x).

Definition set_hrefPrefix (x : t) (v : string) : t :=
  mk (id x) (title x) (context x) (type x) (description x) (properties x)
     (availableActions x) (availableEvents x) (actions x) (events x)
     (subscribers x) v (uiHref x).

Definition set_uiHref (x : t) (v : option string) : t :=
  mk (id x) (title x) (context x) (type x) (description x) (properties x)
     (availableActions x) (availableEvents x) (actions x) (events x)
     (subscribers x) (hrefPrefix x) v.

(** The state a method runs in: the Thing it is called on, the number of
    action instances constructed so far, and the effects observed so
    far. *)
Record World : Type := mkWorld {
  this : t;
  counter : nat;
  trace : list Effect
}.

Definition update (f : t -> t) : M World unit :=
  modify (fun w => mkWorld (f (this w)) (counter w) (trace w)).

(** An expression over [this] that may throw. *)
Definition eval {A : Type} (f : t -> result A) : M World A :=
  fun w => lift (f (this w)) w.

Definition emit (e : Effect) : M World unit :=
  modify (fun w => mkWorld (this w) (counter w) (trace w ++ [e])).

(** [new Thing(id, title, type, description)] *)
Definition constructor (id title : string) (type : AtType)
    (description : option string) : t :=
  let type := match type with
              | TList l => l
              | TScalar s => [s]
              end in
  mk id title "https://iot.mozilla.org/schemas" type
     (match description with Some d => d | None => "" end)
     [] [] [] [] [] [] "" None.

Section Methods.
Context {C : Collaborators}.

(** *** Readers *)

Definition getHref (x : t) : string :=
  if negb (String.eqb (hrefPrefix x) "") then hrefPrefix x else "/".

Definition getUiHref (x : t) : option string := uiHref x.
Definition getId (x : t) : string := id x.
Definition getTitle (x : t) : string := title x.
Definition getContext (x : t) : string := context x.
Definition getType (x : t) : list string := type x.
Definition getDescription (x : t) : string := description x.

Definition getPropertyDescriptions (x : t) : obj Metadata :=
  fold_left
    (fun descriptions name =>
       match get (properties x) name with
       | Some p => put descriptions name (asPropertyDescription p)
       | None => descriptions
       end)
    (own_keys (properties x)) [].

(** A missing or empty name is falsy. *)
Definition falsy_name (name : option string) : bool :=
  match name with
  | None => true
  | Some s => String.eqb s ""
  end.

Definition getActionDescriptions (x : t) (actionName : option string)
  : result (list (obj json)) :=
  if falsy_name actionName then
    Ok (flat_map (fun name =>
                    match get (actions x) name with
                    | Some l => map asActionDescription l
                    | None => []
                    end)
                 (own_keys (actions x)))
  else
    and_then (hasOwnProperty (actions x) (text_of actionName))
      (fun has =>
         if has then
           match get (actions x) (text_of actionName) with
           | Some l => Ok (map asActionDescription l)
           | None => Err TypeError
           end
         else Ok []).

Definition getEventDescriptions (x : t) (eventName : option string)
  : list json :=
  if falsy_name eventName then map asEventDescription (events x)
  else map asEventDescription
         (filter (fun e => String.eqb (e_name e) (text_of eventName))
                 (events x)).

Definition findProperty (x : t) (propertyName : string)
  : result (option Property) :=
  and_then (hasOwnProperty (properties x) propertyName)
    (fun has => if has then Ok (get (properties x) propertyName)
                else Ok None).

Definition getProperty (x : t) (propertyName : string) : result json :=
  and_then (findProperty x propertyName)
    (fun prop => match prop with
                 | Some prop => Ok (Property_getValue prop)
                 | None => Ok JNull
                 end).

Definition getProperties (x : t) : obj json :=
  fold_left
    (fun props name =>
       match get (properties x) name with
       | Some p => put props name (Property_getValue p)
       | None => props
       end)
    (own_keys (properties x)) [].

Definition hasProperty (x : t) (propertyName : string) : result bool :=
  hasOwnProperty (properties x) propertyName.

Definition getAction (x : t) (actionName : string) (actionId : ActionId)
  : result (option Action) :=
  and_then (hasOwnProperty (actions x) actionName)
    (fun has =>
       if negb has then Ok None
       else match get (actions x) actionName with
            | Some l => Ok (find (fun action => id_eqb (a_id action) actionId) l)
            | None => Err TypeError
            end).

(** *** Notification *)

(** [subscriber.send(message)]: delivers, or throws. *)
Definition send (subscriber : Subscriber) (message : string)
  : M World unit :=
  if send_ok subscriber message
  then emit (Sent subscriber message)
  else throw SendError.

Definition propertyNotify (property : Property) : M World unit :=
  let message :=
    JSON_stringify
      (JObj [("messageType", JStr "propertyStatus");
             ("data", JObj [(p_name property, Property_getValue property)])])
  in
  subs <- gets (fun w => subscribers (this w)) ;;
  for_of subs
    (fun subscriber =>
       try_catch (send subscriber message) (fun _ => ret tt)).

Definition actionNotify (action : Action) : M World unit :=
  let message :=
    JSON_stringify
      (JObj [("messageType", JStr "actionStatus");
             ("data", JObj (asActionDescription action))])
  in
  subs <- gets (fun w => subscribers (this w)) ;;
  for_of subs
    (fun subscriber =>
       try_catch (send subscriber message) (fun _ => ret tt)).

Definition eventNotify (event : Event) : M World unit :=
  has <- eval (fun x => hasOwnProperty (availableEvents x) (e_name event)) ;;
  if negb has then ret tt
  else
    let message :=
      JSON_stringify
        (JObj [("messageType", JStr "event");
               ("data", asEventDescription event)])
    in
    available <- gets (fun w => get (availableEvents (this w)) (e_name event)) ;;
    match available with
    | None => throw TypeError
    | Some entry =>
        for_of (ae_subscribers entry)
          (fun subscriber =>
             try_catch (send subscriber message) (fun _ => ret tt))
    end.

(** *** Href prefix *)

Definition setHrefPrefix (prefix : string) : M World unit :=
  update (fun x => set_hrefPrefix x prefix) ;;
  update (fun x =>
    set_properties x
      (map (fun kv => (fst kv, Property_setHrefPrefix (snd kv) prefix))
           (properties x))) ;;
  update (fun x =>
    set_actions x
      (map (fun kv =>
              (fst kv,
               map (fun action => Action_setHrefPrefix action prefix)
                   (snd kv)))
           (actions x))).

Definition setUiHref (href : option string) : M World unit :=
  update (fun x => set_uiHref x href).

(** *** Properties *)

Definition addProperty (property : Property) : M World unit :=
  prefix <- gets (fun w => hrefPrefix (this w)) ;;
  let property := Property_setHrefPrefix property prefix in
  replaces <-
    gets (fun w => replaces_prototype (properties (this w)) (p_name property)) ;;
  if replaces then outside
  else
    update (fun x =>
      set_properties x (set (properties x) (p_name property) property)).

Definition removeProperty (property : Property) : M World unit :=
  has <- eval (fun x => hasOwnProperty (properties x) (p_name property)) ;;
  if has
  then update (fun x =>
         set_properties x (delete (properties x) (p_name property)))
  else ret tt.

(** Modelled from the spec: Property.setValue (property.js is missing),
    called on the property object held at [this.properties[key]].  A
    value that does not satisfy the declared constraints is rejected by
    throwing, before anything is stored; otherwise the value is stored,
    the change callback runs and the owning Thing notifies its
    subscribers. *)
Definition Property_setValue (key : string) (prop : Property) (value : json)
  : M World unit :=
  if satisfies (p_metadata prop) value then
    let prop' := Property_store prop value in
    update (fun x => set_properties x (set (properties x) key prop')) ;;
    emit (Callback (p_name prop) value) ;;
    propertyNotify prop'
  else throw PropertyError.

Definition setProperty (propertyName : string) (value : json)
  : M World unit :=
  prop <- eval (fun x => findProperty x propertyName) ;;
  match prop with
  | None => ret tt
  | Some prop => Property_setValue propertyName prop value
  end.

(** *** Events *)

Definition addEvent (event : Event) : M World unit :=
  update (fun x => set_events x (events x ++ [event])) ;;
  eventNotify event.

Definition addAvailableEvent (name : string) (metadata : option Metadata)
  : M World unit :=
  let metadata := match metadata with
                  | Some m => m
                  | None => empty_metadata
                  end in
  replaces <-
    gets (fun w => replaces_prototype (availableEvents (this w)) name) ;;
  if replaces then outside
  else
    update (fun x =>
      set_availableEvents x
        (set (availableEvents x) name (mkAvailableEvent metadata []))).

(** *** Actions *)

(** Modelled from the spec: [new actionType.class(this, input)].  The
    class draws an identifier for its next instance and calls the base
    constructor with it, its action name and the input. *)
Definition new_instance (cls : ActionClass) (input : json) : M World Action :=
  fun w =>
    Ret (Action_new (cls_id cls (counter w)) (cls_name cls) input)
        (mkWorld (this w) (S (counter w)) (trace w)).

(** [this.actions[actionName].push(action)] *)
Definition push_action (actionName : string) (action : Action)
  : M World unit :=
  l <- gets (fun w => get (actions (this w)) actionName) ;;
  match l with
  | None => throw TypeError
  | Some l =>
      update (fun x =>
        set_actions x (set (actions x) actionName (l ++ [action])))
  end.

Definition performAction (actionName : string) (input : json)
  : M World (option Action) :=
  let input := or_else input JNull in
  has <- eval (fun x => hasOwnProperty (availableActions x) actionName) ;;
  if negb has then ret None
  else
    actionType <- gets (fun w => get (availableActions (this w)) actionName) ;;
    match actionType with
    | None => throw TypeError
    | Some actionType =>
        declared <-
          lift (Metadata_hasOwnProperty (aa_metadata actionType) "input") ;;
        let valid :=
          if declared then
            match md_input (aa_metadata actionType) with
            | Some schema => ajv_validate schema input
            | None => true
            end
          else true in
        if negb valid then ret None
        else
          action <- new_instance (aa_class actionType) input ;;
          prefix <- gets (fun w => hrefPrefix (this w)) ;;
          let action := Action_setHrefPrefix action prefix in
          actionNotify action ;;
          push_action actionName action ;;
          ret (Some action)
    end.

(** Modelled from the spec: Action.cancel (action.js is missing): the
    pending side effects of the action are stopped. *)
Definition Action_cancel (action : Action) : M World unit :=
  emit (Cancelled (a_id action)).

(** The splice loop: drop the first instance with the identifier. *)
Fixpoint splice_first (l : list Action) (actionId : ActionId) : list Action :=
  match l with
  | [] => []
  | a :: r => if id_eqb (a_id a) actionId then r
              else a :: splice_first r actionId
  end.

Definition removeAction (actionName : string) (actionId : ActionId)
  : M World bool :=
  action <- eval (fun x => getAction x actionName actionId) ;;
  match action with
  | None => ret false
  | Some action =>
      Action_cancel action ;;
      update (fun x =>
        match get (actions x) actionName with
        | Some l =>
            set_actions x
              (set (actions x) actionName (splice_first l actionId))
        | None => x
        end) ;;
      ret true
  end.

Definition addAvailableAction (name : string) (metadata : option Metadata)
    (cls : ActionClass) : M World unit :=
  let metadata := match metadata with
                  | Some m => m
                  | None => empty_metadata
                  end in
  replaces <-
    gets (fun w => replaces_prototype (availableActions (this w)) name) ;;
  if replaces then outside
  else
    update (fun x =>
      set_availableActions x
        (set (availableActions x) name (mkAvailableAction metadata cls))) ;;
    update (fun x => set_actions x (put (actions x) name [])).

(** *** Subscribers *)

Definition addSubscriber (ws : Subscriber) : M World unit :=
  update (fun x => set_subscribers x (set_add Nat.eqb (subscribers x) ws)).

Definition addEventSubscriber (name : string) (ws : Subscriber)
  : M World unit :=
  has <- eval (fun x => hasOwnProperty (availableEvents x) name) ;;
  if has then
    update (fun x =>
      match get (availableEvents x) name with
      | Some entry =>
          set_availableEvents x
            (set (availableEvents x) name
               (mkAvailableEvent (ae_metadata entry)
                  (set_add Nat.eqb (ae_subscribers entry) ws)))
      | None => x
      end)
  else ret tt.

Definition removeEventSubscriber (name : string) (ws : Subscriber)
  : M World unit :=
  has <- eval (fun x => hasOwnProperty (availableEvents x) name) ;;
  if has then
    update (fun x =>
      match get (availableEvents x) name with
      | Some entry =>
          if set_has Nat.eqb (ae_subscribers entry) ws then
            set_availableEvents x
              (set (availableEvents x) name
                 (mkAvailableEvent (ae_metadata entry)
                    (set_delete Nat.eqb (ae_subscribers entry) ws)))
          else x
      | None => x
      end)
  else ret tt.

Definition removeSubscriber (ws : Subscriber) : M World unit :=
  update (fun x =>
    if set_has Nat.eqb (subscribers x) ws
    then set_subscribers x (set_delete Nat.eqb (subscribers x) ws)
    else x) ;;
  names <- gets (fun w => own_keys (availableEvents (this w))) ;;
  for_of names (fun name => removeEventSubscriber name ws).

(** [f] applied to the last element of a list. *)
Fixpoint update_last (f : Action -> Action) (l : list Action) : list Action :=
  match l with
  | [] => []
  | [a] => [f a]
  | a :: r => a :: update_last f r
  end.

(** Modelled from the spec: Action.start (action.js is missing), called
    on the instance [performAction] has just appended to
    [this.actions[key]]: the instance becomes [pending] and its work is
    launched; the asynchronous completion is not part of the model. *)
Definition Action_start (key : string) (action : Action) : M World unit :=
  update (fun x =>
    match get (actions x) key with
    | Some l =>
        set_actions x
          (set (actions x) key
             (update_last (fun a => Action_setStatus a "pending") l))
    | None => x
    end) ;;
  emit (Started (a_id action)).

(** *** Description *)

(** [for (const name in o) acc = body acc name] *)
Fixpoint for_in {A : Type} (names : list string) (acc : A)
    (body : A -> string -> M World A) : M World A :=
  match names with
  | [] => ret acc
  | name :: r => acc' <- body acc name ;; for_in r acc' body
  end.

(** The metadata object of a catalog entry is shared with the
    description: writing [links] into one writes it into the other. *)
Definition asThingDescription : M World Description :=
  x <- gets this ;;
  let links :=
    [ mkLink "properties" (hrefPrefix x ++ "/properties") None;
      mkLink "actions" (hrefPrefix x ++ "/actions") None;
      mkLink "events" (hrefPrefix x ++ "/events") None ] in
  let propertyDescriptions := getPropertyDescriptions x in
  thing_actions <-
    for_in (own_keys (availableActions x)) []
      (fun acc name =>
         entry <- gets (fun w => get (availableActions (this w)) name) ;;
         match entry with
         | None => ret acc
         | Some entry =>
             let metadata :=
               with_links (aa_metadata entry)
                 [mkLink "action" (hrefPrefix x ++ "/actions/" ++ name) None]
             in
             update (fun x =>
               set_availableActions x
                 (set (availableActions x) name
                    (mkAvailableAction metadata (aa_class entry)))) ;;
             ret (put acc name metadata)
         end) ;;
  thing_events <-
    for_in (own_keys (availableEvents x)) []
      (fun acc name =>
         entry <- gets (fun w => get (availableEvents (this w)) name) ;;
         match entry with
         | None => ret acc
         | Some entry =>
             let metadata :=
               with_links (ae_metadata entry)
                 [mkLink "event" (hrefPrefix x ++ "/events/" ++ name) None]
             in
             update (fun x =>
               set_availableEvents x
                 (set (availableEvents x) name
                    (mkAvailableEvent metadata (ae_subscribers entry)))) ;;
             ret (put acc name metadata)
         end) ;;
  let links :=
    match uiHref x with
    | Some ui =>
        if negb (String.eqb ui "")
        then links ++ [mkLink "alternate" ui (Some "text/html")]
        else links
    | None => links
    end in
  ret (mkDescription (id x) (title x) (context x) (type x)
         (Some propertyDescriptions) (Some thing_actions)
         (Some thing_events) (Some links)
         (if negb (String.eqb (description x) "")
          then Some (description x) else None)
         None None None None).

End Methods.
End Thing.

(** ** Requests, responses and the registry *)

(** [req.params], as the router fills it from the path; [thingId] is
    absent on the single-thing routes. *)
Record Params : Type := mkParams {
  thingId : option string;
  propertyName : string;
  actionName : string;
  actionId : string;
  eventName : string
}.

Record Request : Type := mkRequest {
  params : Params;
  host : option string;        (* the Uri-Host option, when the sender set it *)
  payload : string             (* req.payload.toString() *)
}.

(** What a handler hands to the response object. *)
Inductive Body : Type :=
| Ended                                  (* res.end() *)
| Json (j : json)                        (* res.json(value) *)
| JsonDescription (d : Description)      (* res.json(description) *)
| JsonDescriptions (ds : list Description)
| Text (s : string).                     (* res.end(text) *)

Record Response : Type := mkResponse {
  statusCode : option nat;               (* [None]: left at its default *)
  contentFormat : option string;         (* res.setOption('Content-Format', _) *)
  body : Body
}.

(** [res.statusCode = code; res.end()] *)
Definition status (code : nat) : Response := mkResponse (Some code) None Ended.

(** Modelled from the spec: the registry (SingleThing / MultipleThings;
    their source is missing).  SingleThing holds exactly one Thing;
    MultipleThings holds an ordered sequence of Things and a name, and
    resolves a Thing by its index. *)
Inductive Things : Type :=
| SingleThing (thing : Thing.t) (name : string)
| MultipleThings (things : list Thing.t) (name : string).

Definition getThings (r : Things) : list Thing.t :=
  match r with
  | SingleThing x _ => [x]
  | MultipleThings l _ => l
  end.

Definition getName (r : Things) : string :=
  match r with
  | SingleThing _ n => n
  | MultipleThings _ n => n
  end.

(** A reference to a Thing of the registry: its position. *)
Definition Ref : Type := nat.

(** [things.getThing(idx)]: the reference, or [None] for [null]. *)
Definition Things_getThing (r : Things) (idx : option string) : option Ref :=
  match r with
  | SingleThing _ _ => Some 0
  | MultipleThings l _ =>
      match idx with
      | None => None
      | Some s =>
          match array_index s with
          | Some n => if (N.to_nat n <? List.length l)%nat
                      then Some (N.to_nat n) else None
          | None => None
          end
      end
  end.

Fixpoint replace_at (l : list Thing.t) (i : nat) (x : Thing.t) : list Thing.t :=
  match l, i with
  | [], _ => []
  | _ :: r, O => x :: r
  | y :: r, S i' => y :: replace_at r i' x
  end.

Definition put_thing (r : Things) (i : Ref) (x : Thing.t) : Things :=
  match r with
  | SingleThing y n => match i with O => SingleThing x n | S _ => r end
  | MultipleThings l n => MultipleThings (replace_at l i x) n
  end.

(** The state of the server: the registry, the number of action
    instances constructed so far and the effects observed so far. *)
Record Server : Type := mkServer {
  things : Things;
  srv_counter : nat;
  srv_trace : list Effect
}.

(** A method called on the Thing a reference points to; the Thing is
    mutated in place. *)
Definition call {A : Type} (thing : Ref) (m : M Thing.World A) : M Server A :=
  fun s =>
    match nth_error (getThings (things s)) thing with
    | None => Throw TypeError s
    | Some x =>
        match m (Thing.mkWorld x (srv_counter s) (srv_trace s)) with
        | Ret a w =>
            Ret a (mkServer (put_thing (things s) thing (Thing.this w))
                            (Thing.counter w) (Thing.trace w))
        | Throw e w =>
            Throw e (mkServer (put_thing (things s) thing (Thing.this w))
                              (Thing.counter w) (Thing.trace w))
        | Outside w =>
            Outside (mkServer (put_thing (things s) thing (Thing.this w))
                              (Thing.counter w) (Thing.trace w))
        end
    end.

(** A reader called on the Thing a reference points to. *)
Definition read {A : Type} (thing : Ref) (f : Thing.t -> A) : M Server A :=
  call thing (gets (fun w => f (Thing.this w))).

(** A reader that may throw. *)
Definition read_result {A : Type} (thing : Ref) (f : Thing.t -> result A)
  : M Server A :=
  call thing (Thing.eval f).


(** ** Member access on a parsed body *)

(** The own member [k] of a JSON value that is not [null], [None] when
    there is none.  Arrays and strings own their indices and [length];
    numbers and booleans own nothing. *)
Definition json_own (j : json) (k : string) : option json :=
  match j with
  | JNull => None
  | JObj o => get o k
  | JArr l =>
      if String.eqb k "length" then Some (JNum (Z.of_nat (List.length l)))
      else match array_index k with
           | Some n => nth_error l (N.to_nat n)
           | None => None
           end
  | JStr s =>
      if String.eqb k "length" then Some (JNum (Z.of_nat (String.length s)))
      else match array_index k with
           | Some n =>
               match String.get (N.to_nat n) s with
               | Some c => Some (JStr (String c EmptyString))
               | None => None
               end
           | None => None
           end
  | JBool _ | JNum _ => None
  end.

(** [j.hasOwnProperty(k)] on a parsed value.  [null] has no members and
    the call throws; an object is asked as in [hasOwnProperty], so one
    with a member named [hasOwnProperty] throws as well (no JSON value is
    a function); the other values inherit the method. *)
Definition json_hasOwnProperty (j : json) (k : string) : result bool :=
  match j with
  | JNull => Err TypeError
  | JObj o => hasOwnProperty o k
  | JArr _ | JStr _ | JBool _ | JNum _ => Ok (present (json_own j k))
  end.

(** [j[k]] for a member the code has found to be an own member; reading
    a member of [null] throws, a member that is not there is
    [undefined] ([None]). *)
Definition json_member (j : json) (k : string) : result (option json) :=
  match j with
  | JNull => Err TypeError
  | _ => Ok (json_own j k)
  end.

(** The names [for (const k in j)] goes through. *)
Definition json_keys (j : json) : list string :=
  match j with
  | JObj o => own_keys o
  | JArr l => map nat_text (seq 0 (List.length l))
  | JStr s => map nat_text (seq 0 (String.length s))
  | JNull | JBool _ | JNum _ => []
  end.

(** [Object.assign(target, source)]: each own member of the source is
    assigned to the target. *)
Definition assign (target source : obj json) : obj json :=
  fold_left (fun acc kv => put acc (fst kv) (snd kv))
            (own_entries source) target.

(** ** helpers *)

Module helpers.
Section Helpers.
Context {C : Collaborators}.

Definition resourceGroupKeys : list string :=
  ["href"; "links"; "properties"; "actions"; "events"].

Definition protocol : string := "coap".

Definition with_href (d : Description) (h : string) : Description :=
  mkDescription (d_id d) (d_title d) (d_context d) (d_type d)
    (d_properties d) (d_actions d) (d_events d) (d_links d)
    (d_description d) (Some h) (d_base d)
    (d_securityDefinitions d) (d_security d).

Definition with_base (d : Description) (b : string) : Description :=
  mkDescription (d_id d) (d_title d) (d_context d) (d_type d)
    (d_properties d) (d_actions d) (d_events d) (d_links d)
    (d_description d) (d_href d) (Some b)
    (d_securityDefinitions d) (d_security d).

Definition with_security (d : Description) (defs : obj (obj string))
    (sec : string) : Description :=
  mkDescription (d_id d) (d_title d) (d_context d) (d_type d)
    (d_properties d) (d_actions d) (d_events d) (d_links d)
    (d_description d) (d_href d) (d_base d) (Some defs) (Some sec).

(** [getDescription(req, thing)], run on [thing]. *)
Definition getDescription (req : Request) : M Thing.World Description :=
  description <- Thing.asThingDescription ;;
  thing <- gets Thing.this ;;
  let description :=
    if negb (String.eqb (Thing.getHref thing) "/")
    then with_href description (Thing.getHref thing)
    else description in
  let description :=
    with_base description
      (protocol ++ "://" ++ text_of (host req) ++ Thing.getHref thing) in
  let description :=
    with_security description
      [("nosec_sc", [("scheme", "nosec")])] "nosec_sc" in
  ret description.

(** [description[rgKey]] for the three resource groups. *)
Definition resourceGroup_of (description : Description) (rgKey : string)
  : option (obj Metadata) :=
  if String.eqb rgKey "properties" then d_properties description
  else if String.eqb rgKey "actions" then d_actions description
  else if String.eqb rgKey "events" then d_events description
  else None.

(** The text of [resource['@type']] in the [rt] attribute. *)
Definition types_of (resource : Metadata) : string :=
  match md_type resource with
  | Some (TList l) => join " " l
  | Some (TScalar s) => s
  | None => "undefined"
  end.

(** The [switch (rgKey)]; with no case taken [coreLink] stays undefined,
    which [join] prints as the empty text. *)
Definition coreLink (rgKey : string) (resource : Metadata) (link : Link)
  : string :=
  if String.eqb rgKey "properties" then
    "<" ++ href link ++ ">;rt=" ++ dq ++ types_of resource ++ dq
        ++ ";ct=50;title=" ++ dq ++ text_of (md_title resource) ++ dq
  else if String.eqb rgKey "actions" then
    "<" ++ href link ++ ">;rt=" ++ dq ++ rel link ++ dq ++ ";ct=50"
  else if String.eqb rgKey "events" then
    "<" ++ href link ++ ">;rt=" ++ dq ++ rel link ++ dq ++ ";ct=50"
  else "".

(** One resource of a group: its links, when it has any. *)
Definition push_resource (rgKey : string) (core : list string)
    (resource : Metadata) : result (list string) :=
  and_then (Metadata_hasOwnProperty resource "links")
    (fun has =>
       if negb has then Ok core
       else
         match md_links resource with
         | None => Ok core
         | Some links =>
             Ok (fold_left
                   (fun core link => core ++ [coreLink rgKey resource link])
                   links core)
         end).

(** One round of the loop over [resourceGroupKeys]. *)
Definition push_group (description : Description) (core : list string)
    (rgKey : string) : result (list string) :=
  if String.eqb rgKey "href" then
    match d_href description with
    | Some h => Ok (core ++ [("<" ++ h ++ ">")%string])
    | None => Ok core
    end
  else if String.eqb rgKey "links" then
    match d_links description with
    | Some links =>
        Ok (fold_left
              (fun core link =>
                 core ++ [("<" ++ href link ++ ">;rt=" ++ dq ++ rel link ++ dq
                               ++ ";ct=50")%string])
              links core)
    | None => Ok core
    end
  else
    match resourceGroup_of description rgKey with
    | None => Ok core
    | Some resourceGroup =>
        fold_result
          (fun core rKey =>
             match get resourceGroup rKey with
             | None => Err TypeError
             | Some resource => push_resource rgKey core resource
             end)
          (own_keys resourceGroup) core
    end.

Definition getCoreLinkFormat (description : Description) : result string :=
  and_then (fold_result (push_group description) resourceGroupKeys [])
    (fun core => Ok (join "," core)).

(** [JSON.parse(req.payload.toString())] *)
Definition getBody {S : Type} (req : Request) : M S json :=
  match JSON_parse (payload req) with
  | Some j => ret j
  | None => throw SyntaxError
  end.

End Helpers.
End helpers.

(** ** The resource handlers *)

Module CoapBaseHandler.

(** [this.things.getThing(req.params.thingId)] *)
Definition getThing (req : Request) : M Server (option Ref) :=
  gets (fun s => Things_getThing (things s) (thingId (params req))).

(** [this.things.getThings().map(f)], [f] run on each Thing in turn. *)
Fixpoint map_things {A : Type} (refs : list Ref) (f : M Thing.World A)
  : M Server (list A) :=
  match refs with
  | [] => ret []
  | thing :: r =>
      a <- call thing f ;;
      l <- map_things r f ;;
      ret (a :: l)
  end.

Definition all_things : M Server (list Ref) :=
  gets (fun s => seq 0 (List.length (getThings (things s)))).

End CoapBaseHandler.

Import CoapBaseHandler.

Module CoapThingsHandler.
Section Handler.
Context {C : Collaborators}.

Definition get (req : Request) : M Server Response :=
  refs <- all_things ;;
  descriptions <- map_things refs (helpers.getDescription req) ;;
  ret (mkResponse None None (JsonDescriptions descriptions)).

End Handler.
End CoapThingsHandler.

Module CoapThingHandler.
Section Handler.
Context {C : Collaborators}.

Definition get (req : Request) : M Server Response :=
  thing <- getThing req ;;
  match thing with
  | None => ret (status 404)
  | Some thing =>
      description <- call thing (helpers.getDescription req) ;;
      ret (mkResponse None None (JsonDescription description))
  end.

End Handler.
End CoapThingHandler.

Module CoapCoresHandler.
Section Handler.
Context {C : Collaborators}.

Definition get (req : Request) : M Server Response :=
  refs <- all_things ;;
  descriptions <- map_things refs (helpers.getDescription req) ;;
  cores <-
    lift (fold_result
            (fun cores d =>
               and_then (helpers.getCoreLinkFormat d)
                 (fun core => Ok (cores ++ [core])))
            descriptions []) ;;
  let cores := cores ++ ["</>"] in
  let cores := cores ++ ["</.well-known/core>"] in
  ret (mkResponse None (Some "application/link-format")
         (Text (join "," cores))).

End Handler.
End CoapCoresHandler.

Module CoapCoreHandler.
Section Handler.
Context {C : Collaborators}.

Definition get (req : Request) : M Server Response :=
  thing <- getThing req ;;
  match thing with
  | None => ret (status 404)
  | Some thing =>
      description <- call thing (helpers.getDescription req) ;;
      encoded <- lift (helpers.getCoreLinkFormat description) ;;
      let core := (encoded ++ ",</>,</.well-known/core>")%string in
      ret (mkResponse None (Some "application/link-format") (Text core))
  end.

End Handler.
End CoapCoreHandler.

Module CoapPropertiesHandler.
Section Handler.
Context {C : Collaborators}.

Definition get (req : Request) : M Server Response :=
  thing <- getThing req ;;
  match thing with
  | None => ret (status 404)
  | Some thing =>
      props <- read thing Thing.getProperties ;;
      ret (mkResponse None None (Json (JObj props)))
  end.

End Handler.
End CoapPropertiesHandler.

Module CoapPropertyHandler.
Section Handler.
Context {C : Collaborators}.

Definition get (req : Request) : M Server Response :=
  thing <- getThing req ;;
  match thing with
  | None => ret (status 404)
  | Some thing =>
      let propertyName := propertyName (params req) in
      has <- read_result thing (fun x => Thing.hasProperty x propertyName) ;;
      if has then
        value <- read_result thing (fun x => Thing.getProperty x propertyName) ;;
        ret (mkResponse None None (Json (JObj [(propertyName, value)])))
      else ret (status 404)
  end.

Definition put (req : Request) : M Server Response :=
  thing <- getThing req ;;
  match thing with
  | None => ret (status 404)
  | Some thing =>
      let propertyName := propertyName (params req) in
      body <- helpers.getBody req ;;
      in_body <- lift (json_hasOwnProperty body propertyName) ;;
      if negb in_body then ret (status 400)
      else
        has <- read_result thing (fun x => Thing.hasProperty x propertyName) ;;
        if has then
          accepted <-
            try_catch
              (member <- lift (json_member body propertyName) ;;
               call thing
                 (Thing.setProperty propertyName
                    (match member with Some value => value | None => JNull end)) ;;
               ret true)
              (fun _ => ret false) ;;
          if accepted then
            value <-
              read_result thing (fun x => Thing.getProperty x propertyName) ;;
            ret (mkResponse None None (Json (JObj [(propertyName, value)])))
          else ret (status 400)
        else ret (status 404)
  end.

End Handler.
End CoapPropertyHandler.

(** The body of the loops of the two POST handlers: one entry of the
    request body. *)
Section PostEntry.
Context {C : Collaborators}.

Definition post_entry (thing : Ref) (body : json) (response : obj json)
    (actionName : string) : M Server (obj json) :=
  entry <- lift (json_member body actionName) ;;
  input <-
    match entry with
    | None => throw TypeError
    | Some entry =>
        has_input <- lift (json_hasOwnProperty entry "input") ;;
        if has_input then
          member <- lift (json_member entry "input") ;;
          ret (match member with Some input => input | None => JNull end)
        else ret JNull
    end ;;
  action <- call thing (Thing.performAction actionName input) ;;
  match action with
  | Some action =>
      let response := assign response (asActionDescription action) in
      call thing (Thing.Action_start actionName action) ;;
      ret response
  | None => ret response
  end.

Fixpoint post_loop (thing : Ref) (body : json) (names : list string)
    (response : obj json) (skip : string -> bool) : M Server (obj json) :=
  match names with
  | [] => ret response
  | name :: r =>
      if skip name then post_loop thing body r response skip
      else
        response' <- post_entry thing body response name ;;
        post_loop thing body r response' skip
  end.

End PostEntry.

Module CoapActionsHandler.
Section Handler.
Context {C : Collaborators}.

Definition get (req : Request) : M Server Response :=
  thing <- getThing req ;;
  match thing with
  | None => ret (status 404)
  | Some thing =>
      descriptions <-
        read_result thing (fun x => Thing.getActionDescriptions x None) ;;
      ret (mkResponse None None (Json (JArr (map JObj descriptions))))
  end.

Definition post (req : Request) : M Server Response :=
  thing <- getThing req ;;
  match thing with
  | None => ret (status 404)
  | Some thing =>
      body <- helpers.getBody req ;;
      response <- post_loop thing body (json_keys body) [] (fun _ => false) ;;
      ret (mkResponse (Some 201) None (Json (JObj response)))
  end.

End Handler.
End CoapActionsHandler.

Module CoapActionHandler.
Section Handler.
Context {C : Collaborators}.

Definition get (req : Request) : M Server Response :=
  thing <- getThing req ;;
  match thing with
  | None => ret (status 404)
  | Some thing =>
      let actionName := actionName (params req) in
      descriptions <-
        read_result thing
          (fun x => Thing.getActionDescriptions x (Some actionName)) ;;
      ret (mkResponse None None (Json (JArr (map JObj descriptions))))
  end.

Definition post (req : Request) : M Server Response :=
  thing <- getThing req ;;
  match thing with
  | None => ret (status 404)
  | Some thing =>
      let actionName := actionName (params req) in
      body <- helpers.getBody req ;;
      response <-
        post_loop thing body (json_keys body) []
          (fun name => negb (String.eqb name actionName)) ;;
      ret (mkResponse (Some 201) None (Json (JObj response)))
  end.

End Handler.
End CoapActionHandler.

Module CoapActionIDHandler.
Section Handler.
Context {C : Collaborators}.

Definition get (req : Request) : M Server Response :=
  thing <- getThing req ;;
  match thing with
  | None => ret (status 404)
  | Some thing =>
      let actionName := actionName (params req) in
      let actionId := IdStr (actionId (params req)) in
      action <-
        read_result thing (fun x => Thing.getAction x actionName actionId) ;;
      match action with
      | None => ret (status 404)
      | Some action =>
          ret (mkResponse None None (Json (JObj (asActionDescription action))))
      end
  end.

Definition put (req : Request) : M Server Response :=
  thing <- getThing req ;;
  match thing with
  | None => ret (status 404)
  | Some _ => ret (status 200)
  end.

Definition delete (req : Request) : M Server Response :=
  thing <- getThing req ;;
  match thing with
  | None => ret (status 404)
  | Some thing =>
      let actionName := actionName (params req) in
      let actionId := IdStr (actionId (params req)) in
      removed <- call thing (Thing.removeAction actionName actionId) ;;
      if removed then ret (status 204) else ret (status 404)
  end.

End Handler.
End CoapActionIDHandler.

Module CoapEventsHandler.
Section Handler.
Context {C : Collaborators}.

Definition get (req : Request) : M Server Response :=
  thing <- getThing req ;;
  match thing with
  | None => ret (status 404)
  | Some thing =>
      descriptions <- read thing (fun x => Thing.getEventDescriptions x None) ;;
      ret (mkResponse None None (Json (JArr descriptions)))
  end.

End Handler.
End CoapEventsHandler.

Module CoapEventHandler.
Section Handler.
Context {C : Collaborators}.

Definition get (req : Request) : M Server Response :=
  thing <- getThing req ;;
  match thing with
  | None => ret (status 404)
  | Some thing =>
      let eventName := eventName (params req) in
      descriptions <-
        read thing (fun x => Thing.getEventDescriptions x (Some eventName)) ;;
      ret (mkResponse None None (Json (JArr descriptions)))
  end.

End Handler.
End CoapEventHandler.

(** ** The server *)

Module CoapWebThingServer.

(** [basePath.replace(/\/$/, '')]: one final slash is dropped. *)
Fixpoint strip_final_slash (s : string) : string :=
  match s with
  | EmptyString => EmptyString
  | String c r =>
      if String.eqb r "" && Ascii.eqb c "/" then EmptyString
      else String c (strip_final_slash r)
  end.

(** The assignment of href prefixes in the constructor: the position of
    each Thing under the base path for MultipleThings, the base path
    itself for the one Thing of SingleThing. *)
Definition set_prefixes (basePath : string) : M Server unit :=
  r <- gets things ;;
  match r with
  | MultipleThings list _ =>
      for_of (seq 0 (List.length list))
        (fun i => call i (Thing.setHrefPrefix (basePath ++ "/" ++ nat_text i)))
  | SingleThing _ _ => call 0 (Thing.setHrefPrefix basePath)
  end.

(** [new CoapWebThingServer(things, port, hostname, additionalRoutes,
    basePath)], as far as the model goes: the Things with their
    prefixes. *)
Definition constructor (things : Things) (basePath : string) : Server :=
  state_of (set_prefixes (strip_final_slash basePath) (mkServer things 0 [])).

End CoapWebThingServer.

(** ** Routing *)

Inductive Method : Type := GET | PUT | POST | DELETE.

Definition method_eqb (a b : Method) : bool :=
  match a, b with
  | GET, GET | PUT, PUT | POST, POST | DELETE, DELETE => true
  | _, _ => false
  end.

(** A segment of a path template: literal text or a named placeholder. *)
Inductive Segment : Type :=
| Lit (s : string)
| Param (name : string).

(** The bound handler methods. *)
Inductive Handler : Type :=
| ThingsGet | ThingGet | CoresGet | CoreGet
| PropertiesGet | PropertyGet | PropertyPut
| ActionsGet | ActionsPost | ActionGet | ActionPost
| ActionIdGet | ActionIdPut | ActionIdDelete
| EventsGet | EventGet.

Record Route : Type := mkRoute {
  route_method : Method;
  route_path : list Segment;
  route_handler : Handler
}.

Module Routes.

(** The table the constructor registers for MultipleThings, in
    registration order. *)
Definition multiple : list Route :=
  [ mkRoute GET [] ThingsGet;
    mkRoute GET [Lit ".well-known"; Lit "core"] CoresGet;
    mkRoute GET [Param "thingId"] ThingGet;
    mkRoute GET [Param "thingId"; Lit "properties"] PropertiesGet;
    mkRoute GET [Param "thingId"; Lit "properties"; Param "propertyName"]
      PropertyGet;
    mkRoute PUT [Param "thingId"; Lit "properties"; Param "propertyName"]
      PropertyPut;
    mkRoute GET [Param "thingId"; Lit "actions"] ActionsGet;
    mkRoute POST [Param "thingId"; Lit "actions"] ActionsPost;
    mkRoute GET [Param "thingId"; Lit "actions"; Param "actionName"] ActionGet;
    mkRoute POST [Param "thingId"; Lit "actions"; Param "actionName"]
      ActionPost;
    mkRoute GET
      [Param "thingId"; Lit "actions"; Param "actionName"; Param "actionId"]
      ActionIdGet;
    mkRoute PUT
      [Param "thingId"; Lit "actions"; Param "actionName"; Param "actionId"]
      ActionIdPut;
    mkRoute DELETE
      [Param "thingId"; Lit "actions"; Param "actionName"; Param "actionId"]
      ActionIdDelete;
    mkRoute GET [Param "thingId"; Lit "events"] EventsGet;
    mkRoute GET [Param "thingId"; Lit "events"; Param "eventName"] EventGet ].

(** The table for a single Thing. *)
Definition single : list Route :=
  [ mkRoute GET [] ThingGet;
    mkRoute GET [Lit ".well-known"; Lit "core"] CoreGet;
    mkRoute GET [Lit "properties"] PropertiesGet;
    mkRoute GET [Lit "properties"; Param "propertyName"] PropertyGet;
    mkRoute PUT [Lit "properties"; Param "propertyName"] PropertyPut;
    mkRoute GET [Lit "actions"] ActionsGet;
    mkRoute POST [Lit "actions"] ActionsPost;
    mkRoute GET [Lit "actions"; Param "actionName"] ActionGet;
    mkRoute POST [Lit "actions"; Param "actionName"] ActionPost;
    mkRoute GET [Lit "actions"; Param "actionName"; Param "actionId"]
      ActionIdGet;
    mkRoute PUT [Lit "actions"; Param "actionName"; Param "actionId"]
      ActionIdPut;
    mkRoute DELETE [Lit "actions"; Param "actionName"; Param "actionId"]
      ActionIdDelete;
    mkRoute GET [Lit "events"] EventsGet;
    mkRoute GET [Lit "events"; Param "eventName"] EventGet ].

(** [this.things.constructor.name === 'MultipleThings'] selects the
    table. *)
Definition of_things (r : Things) : list Route :=
  match r with
  | MultipleThings _ _ => multiple
  | SingleThing _ _ => single
  end.

End Routes.

(** Modelled from the spec: the router (coap-router is an external
    collaborator).  A request carries a method and a path, here the list
    of its segments; a route matches when the methods agree and the path
    has the segments of the template, a literal segment matching itself
    and a placeholder matching any segment, whose text it binds. *)
Definition bind_param (name value : string) (p : Params) : Params :=
  if String.eqb name "thingId"
  then mkParams (Some value) (propertyName p) (actionName p) (actionId p)
         (eventName p)
  else if String.eqb name "propertyName"
  then mkParams (thingId p) value (actionName p) (actionId p) (eventName p)
  else if String.eqb name "actionName"
  then mkParams (thingId p) (propertyName p) value (actionId p) (eventName p)
  else if String.eqb name "actionId"
  then mkParams (thingId p) (propertyName p) (actionName p) value (eventName p)
  else if String.eqb name "eventName"
  then mkParams (thingId p) (propertyName p) (actionName p) (actionId p) value
  else p.

Fixpoint match_path (template : list Segment) (path : list string)
    (p : Params) : option Params :=
  match template, path with
  | [], [] => Some p
  | Lit s :: t, seg :: r =>
      if String.eqb seg s then match_path t r p else None
  | Param name :: t, seg :: r => match_path t r (bind_param name seg p)
  | _, _ => None
  end.

Definition no_params : Params := mkParams None "" "" "" "".

Definition match_route (m : Method) (path : list string) (r : Route)
  : option (Handler * Params) :=
  if method_eqb m (route_method r) then
    match match_path (route_path r) path no_params with
    | Some p => Some (route_handler r, p)
    | None => None
    end
  else None.

(** The routes of a table that match a request. *)
Definition matching (table : list Route) (m : Method) (path : list string)
  : list (Handler * Params) :=
  flat_map (fun r => match match_route m path r with
                     | Some hp => [hp]
                     | None => []
                     end) table.

Section Dispatch.
Context {C : Collaborators}.

(** The handler method a route is bound to. *)
Definition handler_of (h : Handler) : Request -> M Server Response :=
  match h with
  | ThingsGet => CoapThingsHandler.get
  | ThingGet => CoapThingHandler.get
  | CoresGet => CoapCoresHandler.get
  | CoreGet => CoapCoreHandler.get
  | PropertiesGet => CoapPropertiesHandler.get
  | PropertyGet => CoapPropertyHandler.get
  | PropertyPut => CoapPropertyHandler.put
  | ActionsGet => CoapActionsHandler.get
  | ActionsPost => CoapActionsHandler.post
  | ActionGet => CoapActionHandler.get
  | ActionPost => CoapActionHandler.post
  | ActionIdGet => CoapActionIDHandler.get
  | ActionIdPut => CoapActionIDHandler.put
  | ActionIdDelete => CoapActionIDHandler.delete
  | EventsGet => CoapEventsHandler.get
  | EventGet => CoapEventHandler.get
  end.

(** The server on one request: the first matching route of its table
    handles it; [None] when no route matches. *)
Definition serve (m : Method) (path : list string) (host : option string)
    (payload : string) : M Server (option Response) :=
  table <- gets (fun s => Routes.of_things (things s)) ;;
  match matching table m path with
  | (h, p) :: _ =>
      response <- handler_of h (mkRequest p host payload) ;;
      ret (Some response)
  | [] => ret None
  end.

End Dispatch.

(** ** Sample collaborators and Things, for concrete runs *)

Module Sample.

(** The [type] keyword of JSON Schema. *)
Definition type_matches (ty : string) (data : json) : bool :=
  match data with
  | JNull => String.eqb ty "null"
  | JBool _ => String.eqb ty "boolean"
  | JNum _ => String.eqb ty "integer" || String.eqb ty "number"
  | JStr _ => String.eqb ty "string"
  | JArr _ => String.eqb ty "array"
  | JObj _ => String.eqb ty "object"
  end.

(** A validator that checks the [type] keyword of the schema and nothing
    else. *)
Definition validate (schema data : json) : bool :=
  match schema with
  | JObj o => match get o "type" with
              | Some (JStr ty) => type_matches ty data
              | _ => true
              end
  | _ => true
  end.

(** A property accepts a value of its declared [type] unless it is
    [readOnly]. *)
Definition satisfies (m : Metadata) (data : json) : bool :=
  match get (md_rest m) "readOnly" with
  | Some (JBool true) => false
  | _ => validate (JObj (md_rest m)) data
  end.

(** The payloads of the runs below. *)
Definition text_on_false : string := "{" ++ dq ++ "on" ++ dq ++ ":false}".
Definition text_on_one : string := "{" ++ dq ++ "on" ++ dq ++ ":1}".
Definition text_brightness : string :=
  "{" ++ dq ++ "brightness" ++ dq ++ ":10}".
Definition text_timer : string :=
  "{" ++ dq ++ "SwitchOffTimer" ++ dq ++ ":{" ++ dq ++ "input" ++ dq
      ++ ":{" ++ dq ++ "duration" ++ dq ++ ":5}}}".

Definition body_timer : json :=
  JObj [("SwitchOffTimer", JObj [("input", JObj [("duration", JNum 5)])])].

(** A parser that knows these payloads; any other text counts as
    malformed. *)
Definition parse (text : string) : option json :=
  if String.eqb text "null" then Some JNull
  else if String.eqb text text_on_false
  then Some (JObj [("on", JBool false)])
  else if String.eqb text text_on_one then Some (JObj [("on", JNum 1)])
  else if String.eqb text text_brightness
  then Some (JObj [("brightness", JNum 10)])
  else if String.eqb text text_timer then Some body_timer
  else None.

(** Text of a JSON value, without escapes. *)
Fixpoint stringify (j : json) : string :=
  match j with
  | JNull => "null"
  | JBool true => "true"
  | JBool false => "false"
  | JNum z => match z with
              | Zneg p => "-" ++ nat_text (Pos.to_nat p)
              | _ => nat_text (Z.to_nat z)
              end
  | JStr s => dq ++ s ++ dq
  | JArr l => "[" ++ join "," (map stringify l) ++ "]"
  | JObj o =>
      "{" ++ join ","
               (map (fun kv => match kv with
                               | (k, v) =>
                                   (dq ++ k ++ dq ++ ":" ++ stringify v)%string
                               end) o)
          ++ "}"
  end.

Definition id_json (a : ActionId) : json :=
  match a with
  | IdNum n => JNum n
  | IdStr s => JStr s
  end.

Definition id_text (a : ActionId) : string :=
  match a with
  | IdNum n => stringify (JNum n)
  | IdStr s => s
  end.

#[export] Instance collaborators : Collaborators := {
  JSON_parse := parse;
  JSON_stringify := stringify;
  ajv_validate := validate;
  satisfies := Sample.satisfies;
  (* socket 0 is broken *)
  send_ok := fun ws _ => negb (Nat.eqb ws 0);
  asPropertyDescription := fun p =>
    with_links (p_metadata p)
      [mkLink "property" (p_hrefPrefix p ++ "/properties/" ++ p_name p) None];
  asActionDescription := fun a =>
    [(a_name a,
      JObj [("href", JStr (a_hrefPrefix a ++ "/actions/" ++ a_name a ++ "/"
                             ++ id_text (a_id a)));
            ("status", JStr (a_status a));
            ("input", a_input a)])];
  asEventDescription := fun e =>
    JObj [(e_name e, JObj [("data", e_data e); ("timestamp", JStr (e_time e))])]
}.

(** The final state of a run. *)
Definition built {S A : Type} (m : M S A) (s : S) : S := state_of (m s).

(** The action class of the test fixtures: name [test], identifiers
    [count++]. *)
Definition TestTimerAction : ActionClass :=
  mkActionClass "test" (fun n => IdNum (Z.of_nat n)).

(** An action class with token identifiers. *)
Definition FadeAction : ActionClass :=
  mkActionClass "fade" (fun n => IdStr ("token-" ++ nat_text n)).

(** The Lamp of the test fixtures. *)
Definition Lamp : Thing.t :=
  Thing.this
    (built
       (Thing.addProperty
          (mkProperty "on" (JBool true)
             (mkMetadata (Some (TScalar "OnOffProperty")) (Some "On/Off")
                None None
                [("type", JStr "boolean");
                 ("description", JStr "Whether the lamps is turned on")])
             "") ;;
        Thing.addAvailableAction "SwitchOffTimer"
          (Some (mkMetadata None (Some "Switch Off Timer")
                   (Some (JObj [("type", JStr "object");
                                ("required", JArr [JStr "duration"])]))
                   None
                   [("description",
                     JStr "Switch off lamp after given duration")]))
          TestTimerAction ;;
        Thing.addAvailableEvent "overheated"
          (Some (mkMetadata None None None None
                   [("description",
                     JStr "The lamp has exceeded its safe operating temperature");
                    ("type", JStr "number")])))
       (Thing.mkWorld
          (Thing.constructor "Lamp" "Lamp" (TList ["OnOffSwitch"]) (Some "Lamp"))
          0 [])).

(** The humidity sensor of the test fixtures: one read-only property. *)
Definition HumiditySensor : Thing.t :=
  Thing.this
    (built
       (Thing.addProperty
          (mkProperty "level" (JNum 43)
             (mkMetadata (Some (TScalar "LevelProperty")) (Some "Humidity")
                None None
                [("type", JStr "number"); ("readOnly", JBool true)])
             ""))
       (Thing.mkWorld
          (Thing.constructor "HumiditySensor" "HumiditySensor"
             (TList ["MultiLevelSensor"]) (Some "HumiditySensor"))
          0 [])).

(** A dimmer whose one action takes a bare integer as its input. *)
Definition Dimmer : Thing.t :=
  Thing.this
    (built
       (Thing.addAvailableAction "fade"
          (Some (mkMetadata None (Some "Fade")
                   (Some (JObj [("type", JStr "integer")])) None []))
          FadeAction)
       (Thing.mkWorld
          (Thing.constructor "Dimmer" "Dimmer" (TScalar "Light") None) 0 [])).

(** A relay board: a master switch and a channel named by its number,
    registered in that order. *)
Definition RelayBoard : Thing.t :=
  Thing.this
    (built
       (Thing.addProperty
          (mkProperty "power" (JBool true)
             (mkMetadata (Some (TScalar "OnOffProperty")) (Some "Power")
                None None [("type", JStr "boolean")])
             "") ;;
        Thing.addProperty
          (mkProperty "1" (JBool false)
             (mkMetadata (Some (TList ["OnOffProperty"; "Relay"]))
                (Some "Channel 1") None None [("type", JStr "boolean")])
             ""))
       (Thing.mkWorld
          (Thing.constructor "RelayBoard" "Relay board"
             (TList ["OnOffSwitch"]) None)
          0 [])).

(** A Thing that reports on the objects of a script engine; its
    property, its action and its event are named after the method they
    report on. *)
Definition Mirror : Thing.t :=
  Thing.this
    (built
       (Thing.addProperty
          (mkProperty "hasOwnProperty" (JBool true)
             (mkMetadata (Some (TScalar "BooleanProperty"))
                (Some "Has own property") None None
                [("type", JStr "boolean")])
             "") ;;
        Thing.addAvailableAction "hasOwnProperty" None FadeAction ;;
        Thing.addAvailableEvent "hasOwnProperty" None)
       (Thing.mkWorld
          (Thing.constructor "Mirror" "Mirror" (TScalar "Thing") None) 0 [])).

Definition world (x : Thing.t) : Thing.World := Thing.mkWorld x 0 [].

Definition single (x : Thing.t) : Server := mkServer (SingleThing x "sample") 0 [].

Definition multiple (l : list Thing.t) : Server :=
  mkServer (MultipleThings l "sample") 0 [].

(** A request on a single-thing route. *)
Definition request (propertyName actionName actionId eventName payload : string)
  : Request :=
  mkRequest (mkParams None propertyName actionName actionId eventName)
            (Some "localhost") payload.

End Sample.

(** * Vocabulary of the statements *)

Section NotifyFactsTerms.
Context {C : Collaborators}.
Import Thing.

(** The deliveries of one fan-out: the subscribers whose socket accepts
    the message, in iteration order. *)
Definition deliveries (subs : list Subscriber) (message : string)
  : list Effect :=
  map (fun ws => Sent ws message)
      (filter (fun ws => send_ok ws message) subs).

(** The message of an event notification. *)
Definition event_message (event : Event) : string :=
  JSON_stringify
    (JObj [("messageType", JStr "event"); ("data", asEventDescription event)]).

End NotifyFactsTerms.

(** The world a method of the Thing at [thing] starts in. *)
Definition world_of (s : Server) (x : Thing.t) : Thing.World :=
  Thing.mkWorld x (srv_counter s) (srv_trace s).

(** The server after a method left the Thing at [thing] in world [w]. *)
Definition server_with (s : Server) (thing : Ref) (w : Thing.World) : Server :=
  mkServer (put_thing (things s) thing (Thing.this w))
           (Thing.counter w) (Thing.trace w).

Section ActionFactsTerms.
Context {C : Collaborators}.
Import Thing.

(** Every registered action name has its list of instances. *)
Definition catalog_ok (x : Thing.t) : Prop :=
  forall name,
    owns (availableActions x) name = true ->
    owns (actions x) name = true.

(** Whether the catalog of [x] has [name] and the declared input schema,
    if any, validates [input]. *)
Definition accepts (x : Thing.t) (name : string) (input : json) : bool :=
  match get (availableActions x) name with
  | Some entry =>
      match md_input (aa_metadata entry) with
      | Some schema => ajv_validate schema input
      | None => true
      end
  | None => false
  end.

(** Whether the catalog of [x] can be asked about [name]: neither the
    catalog nor the metadata of the entry of [name], if there is one, has
    a member named [hasOwnProperty]. *)
Definition answers (x : Thing.t) (name : string) : bool :=
  negb (shadowed (availableActions x))
  && match get (availableActions x) name with
     | Some entry => negb (md_shadowed (aa_metadata entry))
     | None => true
     end.

End ActionFactsTerms.

Section EncoderTerms.
Context {C : Collaborators}.
Import helpers.

(** [<href>;rt="<rel>";ct=50] *)
Definition link_entry (link : Link) : string :=
  "<" ++ href link ++ ">;rt=" ++ dq ++ rel link ++ dq ++ ";ct=50".

(** [<href>;rt="<types>";ct=50;title="<title>"] *)
Definition property_entry (resource : Metadata) (link : Link) : string :=
  "<" ++ href link ++ ">;rt=" ++ dq ++ types_of resource ++ dq
      ++ ";ct=50;title=" ++ dq ++ text_of (md_title resource) ++ dq.

(** The entries of the resources [rs], taken in the order of the list:
    for each resource that has [links], one entry per link. *)
Definition resource_entries (entry : Metadata -> Link -> string)
    (rs : list (string * Metadata)) : list string :=
  flat_map (fun r => match md_links (snd r) with
                     | Some links => map (entry (snd r)) links
                     | None => []
                     end) rs.

Definition href_entries (d : Description) : list string :=
  match d_href d with
  | Some h => [("<" ++ h ++ ">")%string]
  | None => []
  end.

Definition links_entries (d : Description) : list string :=
  match d_links d with
  | Some links => map link_entry links
  | None => []
  end.

(** The resources of an optional group, in the order [order] gives. *)
Definition group_in (order : obj Metadata -> list (string * Metadata))
    (group : option (obj Metadata)) : list (string * Metadata) :=
  match group with
  | Some g => order g
  | None => []
  end.

(** The encoding with the resources of each group in the order [order]. *)
Definition encoding (order : obj Metadata -> list (string * Metadata))
    (d : Description) : string :=
  join ","
    (href_entries d ++ links_entries d
     ++ resource_entries property_entry (group_in order (d_properties d))
     ++ resource_entries (fun _ => link_entry) (group_in order (d_actions d))
     ++ resource_entries (fun _ => link_entry) (group_in order (d_events d))).

(** The encoding as the specification words it: resources in declared
    order. *)
Definition declared_encoding (d : Description) : string :=
  encoding (fun g => g) d.


(** Whether a resource of one of the three groups has a member named
    [hasOwnProperty]. *)
Definition hides_method (d : Description) : bool :=
  existsb (fun r => md_shadowed (snd r))
    (group_in (@own_entries Metadata) (d_properties d)
     ++ group_in (@own_entries Metadata) (d_actions d)
     ++ group_in (@own_entries Metadata) (d_events d)).

End EncoderTerms.

Section RenderingTerms.
Context {C : Collaborators}.
Import Thing.

(** A loop whose body returns a value computed from the Thing and
    rewrites the Thing, without other effects. *)
Fixpoint run_loop {A : Type} (f : A -> string -> Thing.t -> A)
    (g : string -> Thing.t -> Thing.t) (names : list string) (acc : A)
    (x : Thing.t) : A * Thing.t :=
  match names with
  | [] => (acc, x)
  | name :: r => run_loop f g r (f acc name x) (g name x)
  end.

(** The two loops of [asThingDescription], as pure steps. *)
Definition action_links_value (prefix : string) (acc : obj Metadata)
    (name : string) (x : Thing.t) : obj Metadata :=
  match get (availableActions x) name with
  | None => acc
  | Some entry =>
      put acc name
        (with_links (aa_metadata entry)
           [mkLink "action" (prefix ++ "/actions/" ++ name) None])
  end.

Definition action_links_state (prefix : string) (name : string) (x : Thing.t)
  : Thing.t :=
  match get (availableActions x) name with
  | None => x
  | Some entry =>
      set_availableActions x
        (set (availableActions x) name
           (mkAvailableAction
              (with_links (aa_metadata entry)
                 [mkLink "action" (prefix ++ "/actions/" ++ name) None])
              (aa_class entry)))
  end.

Definition event_links_value (prefix : string) (acc : obj Metadata)
    (name : string) (x : Thing.t) : obj Metadata :=
  match get (availableEvents x) name with
  | None => acc
  | Some entry =>
      put acc name
        (with_links (ae_metadata entry)
           [mkLink "event" (prefix ++ "/events/" ++ name) None])
  end.

Definition event_links_state (prefix : string) (name : string) (x : Thing.t)
  : Thing.t :=
  match get (availableEvents x) name with
  | None => x
  | Some entry =>
      set_availableEvents x
        (set (availableEvents x) name
           (mkAvailableEvent
              (with_links (ae_metadata entry)
                 [mkLink "event" (prefix ++ "/events/" ++ name) None])
              (ae_subscribers entry)))
  end.

(** The Thing after the first loop, and after both. *)
Definition after_actions (x : Thing.t) : Thing.t :=
  snd (run_loop (action_links_value (hrefPrefix x))
         (action_links_state (hrefPrefix x))
         (own_keys (availableActions x)) [] x).

Definition after_description (x : Thing.t) : Thing.t :=
  snd (run_loop (event_links_value (hrefPrefix x))
         (event_links_state (hrefPrefix x))
         (own_keys (availableEvents x)) [] (after_actions x)).

(** The description [asThingDescription] returns for [x]. *)
Definition description_of (x : Thing.t) : Description :=
  mkDescription (id x) (title x) (context x) (type x)
    (Some (getPropertyDescriptions x))
    (Some (fst (run_loop (action_links_value (hrefPrefix x))
                  (action_links_state (hrefPrefix x))
                  (own_keys (availableActions x)) [] x)))
    (Some (fst (run_loop (event_links_value (hrefPrefix x))
                  (event_links_state (hrefPrefix x))
                  (own_keys (availableEvents x)) [] (after_actions x))))
    (Some
       (let links :=
          [ mkLink "properties" (hrefPrefix x ++ "/properties") None;
            mkLink "actions" (hrefPrefix x ++ "/actions") None;
            mkLink "events" (hrefPrefix x ++ "/events") None ] in
        match uiHref x with
        | Some ui =>
            if negb (String.eqb ui "")
            then links ++ [mkLink "alternate" ui (Some "text/html")]
            else links
        | None => links
        end))
    (if negb (String.eqb (description x) "")
     then Some (description x) else None)
    None None None None.

(** What the two loops leave untouched. *)
Definition same_but_catalogs (x y : Thing.t) : Prop :=
  id y = id x /\ title y = title x /\ context y = context x
  /\ type y = type x /\ description y = description x
  /\ properties y = properties x /\ actions y = actions x
  /\ events y = events x /\ subscribers y = subscribers x
  /\ hrefPrefix y = hrefPrefix x /\ uiHref y = uiHref x.

(** The description [helpers.getDescription] returns for [x]. *)
Definition rendered (req : Request) (x : Thing.t) : Description :=
  helpers.with_security
    (helpers.with_base
       (if negb (String.eqb (getHref x) "/")
        then helpers.with_href (description_of x) (getHref x)
        else description_of x)
       (helpers.protocol ++ "://" ++ text_of (host req) ++ getHref x))
    [("nosec_sc", [("scheme", "nosec")])] "nosec_sc".

End RenderingTerms.

Section ActionsResourceTerms.
Context {C : Collaborators}.
Import Thing.

(** The instance [performAction] builds for a catalog entry. *)
Definition instance_of (entry : AvailableAction) (input : json) (w : World)
  : Action :=
  Action_setHrefPrefix
    (Action_new (cls_id (aa_class entry) (counter w))
       (cls_name (aa_class entry)) (or_else input JNull))
    (hrefPrefix (this w)).

(** The text of an action status message. *)
Definition action_message (a : Action) : string :=
  JSON_stringify
    (JObj [("messageType", JStr "actionStatus");
           ("data", JObj (asActionDescription a))]).

End ActionsResourceTerms.

Section InvariantTerms.
Context {C : Collaborators}.
Import Thing.

(** A method call on a Thing, its result dropped. *)
Inductive Call : Type :=
| CallAddProperty (property : Property)
| CallRemoveProperty (property : Property)
| CallSetProperty (name : string) (value : json)
| CallAddEvent (event : Event)
| CallAddAvailableEvent (name : string) (metadata : option Metadata)
| CallPerformAction (name : string) (input : json)
| CallRemoveAction (name : string) (a : ActionId)
| CallAddAvailableAction (name : string) (metadata : option Metadata)
    (cls : ActionClass)
| CallAddSubscriber (ws : Subscriber)
| CallRemoveSubscriber (ws : Subscriber)
| CallAddEventSubscriber (name : string) (ws : Subscriber)
| CallRemoveEventSubscriber (name : string) (ws : Subscriber)
| CallSetHrefPrefix (prefix : string)
| CallSetUiHref (href : option string)
| CallAsThingDescription.

Definition invoke (c : Call) : M World unit :=
  match c with
  | CallAddProperty p => addProperty p
  | CallRemoveProperty p => removeProperty p
  | CallSetProperty name value => setProperty name value
  | CallAddEvent e => addEvent e
  | CallAddAvailableEvent name metadata => addAvailableEvent name metadata
  | CallPerformAction name input => performAction name input ;; ret tt
  | CallRemoveAction name a => removeAction name a ;; ret tt
  | CallAddAvailableAction name metadata cls =>
      addAvailableAction name metadata cls
  | CallAddSubscriber ws => addSubscriber ws
  | CallRemoveSubscriber ws => removeSubscriber ws
  | CallAddEventSubscriber name ws => addEventSubscriber name ws
  | CallRemoveEventSubscriber name ws => removeEventSubscriber name ws
  | CallSetHrefPrefix prefix => setHrefPrefix prefix
  | CallSetUiHref h => setUiHref h
  | CallAsThingDescription => asThingDescription ;; ret tt
  end.

(** A sequence of calls; a call that throws leaves the state it reached
    and the next call goes on from there.  The sequence is followed up to
    the first call that leaves the model. *)
Fixpoint invoke_all (cs : list Call) (w : World) : World :=
  match cs with
  | [] => w
  | c :: r =>
      match invoke c w with
      | Ret _ w' | Throw _ w' => invoke_all r w'
      | Outside w' => w'
      end
  end.

(** The catalog and the in-flight lists have the same names, in the same
    order. *)
Definition same_names (x : Thing.t) : Prop :=
  map fst (availableActions x) = map fst (actions x).

End InvariantTerms.

Section DeclaredOrderTerms.
Context {C : Collaborators}.
Import helpers.

(** A group whose names are distinct and none of which is an array
    index. *)
Definition plain_names (group : option (obj Metadata)) : Prop :=
  match group with
  | Some g =>
      NoDup (map fst g)
      /\ forallb (fun k => negb (is_index k)) (map fst g) = true
  | None => True
  end.

End DeclaredOrderTerms.

Section EntryLoopTerms.
Variables (E V : Type) (upd : string -> E -> E) (val : string -> E -> V).

(** The object after the entries named in [names] were rewritten in
    turn. *)
Fixpoint rewrite_entries (names : list string) (o : obj E) : obj E :=
  match names with
  | [] => o
  | n :: r =>
      rewrite_entries r
        (match get o n with
         | Some e => set o n (upd n e)
         | None => o
         end)
  end.

(** The values collected on the way. *)
Fixpoint collect (names : list string) (acc : obj V) (o : obj E) : obj V :=
  match names with
  | [] => acc
  | n :: r =>
      match get o n with
      | Some e => collect r (put acc n (val n e)) (set o n (upd n e))
      | None => collect r acc o
      end
  end.

End EntryLoopTerms.

Section RenderingTwiceTerms.
Context {C : Collaborators}.
Import Thing.

(** A catalog entry after [asThingDescription] wrote [links] into its
    metadata. *)
Definition linked_action (prefix name : string) (e : AvailableAction)
  : AvailableAction :=
  mkAvailableAction
    (with_links (aa_metadata e)
       [mkLink "action" (prefix ++ "/actions/" ++ name) None])
    (aa_class e).

Definition linked_event (prefix name : string) (e : AvailableEvent)
  : AvailableEvent :=
  mkAvailableEvent
    (with_links (ae_metadata e)
       [mkLink "event" (prefix ++ "/events/" ++ name) None])
    (ae_subscribers e).

End RenderingTwiceTerms.

Section SubscriberFactsTerms.
Context {C : Collaborators}.
Import Thing.

(** An event entry without the subscriber. *)
Definition without (ws : Subscriber) (e : AvailableEvent) : AvailableEvent :=
  if set_has Nat.eqb (ae_subscribers e) ws
  then mkAvailableEvent (ae_metadata e)
         (set_delete Nat.eqb (ae_subscribers e) ws)
  else e.

(** The step of [removeEventSubscriber] on the Thing. *)
Definition drop_subscriber (ws : Subscriber) (name : string) (x : Thing.t)
  : Thing.t :=
  match get (availableEvents x) name with
  | Some entry =>
      if set_has Nat.eqb (ae_subscribers entry) ws then
        set_availableEvents x
          (set (availableEvents x) name
             (mkAvailableEvent (ae_metadata entry)
                (set_delete Nat.eqb (ae_subscribers entry) ws)))
      else x
  | None => x
  end.

(** The step of [addEventSubscriber] on the Thing. *)
Definition take_subscriber (ws : Subscriber) (name : string) (x : Thing.t)
  : Thing.t :=
  match get (availableEvents x) name with
  | Some entry =>
      set_availableEvents x
        (set (availableEvents x) name
           (mkAvailableEvent (ae_metadata entry)
              (set_add Nat.eqb (ae_subscribers entry) ws)))
  | None => x
  end.

(** The Thing after the first step of [removeSubscriber]. *)
Definition unsubscribed (ws : Subscriber) (x : Thing.t) : Thing.t :=
  if set_has Nat.eqb (subscribers x) ws
  then set_subscribers x (set_delete Nat.eqb (subscribers x) ws)
  else x.

End SubscriberFactsTerms.

Section SubscriberSetsTerms.
Context {C : Collaborators}.
Import Thing.

(** The subscriber sets of a Thing hold each socket once. *)
Definition sets_ok (x : Thing.t) : Prop :=
  NoDup (subscribers x)
  /\ forall name e, get (availableEvents x) name = Some e ->
                    NoDup (ae_subscribers e).

End SubscriberSetsTerms.

Section ServerPrefixesTerms.
Import Thing CoapWebThingServer.

(** A Thing after [setHrefPrefix]. *)
Definition prefixed (prefix : string) (x : Thing.t) : Thing.t :=
  this (state_of (setHrefPrefix prefix (mkWorld x 0 []))).

(** The Things of a registry with their positions as prefixes, counting
    from [k]. *)
Fixpoint prefixed_from (base : string) (k : nat) (l : list Thing.t)
  : list Thing.t :=
  match l with
  | [] => []
  | x :: r => prefixed (base ++ "/" ++ nat_text k) x :: prefixed_from base (S k) r
  end.

End ServerPrefixesTerms.

Section RunsTerms.
#[local] Existing Instance Sample.collaborators.

(** The Lamp with one timer in flight; its identifier is the number 0. *)
Definition Lamp_timing : Thing.t :=
  Thing.this
    (state_of
       (Thing.performAction "SwitchOffTimer" (JObj [("duration", JNum 5)])
          (Sample.world Sample.Lamp))).

(** The Dimmer with one fade in flight; its identifier is the token
    [token-0]. *)
Definition Dimmer_fading : Thing.t :=
  Thing.this
    (state_of
       (Thing.performAction "fade" (JNum 5) (Sample.world Sample.Dimmer))).

(** A description with two properties, two actions and two events, none
    of them declared in alphabetical order. *)
Definition paired_description : Description :=
  mkDescription "Lamp" "Lamp" "" []
    (Some [("on",
            mkMetadata (Some (TScalar "OnOffProperty")) (Some "On/Off") None
              (Some [mkLink "property" "/properties/on" None]) []);
           ("brightness",
            mkMetadata (Some (TScalar "BrightnessProperty"))
              (Some "Brightness") None
              (Some [mkLink "property" "/properties/brightness" None]) [])])
    (Some [("toggle",
            mkMetadata None None None
              (Some [mkLink "action" "/actions/toggle" None]) []);
           ("fade",
            mkMetadata None None None
              (Some [mkLink "action" "/actions/fade" None]) [])])
    (Some [("overheated",
            mkMetadata None None None
              (Some [mkLink "event" "/events/overheated" None]) []);
           ("cooled",
            mkMetadata None None None
              (Some [mkLink "event" "/events/cooled" None]) [])])
    None None None None None None.

End RunsTerms.

(** * Properties *)


(** ** Objects *)

Section ObjFacts.
Variable A : Type.
Implicit Types (o : obj A) (k : string) (v : A).

Lemma owns_get o k :
  owns o k = match get o k with Some _ => true | None => false end.
Proof.
  induction o as [|[k' v'] r IH]; simpl; [reflexivity|].
  destruct (String.eqb k k'); [reflexivity | exact IH].
Qed.

Lemma get_set_same o k v : get (set o k v) k = Some v.
Proof.
  induction o as [|[k' v'] r IH]; simpl.
  - now rewrite String.eqb_refl.
  - destruct (String.eqb k k') eqn:E; simpl.
    + now rewrite String.eqb_refl.
    + now rewrite E.
Qed.

Lemma get_set_other o k k' v : k' <> k -> get (set o k v) k' = get o k'.
Proof.
  intros N. induction o as [|[k0 v0] r IH]; simpl.
  - destruct (String.eqb k' k) eqn:E; [|reflexivity].
    apply String.eqb_eq in E. contradiction.
  - destruct (String.eqb k k0) eqn:E; simpl.
    + apply String.eqb_eq in E. subst k0.
      destruct (String.eqb k' k) eqn:E'; [|reflexivity].
      apply String.eqb_eq in E'. contradiction.
    + destruct (String.eqb k' k0); [reflexivity | exact IH].
Qed.

Lemma get_set o k k' v :
  get (set o k v) k' = if String.eqb k' k then Some v else get o k'.
Proof.
  destruct (String.eqb k' k) eqn:E.
  - apply String.eqb_eq in E. subst. apply get_set_same.
  - apply get_set_other. intros ->. now rewrite String.eqb_refl in E.
Qed.

Lemma owns_set o k k' v :
  owns (set o k v) k' = (String.eqb k' k || owns o k').
Proof.
  rewrite !owns_get, get_set.
  destruct (String.eqb k' k); reflexivity.
Qed.

Lemma get_In o k : get o k <> None <-> In k (map fst o).
Proof.
  induction o as [|[k' v'] r IH]; simpl.
  - split; [congruence | tauto].
  - destruct (String.eqb k k') eqn:E.
    + apply String.eqb_eq in E. subst. split; [auto | congruence].
    + rewrite IH. split; [auto|].
      intros [H|H]; [|exact H]. subst. now rewrite String.eqb_refl in E.
Qed.

(** Writing a key that is already there keeps the keys as they are. *)
Lemma keys_set_present o k v :
  owns o k = true -> map fst (set o k v) = map fst o.
Proof.
  induction o as [|[k' v'] r IH]; simpl; [discriminate|].
  destruct (String.eqb k k') eqn:E; simpl.
  - apply String.eqb_eq in E. now subst.
  - intros H. now rewrite IH.
Qed.

(** Writing a new key puts it last. *)
Lemma keys_set_absent o k v :
  owns o k = false -> map fst (set o k v) = map fst o ++ [k].
Proof.
  induction o as [|[k' v'] r IH]; simpl; [reflexivity|].
  destruct (String.eqb k k') eqn:E; simpl; [discriminate|].
  intros H. now rewrite IH.
Qed.

Lemma hasOwnProperty_plain o k :
  shadowed o = false -> hasOwnProperty o k = Ok (owns o k).
Proof. unfold hasOwnProperty. now intros ->. Qed.

Lemma hasOwnProperty_shadowed o k :
  shadowed o = true -> hasOwnProperty o k = Err TypeError.
Proof. unfold hasOwnProperty. now intros ->. Qed.

Lemma hasOwnProperty_Ok o k b :
  hasOwnProperty o k = Ok b -> shadowed o = false /\ owns o k = b.
Proof.
  unfold hasOwnProperty. destruct (shadowed o); [discriminate|].
  now intros [= ->].
Qed.

Lemma put_plain o k v : k <> "__proto__" -> put o k v = set o k v.
Proof.
  intros N. unfold put, replaces_prototype.
  destruct (String.eqb k "__proto__") eqn:E; [|reflexivity].
  apply String.eqb_eq in E. contradiction.
Qed.

Lemma put_proto o v : owns o "__proto__" = false -> put o "__proto__" v = o.
Proof. intros H. unfold put, replaces_prototype. now rewrite H. Qed.

(** An assignment never brings the member [__proto__] about. *)
Lemma owns_put_proto o k v :
  owns o "__proto__" = false -> owns (put o k v) "__proto__" = false.
Proof.
  intros H. unfold put, replaces_prototype.
  destruct (String.eqb k "__proto__") eqn:E; simpl.
  - apply String.eqb_eq in E. subst k. now rewrite H.
  - rewrite owns_set, H, String.eqb_sym, E. reflexivity.
Qed.

End ObjFacts.

(** ** Enumeration order *)

Lemma insert_index_perm x l : Permutation (insert_index x l) (x :: l).
Proof.
  induction l as [|y r IH]; simpl; [reflexivity|].
  destruct (fst x <? fst y)%N; [reflexivity|].
  rewrite IH. apply perm_swap.
Qed.

Lemma sort_index_perm l : Permutation (sort_index l) l.
Proof.
  induction l as [|x r IH]; simpl; [reflexivity|].
  rewrite insert_index_perm. now constructor.
Qed.

Lemma index_keys_spec ks :
  map snd (index_keys ks) = filter is_index ks.
Proof.
  induction ks as [|k r IH]; simpl; [reflexivity|].
  unfold is_index at 1. destruct (array_index k); simpl; now rewrite IH.
Qed.

Lemma filter_split_perm (B : Type) (f : B -> bool) (l : list B) :
  Permutation (filter f l ++ filter (fun x => negb (f x)) l) l.
Proof.
  induction l as [|x r IH]; simpl; [reflexivity|].
  destruct (f x); simpl.
  - now constructor.
  - rewrite <- Permutation_middle. now constructor.
Qed.

(** Enumeration only reorders. *)
Lemma enum_order_perm ks : Permutation (enum_order ks) ks.
Proof.
  unfold enum_order.
  rewrite (Permutation_map snd (sort_index_perm (index_keys ks))).
  rewrite index_keys_spec. apply filter_split_perm.
Qed.

Lemma own_keys_In (A : Type) (o : obj A) k :
  In k (own_keys o) <-> owns o k = true.
Proof.
  unfold own_keys. rewrite owns_get.
  split.
  - intros H. apply (Permutation_in _ (enum_order_perm _)) in H.
    apply get_In in H. destruct (get o k); congruence.
  - intros H. apply (Permutation_in _ (Permutation_sym (enum_order_perm _))).
    apply get_In. destruct (get o k); congruence.
Qed.

(** Without array-index keys, enumeration is insertion order. *)
Lemma enum_order_plain ks :
  forallb (fun k => negb (is_index k)) ks = true -> enum_order ks = ks.
Proof.
  intros H. unfold enum_order.
  assert (E : index_keys ks = []).
  { induction ks as [|k r IH]; simpl in *; [reflexivity|].
    apply andb_prop in H. destruct H as [H1 H2].
    unfold is_index in H1. destruct (array_index k); [discriminate|].
    now apply IH. }
  rewrite E. simpl.
  induction ks as [|k r IH]; simpl in *; [reflexivity|].
  apply andb_prop in H. destruct H as [H1 H2].
  rewrite H1. f_equal. apply IH; [exact H2|].
  destruct (array_index k) eqn:Ek; [|exact E].
  unfold is_index in H1. now rewrite Ek in H1.
Qed.

(** ** Notification *)

Section NotifyFacts.
Context {C : Collaborators}.
Import Thing.

(** A fan-out loop never throws, leaves the Thing alone and adds the
    deliveries to the trace. *)
Lemma fan_out_run subs message w :
  for_of subs
    (fun subscriber => try_catch (send subscriber message) (fun _ => ret tt)) w
  = Ret tt (mkWorld (this w) (counter w) (trace w ++ deliveries subs message)).
Proof.
  revert w. induction subs as [|ws r IH]; intros w; simpl.
  - unfold ret, deliveries. simpl. rewrite app_nil_r. now destruct w.
  - unfold bind, try_catch, send at 1.
    unfold deliveries. simpl.
    destruct (send_ok ws message) eqn:E; simpl.
    + unfold emit, modify. rewrite IH. simpl.
      unfold deliveries. now rewrite <- app_assoc.
    + unfold throw, ret. rewrite IH. reflexivity.
Qed.

Lemma propertyNotify_run property w :
  propertyNotify property w
  = Ret tt (mkWorld (this w) (counter w)
              (trace w ++
               deliveries (subscribers (this w))
                 (JSON_stringify
                    (JObj [("messageType", JStr "propertyStatus");
                           ("data", JObj [(p_name property,
                                           Property_getValue property)])])))).
Proof.
  unfold propertyNotify, bind, gets. apply fan_out_run.
Qed.

Lemma actionNotify_run action w :
  actionNotify action w
  = Ret tt (mkWorld (this w) (counter w)
              (trace w ++
               deliveries (subscribers (this w))
                 (JSON_stringify
                    (JObj [("messageType", JStr "actionStatus");
                           ("data", JObj (asActionDescription action))])))).
Proof.
  unfold actionNotify, bind, gets. apply fan_out_run.
Qed.

(** [eventNotify] throws when the catalog of events cannot be asked;
    otherwise it is a fan-out to the subscribers of the event's name. *)
Lemma eventNotify_run event w :
  eventNotify event w
  = if shadowed (availableEvents (this w)) then Throw TypeError w
    else
      Ret tt (mkWorld (this w) (counter w)
                (trace w ++
                 match get (availableEvents (this w)) (e_name event) with
                 | Some entry =>
                     deliveries (ae_subscribers entry) (event_message event)
                 | None => []
                 end)).
Proof.
  unfold eventNotify, bind, eval, gets, hasOwnProperty.
  destruct (shadowed (availableEvents (this w))); [reflexivity|].
  simpl. rewrite owns_get.
  destruct (get (availableEvents (this w)) (e_name event)) eqn:G; simpl;
    rewrite ?G.
  - apply fan_out_run.
  - unfold ret. rewrite app_nil_r. now destruct w.
Qed.

End NotifyFacts.

(** ** The registry and method calls *)

Lemma Things_getThing_resolves r idx i :
  Things_getThing r idx = Some i ->
  exists x, nth_error (getThings r) i = Some x.
Proof.
  destruct r as [x n | l n]; simpl.
  - intros [= <-]. now exists x.
  - destruct idx as [s|]; [|discriminate].
    destruct (array_index s) as [k|]; [|discriminate].
    destruct (N.to_nat k <? List.length l)%nat eqn:E; [|discriminate].
    intros [= <-]. apply Nat.ltb_lt in E.
    destruct (nth_error l (N.to_nat k)) eqn:E'; [eauto|].
    apply nth_error_None in E'. lia.
Qed.

Lemma replace_at_same l i x :
  nth_error l i = Some x -> replace_at l i x = l.
Proof.
  revert i. induction l as [|y r IH]; intros [|i]; simpl; try discriminate.
  - now intros [= ->].
  - intros H. now rewrite IH.
Qed.

Lemma put_thing_same r i x :
  nth_error (getThings r) i = Some x -> put_thing r i x = r.
Proof.
  destruct r as [y n | l n]; simpl.
  - destruct i; simpl; [now intros [= ->]|reflexivity].
  - intros H. now rewrite replace_at_same.
Qed.

Lemma nth_error_replace_at l i x y :
  nth_error l i = Some y -> nth_error (replace_at l i x) i = Some x.
Proof.
  revert i. induction l as [|z r IH]; intros [|i]; simpl; try discriminate;
    auto.
Qed.

Lemma nth_error_put_thing r i x y :
  nth_error (getThings r) i = Some y ->
  nth_error (getThings (put_thing r i x)) i = Some x.
Proof.
  destruct r as [z n | l n]; simpl.
  - destruct i as [|i]; simpl; [reflexivity|]. now destruct i.
  - apply nth_error_replace_at.
Qed.

Lemma server_eta s : mkServer (things s) (srv_counter s) (srv_trace s) = s.
Proof. now destruct s. Qed.

Lemma world_eta (w : Thing.World) :
  Thing.mkWorld (Thing.this w) (Thing.counter w) (Thing.trace w) = w.
Proof. now destruct w. Qed.

Lemma server_with_same s thing x :
  nth_error (getThings (things s)) thing = Some x ->
  server_with s thing (world_of s x) = s.
Proof.
  intros H. unfold server_with, world_of. simpl.
  rewrite (put_thing_same _ _ H). apply server_eta.
Qed.

Lemma call_run (A : Type) (m : M Thing.World A) s thing x :
  nth_error (getThings (things s)) thing = Some x ->
  call thing m s =
  match m (world_of s x) with
  | Ret a w => Ret a (server_with s thing w)
  | Throw e w => Throw e (server_with s thing w)
  | Outside w => Outside (server_with s thing w)
  end.
Proof. intros H. unfold call. now rewrite H. Qed.

Lemma read_run (A : Type) (f : Thing.t -> A) s thing x :
  nth_error (getThings (things s)) thing = Some x ->
  read thing f s = Ret (f x) s.
Proof.
  intros H. unfold read. rewrite (call_run _ _ _ H). unfold gets. simpl.
  now rewrite (server_with_same _ _ H).
Qed.

(** A reader that may throw leaves the server as it is either way. *)
Lemma read_result_run (A : Type) (f : Thing.t -> result A) s thing x :
  nth_error (getThings (things s)) thing = Some x ->
  read_result thing f s = lift (f x) s.
Proof.
  intros H. unfold read_result. rewrite (call_run _ _ _ H).
  unfold Thing.eval. simpl.
  destruct (f x); simpl; unfold ret, throw; f_equal;
    apply (server_with_same _ _ H).
Qed.

(** ** The Thing model *)

Section ThingFacts.
Context {C : Collaborators}.
Import Thing.

Lemma findProperty_get x name :
  findProperty x name
  = if shadowed (properties x) then Err TypeError
    else Ok (get (properties x) name).
Proof.
  unfold findProperty, hasOwnProperty.
  destruct (shadowed (properties x)); simpl; [reflexivity|].
  rewrite owns_get. now destruct (get (properties x) name).
Qed.

Lemma findProperty_Ok x name r :
  findProperty x name = Ok r ->
  shadowed (properties x) = false /\ get (properties x) name = r.
Proof.
  rewrite findProperty_get. destruct (shadowed (properties x));
    [discriminate|]. now intros [= ->].
Qed.

Lemma getProperty_get x name :
  getProperty x name
  = if shadowed (properties x) then Err TypeError
    else Ok (match get (properties x) name with
             | Some p => Property_getValue p
             | None => JNull
             end).
Proof.
  unfold getProperty. rewrite findProperty_get.
  destruct (shadowed (properties x)); simpl; [reflexivity|].
  now destruct (get (properties x) name).
Qed.

Lemma fold_put_get (A B : Type) (o : obj A) (f : A -> B) ks acc k :
  owns acc "__proto__" = false ->
  get (fold_left
         (fun acc name =>
            match get o name with
            | Some p => put acc name (f p)
            | None => acc
            end) ks acc) k
  = if existsb (String.eqb k) ks && negb (String.eqb k "__proto__")
    then match get o k with
         | Some p => Some (f p)
         | None => get acc k
         end
    else get acc k.
Proof.
  revert acc. induction ks as [|n r IH]; intros acc Hacc; simpl;
    [reflexivity|].
  rewrite IH by (destruct (get o n); [now apply owns_put_proto | exact Hacc]).
  destruct (String.eqb n "__proto__") eqn:En.
  - apply String.eqb_eq in En. subst n.
    assert (P : forall v, put acc "__proto__" v = acc)
      by (intros v; now apply put_proto).
    destruct (String.eqb k "__proto__") eqn:Ek; simpl.
    + rewrite !andb_false_r. now destruct (get o "__proto__"); rewrite ?P.
    + now destruct (get o "__proto__"); rewrite ?P.
  - assert (P : forall v, put acc n v = set acc n v).
    { intros v. apply put_plain. intros ->. discriminate En. }
    destruct (String.eqb k n) eqn:E; simpl.
    + apply String.eqb_eq in E. subst n. rewrite En. simpl.
      rewrite andb_true_r.
      destruct (get o k) eqn:G.
      * rewrite P, get_set_same.
        now destruct (existsb (String.eqb k) r).
      * now destruct (existsb (String.eqb k) r).
    + destruct (get o n) eqn:G; [|reflexivity].
      rewrite P, get_set, E. reflexivity.
Qed.

Lemma existsb_own_keys (A : Type) (o : obj A) k :
  existsb (String.eqb k) (own_keys o) = owns o k.
Proof.
  destruct (owns o k) eqn:E.
  - apply existsb_exists. exists k. split; [|apply String.eqb_refl].
    now apply own_keys_In.
  - destruct (existsb (String.eqb k) (own_keys o)) eqn:E'; [|reflexivity].
    apply existsb_exists in E'. destruct E' as [k' [H1 H2]].
    apply String.eqb_eq in H2. subst k'.
    apply own_keys_In in H1. congruence.
Qed.

(** [getProperties] holds, for every registered name, the current value;
    a member named [__proto__] is not copied. *)
Lemma getProperties_get x k :
  get (getProperties x) k
  = if String.eqb k "__proto__" then None
    else match get (properties x) k with
         | Some p => Some (Property_getValue p)
         | None => None
         end.
Proof.
  unfold getProperties. rewrite fold_put_get by reflexivity.
  rewrite existsb_own_keys, owns_get. simpl.
  destruct (String.eqb k "__proto__"); simpl.
  - now rewrite andb_false_r.
  - now destruct (get (properties x) k).
Qed.

End ThingFacts.

Section ThingClaims.
Context {C : Collaborators}.
Import Thing.

(** C10. On a Thing that has a property named [hasOwnProperty],
    [hasProperty], [findProperty] and [getProperty] throw for every
    name, registered or not: the lookup calls the property object instead
    of the method.  [getProperty] does not return null there. *)
Theorem getProperty_throws_when_shadowed (x : Thing.t) (name : string) :
  shadowed (properties x) = true ->
  hasProperty x name = Err TypeError
  /\ findProperty x name = Err TypeError
  /\ getProperty x name = Err TypeError.
Proof.
  intros H. unfold hasProperty, getProperty.
  rewrite findProperty_get, (hasOwnProperty_shadowed _ _ H), H. auto.
Qed.

(** X23.  [getProperties], and the lookup of one name on a Thing that
    has no property named [hasOwnProperty]: the keys of
    [getProperties] are the registered names ([__proto__] apart, which an
    assignment never stores), each with its current value; for a name that
    is not registered [getProperty] returns null, the same answer as for a
    registered property whose value is null. *)
Theorem getProperties_keys_and_unknown_names
    (x x' : Thing.t) (name : string) :
  (forall k, owns (getProperties x) k
             = owns (properties x) k && negb (String.eqb k "__proto__"))
  /\ (forall k, In k (own_keys (getProperties x)) <->
                In k (own_keys (properties x)) /\ k <> "__proto__")
  /\ (forall k p, k <> "__proto__" -> get (properties x) k = Some p ->
                  get (getProperties x) k = Some (Property_getValue p))
  /\ (shadowed (properties x) = false ->
      owns (properties x) name = false ->
      hasProperty x name = Ok false
      /\ findProperty x name = Ok None
      /\ getProperty x name = Ok JNull
      /\ forall p, findProperty x' name = Ok (Some p) ->
                   Property_getValue p = JNull ->
                   getProperty x' name = getProperty x name).
Proof.
  assert (K : forall k, owns (getProperties x) k
                        = owns (properties x) k
                          && negb (String.eqb k "__proto__")).
  { intros k. rewrite !owns_get, getProperties_get.
    destruct (String.eqb k "__proto__"); simpl.
    - now rewrite andb_false_r.
    - rewrite andb_true_r. now destruct (get (properties x) k). }
  split; [exact K|]. split; [|split].
  - intros k. rewrite !own_keys_In, K. split.
    + intros H. apply andb_prop in H. destruct H as [H1 H2]. split; [exact H1|].
      intros ->. discriminate H2.
    + intros [H1 H2]. rewrite H1. simpl.
      destruct (String.eqb k "__proto__") eqn:E; [|reflexivity].
      apply String.eqb_eq in E. contradiction.
  - intros k p Hk G. rewrite getProperties_get, G.
    destruct (String.eqb k "__proto__") eqn:E; [|reflexivity].
    apply String.eqb_eq in E. contradiction.
  - intros Hs Ho.
    assert (G : get (properties x) name = None).
    { rewrite owns_get in Ho. now destruct (get (properties x) name). }
    unfold hasProperty.
    rewrite (hasOwnProperty_plain _ _ Hs), Ho, findProperty_get,
      getProperty_get, Hs, G.
    repeat split. intros p Hp Hv.
    apply findProperty_Ok in Hp. destruct Hp as [Hs' G'].
    now rewrite getProperty_get, Hs', G', Hv.
Qed.

(** A run of the modelled [Property.setValue]. *)
Lemma Property_setValue_run key prop value w :
  Property_setValue key prop value w
  = if satisfies (p_metadata prop) value then
      Ret tt
        (mkWorld
           (set_properties (this w)
              (set (properties (this w)) key (Property_store prop value)))
           (counter w)
           ((trace w ++ [Callback (p_name prop) value]) ++
            deliveries (subscribers (this w))
              (JSON_stringify
                 (JObj [("messageType", JStr "propertyStatus");
                        ("data", JObj [(p_name prop, value)])]))))
    else Throw PropertyError w.
Proof.
  unfold Property_setValue.
  destruct (satisfies (p_metadata prop) value); [|reflexivity].
  unfold bind, update, emit, modify. now rewrite propertyNotify_run.
Qed.

Lemma setProperty_run name v w prop :
  findProperty (this w) name = Ok (Some prop) ->
  setProperty name v w = Property_setValue name prop v w.
Proof.
  intros H. unfold setProperty, bind, eval. now rewrite H.
Qed.

(** Storing under a registered name keeps the registered names. *)
Lemma shadowed_set_present (A : Type) (o : obj A) k v :
  owns o k = true -> shadowed (set o k v) = shadowed o.
Proof.
  intros H. unfold shadowed. rewrite owns_set.
  destruct (String.eqb "hasOwnProperty" k) eqn:E; [|reflexivity].
  apply String.eqb_eq in E. subst k. now rewrite H.
Qed.



End ThingClaims.

(** ** Actions *)

Section ActionFacts.
Context {C : Collaborators}.
Import Thing.

Lemma find_no_match l actionId :
  (forall b, In b l -> id_eqb (a_id b) actionId = false) ->
  find (fun action => id_eqb (a_id action) actionId) l = None.
Proof.
  induction l as [|b r IH]; simpl; [reflexivity|].
  intros H. rewrite (H b) by now left. apply IH. auto.
Qed.

Lemma find_first_match before a after actionId :
  (forall b, In b before -> id_eqb (a_id b) actionId = false) ->
  id_eqb (a_id a) actionId = true ->
  find (fun action => id_eqb (a_id action) actionId) (before ++ a :: after)
  = Some a
  /\ splice_first (before ++ a :: after) actionId = before ++ after.
Proof.
  intros Hb Ha. induction before as [|b r IH]; simpl.
  - now rewrite Ha.
  - rewrite (Hb b) by now left.
    destruct IH as [IH1 IH2]; [auto with datatypes|].
    now rewrite IH1, IH2.
Qed.

Lemma getAction_get x name actionId :
  getAction x name actionId
  = if shadowed (actions x) then Err TypeError
    else Ok (match get (actions x) name with
             | Some l => find (fun action => id_eqb (a_id action) actionId) l
             | None => None
             end).
Proof.
  unfold getAction, hasOwnProperty.
  destruct (shadowed (actions x)); simpl; [reflexivity|].
  rewrite owns_get. now destruct (get (actions x) name).
Qed.

Lemma removeAction_run name actionId w :
  removeAction name actionId w
  = match getAction (this w) name actionId with
    | Err e => Throw e w
    | Ok None => Ret false w
    | Ok (Some a) =>
        Ret true
          (mkWorld
             (match get (actions (this w)) name with
              | Some l =>
                  set_actions (this w)
                    (set (actions (this w)) name (splice_first l actionId))
              | None => this w
              end)
             (counter w) (trace w ++ [Cancelled (a_id a)]))
    end.
Proof.
  unfold removeAction, bind, eval.
  destruct (getAction (this w) name actionId) as [[a|]|e]; reflexivity.
Qed.

Lemma delete_run req s thing x :
  Things_getThing (things s) (thingId (params req)) = Some thing ->
  nth_error (getThings (things s)) thing = Some x ->
  CoapActionIDHandler.delete req s
  = match removeAction (actionName (params req))
            (IdStr (actionId (params req))) (world_of s x) with
    | Ret true w => Ret (status 204) (server_with s thing w)
    | Ret false w => Ret (status 404) (server_with s thing w)
    | Throw e w => Throw e (server_with s thing w)
    | Outside w => Outside (server_with s thing w)
    end.
Proof.
  intros Hres Hx. unfold CoapActionIDHandler.delete, bind, getThing, gets.
  rewrite Hres, (call_run _ _ _ Hx).
  destruct (removeAction _ _ _) as [[|] w|e w|w]; reflexivity.
Qed.

(** C8. On a Thing that has an action named [hasOwnProperty],
    [getAction] and [removeAction] throw for every pair of a name and an
    identifier, whether an instance matches or not, and the exception
    escapes the DELETE handler: the lookup calls the in-flight list stored
    under that name instead of the method.  Nothing is changed. *)
Theorem removeAction_throws_when_shadowed
    (w : World) (name : string) (aid : ActionId) :
  shadowed (actions (this w)) = true ->
  getAction (this w) name aid = Err TypeError
  /\ removeAction name aid w = Throw TypeError w
  /\ (forall req s thing,
        Things_getThing (things s) (thingId (params req)) = Some thing ->
        nth_error (getThings (things s)) thing = Some (this w) ->
        CoapActionIDHandler.delete req s = Throw TypeError s).
Proof.
  intros H.
  assert (G : forall n i, getAction (this w) n i = Err TypeError).
  { intros n i. now rewrite getAction_get, H. }
  split; [apply G|]. split.
  - now rewrite removeAction_run, G.
  - intros req s thing Hres Hx.
    rewrite (delete_run _ _ Hres Hx), removeAction_run.
    change (this (world_of s (this w))) with (this w). rewrite G.
    now rewrite (server_with_same _ _ Hx).
Qed.

(** X24.  [removeAction] on a Thing none of whose actions is named
    [hasOwnProperty].  When the name has no in-flight list, or no
    instance of its list has the identifier, [removeAction] returns false
    and leaves the Thing as it was, and the DELETE handler answers 404
    with the server unchanged.  Otherwise the first instance with the
    identifier is cancelled and dropped from its list, the rest of the
    Thing stays as it was, [removeAction] returns true and the DELETE
    handler answers 204. *)
Theorem removeAction_removes_first_match
    (w : World) (name : string) (aid : ActionId) :
  shadowed (actions (this w)) = false ->
  (get (actions (this w)) name = None -> removeAction name aid w = Ret false w)
  /\ (forall l,
        get (actions (this w)) name = Some l ->
        (forall b, In b l -> id_eqb (a_id b) aid = false) ->
        removeAction name aid w = Ret false w)
  /\ (forall before a after,
        get (actions (this w)) name = Some (before ++ a :: after) ->
        (forall b, In b before -> id_eqb (a_id b) aid = false) ->
        id_eqb (a_id a) aid = true ->
        removeAction name aid w
        = Ret true
            (mkWorld
               (set_actions (this w)
                  (set (actions (this w)) name (before ++ after)))
               (counter w) (trace w ++ [Cancelled (a_id a)])))
  /\ (forall req s thing,
        Things_getThing (things s) (thingId (params req)) = Some thing ->
        nth_error (getThings (things s)) thing = Some (this w) ->
        name = actionName (params req) ->
        aid = IdStr (actionId (params req)) ->
        (get (actions (this w)) name = None ->
         CoapActionIDHandler.delete req s = Ret (status 404) s)
        /\ (forall l,
              get (actions (this w)) name = Some l ->
              (forall b, In b l -> id_eqb (a_id b) aid = false) ->
              CoapActionIDHandler.delete req s = Ret (status 404) s)
        /\ (forall before a after,
              get (actions (this w)) name = Some (before ++ a :: after) ->
              (forall b, In b before -> id_eqb (a_id b) aid = false) ->
              id_eqb (a_id a) aid = true ->
              CoapActionIDHandler.delete req s
              = Ret (status 204)
                  (mkServer
                     (put_thing (things s) thing
                        (set_actions (this w)
                           (set (actions (this w)) name (before ++ after))))
                     (srv_counter s)
                     (srv_trace s ++ [Cancelled (a_id a)])))).
Proof.
  intros Hs.
  assert (N : get (actions (this w)) name = None ->
              getAction (this w) name aid = Ok None).
  { intros G. now rewrite getAction_get, Hs, G. }
  assert (L : forall l,
             get (actions (this w)) name = Some l ->
             (forall b, In b l -> id_eqb (a_id b) aid = false) ->
             getAction (this w) name aid = Ok None).
  { intros l G Hl. now rewrite getAction_get, Hs, G, find_no_match. }
  assert (F : forall before a after,
             get (actions (this w)) name = Some (before ++ a :: after) ->
             (forall b, In b before -> id_eqb (a_id b) aid = false) ->
             id_eqb (a_id a) aid = true ->
             getAction (this w) name aid = Ok (Some a)
             /\ splice_first (before ++ a :: after) aid = before ++ after).
  { intros before a after G Hb Ha.
    destruct (@find_first_match before a after aid Hb Ha) as [F1 F2].
    now rewrite getAction_get, Hs, G, F1. }
  split; [|split; [|split]].
  - intros G. now rewrite removeAction_run, N.
  - intros l G Hl. now rewrite removeAction_run, (L l).
  - intros before a after G Hb Ha.
    destruct (F _ _ _ G Hb Ha) as [F1 F2].
    now rewrite removeAction_run, F1, G, F2.
  - intros req s thing Hres Hx -> ->.
    rewrite (delete_run _ _ Hres Hx), removeAction_run.
    change (this (world_of s (this w))) with (this w).
    split; [|split].
    + intros G. rewrite N by exact G.
      now rewrite (server_with_same _ _ Hx).
    + intros l G Hl. rewrite (L l) by assumption.
      now rewrite (server_with_same _ _ Hx).
    + intros before a after G Hb Ha.
      destruct (F _ _ _ G Hb Ha) as [F1 F2].
      rewrite F1, G, F2. reflexivity.
Qed.

End ActionFacts.

Section PerformAction.
Context {C : Collaborators}.
Import Thing.

(** All the runs of [performAction]. *)
Lemma performAction_run name input w :
  performAction name input w
  = if shadowed (availableActions (this w)) then Throw TypeError w
    else
      match get (availableActions (this w)) name with
      | None => Ret None w
      | Some entry =>
          if md_shadowed (aa_metadata entry) then Throw TypeError w
          else if accepts (this w) name (or_else input JNull) then
            let a := instance_of entry input w in
            let t := trace w
                     ++ deliveries (subscribers (this w)) (action_message a) in
            match get (actions (this w)) name with
            | Some l =>
                Ret (Some a)
                  (mkWorld
                     (set_actions (this w)
                        (set (actions (this w)) name (l ++ [a])))
                     (S (counter w)) t)
            | None => Throw TypeError (mkWorld (this w) (S (counter w)) t)
            end
          else Ret None w
      end.
Proof.
  unfold performAction, accepts, bind, eval, gets, hasOwnProperty.
  destruct (shadowed (availableActions (this w))); [reflexivity|].
  simpl. rewrite owns_get.
  destruct (get (availableActions (this w)) name) as [entry|] eqn:G; simpl;
    rewrite ?G; [|reflexivity].
  unfold Metadata_hasOwnProperty.
  destruct (md_shadowed (aa_metadata entry)); [reflexivity|].
  simpl. unfold md_owns. simpl.
  destruct (md_input (aa_metadata entry)) as [schema|]; simpl.
  - destruct (ajv_validate schema (or_else input JNull)); simpl;
      [|reflexivity].
    unfold new_instance. simpl. rewrite actionNotify_run. simpl.
    unfold push_action, bind, gets. simpl.
    now destruct (get (actions (this w)) name).
  - unfold new_instance. simpl. rewrite actionNotify_run. simpl.
    unfold push_action, bind, gets. simpl.
    now destruct (get (actions (this w)) name).
Qed.

(** C1. [performAction] replaces a falsy input by null before it asks the
    schema.  So for a registered name whose schema validates the falsy
    input but not null, it returns nothing and changes nothing, although
    the name is registered and the input validates. *)
Theorem performAction_rejects_valid_falsy_input
    (w : World) (name : string) (input schema : json)
    (entry : AvailableAction) :
  answers (this w) name = true ->
  get (availableActions (this w)) name = Some entry ->
  md_input (aa_metadata entry) = Some schema ->
  truthy input = false ->
  ajv_validate schema input = true ->
  ajv_validate schema JNull = false ->
  accepts (this w) name input = true
  /\ performAction name input w = Ret None w.
Proof.
  unfold answers, accepts. intros Ha G Hi Ht Hv Hn.
  rewrite G in Ha. apply andb_prop in Ha. destruct Ha as [Ha1 Ha2].
  apply negb_true_iff in Ha1, Ha2.
  rewrite performAction_run, Ha1, G, Ha2. unfold accepts, or_else.
  now rewrite G, Hi, Ht, Hn.
Qed.

(** X25.  All that [performAction] does when the catalog can be asked
    about the name.  It first replaces a falsy input by null.  It returns
    an instance exactly when the name is in the catalog and the declared
    input schema, if any, validates that normalised input; the instance
    has status [created], carries the normalised input and has been
    appended to the in-flight list of the name, the other lists staying
    as they were.  Otherwise it returns nothing and leaves the Thing, and
    with it every in-flight list, unchanged.  Should an accepted name have
    no in-flight list, the append throws and the Thing is unchanged. *)
Theorem performAction_validates_normalised_input
    (w : World) (name : string) (input : json) :
  answers (this w) name = true ->
  (accepts (this w) name (or_else input JNull) = true ->
   forall l,
     get (actions (this w)) name = Some l ->
     exists a w',
       performAction name input w = Ret (Some a) w'
       /\ a_status a = "created"
       /\ a_input a = or_else input JNull
       /\ get (actions (this w')) name = Some (l ++ [a])
       /\ (forall other, other <> name ->
             get (actions (this w')) other = get (actions (this w)) other))
  /\ (accepts (this w) name (or_else input JNull) = true ->
      get (actions (this w)) name = None ->
      exists w',
        performAction name input w = Throw TypeError w'
        /\ this w' = this w)
  /\ (accepts (this w) name (or_else input JNull) = false ->
      performAction name input w = Ret None w).
Proof.
  intros Ha. unfold answers in Ha.
  apply andb_prop in Ha. destruct Ha as [Ha1 Ha2].
  apply negb_true_iff in Ha1.
  rewrite performAction_run, Ha1.
  assert (E : accepts (this w) name (or_else input JNull) = true ->
              exists entry,
                get (availableActions (this w)) name = Some entry
                /\ md_shadowed (aa_metadata entry) = false).
  { intros Hv.
    destruct (get (availableActions (this w)) name) as [entry|] eqn:G;
      [|unfold accepts in Hv; now rewrite G in Hv].
    exists entry. split; [reflexivity|]. now apply negb_true_iff. }
  split; [|split].
  - intros Hv l Hl. destruct (E Hv) as [entry [G Hm]].
    rewrite G, Hm, Hv. cbv zeta. rewrite Hl.
    eexists. eexists. split; [reflexivity|]. simpl.
    repeat split; auto.
    + apply get_set_same.
    + intros other Ho. now apply get_set_other.
  - intros Hv Hl. destruct (E Hv) as [entry [G Hm]].
    rewrite G, Hm, Hv. cbv zeta. rewrite Hl.
    eexists. split; reflexivity.
  - intros Hv. rewrite Hv.
    destruct (get (availableActions (this w)) name) as [entry|];
      [|reflexivity].
    apply negb_true_iff in Ha2. now rewrite Ha2.
Qed.

End PerformAction.

(** C1 at the Dimmer: [fade] is registered and its schema validates the
    input 0, yet [performAction "fade" 0] returns nothing, because the
    schema is asked about null instead. *)
Lemma performAction_rejects_valid_falsy_input_witness :
  accepts (C := Sample.collaborators) Sample.Dimmer "fade" (JNum 0) = true
  /\ Thing.performAction (C := Sample.collaborators) "fade" (JNum 0)
       (Sample.world Sample.Dimmer)
     = Ret None (Sample.world Sample.Dimmer).
Proof.
  exact (@performAction_rejects_valid_falsy_input Sample.collaborators
           (Sample.world Sample.Dimmer) "fade" (JNum 0)
           (JObj [("type", JStr "integer")]) _
           eq_refl eq_refl eq_refl eq_refl eq_refl eq_refl).
Defined.

(** X25 at the Lamp: a timer of 5 ms is accepted. *)
Lemma performAction_validates_normalised_input_witness :
  exists a w',
    Thing.performAction (C := Sample.collaborators) "SwitchOffTimer"
      (JObj [("duration", JNum 5)]) (Sample.world Sample.Lamp) = Ret (Some a) w'
    /\ a_status a = "created"
    /\ a_input a = or_else (JObj [("duration", JNum 5)]) JNull
    /\ get (Thing.actions (Thing.this w')) "SwitchOffTimer" = Some ([] ++ [a])
    /\ (forall other, other <> "SwitchOffTimer" ->
          get (Thing.actions (Thing.this w')) other
          = get (Thing.actions (Thing.this (Sample.world Sample.Lamp))) other).
Proof.
  exact (proj1 (performAction_validates_normalised_input
                  (C := Sample.collaborators) (Sample.world Sample.Lamp)
                  "SwitchOffTimer" (JObj [("duration", JNum 5)]) eq_refl)
               eq_refl [] eq_refl).
Defined.

(** ** The link-format encoder *)

Section Encoder.
Context {C : Collaborators}.
Import helpers.

Lemma fold_push (A : Type) (f : A -> string) (l : list A) (core : list string) :
  fold_left (fun core x => core ++ [f x]) l core = core ++ map f l.
Proof.
  revert core. induction l as [|x r IH]; intros core; simpl.
  - now rewrite app_nil_r.
  - rewrite IH. now rewrite <- app_assoc.
Qed.

Lemma push_resource_run rgKey core resource :
  push_resource rgKey core resource
  = if md_shadowed resource then Err TypeError
    else Ok (core ++ match md_links resource with
                     | Some links => map (coreLink rgKey resource) links
                     | None => []
                     end).
Proof.
  unfold push_resource, Metadata_hasOwnProperty.
  destruct (md_shadowed resource); [reflexivity|]. simpl.
  unfold md_owns. simpl.
  destruct (md_links resource) as [links|]; simpl.
  - now rewrite fold_push.
  - now rewrite app_nil_r.
Qed.

Lemma fold_push_resources rgKey (g : obj Metadata) ks core :
  (forall k, In k ks -> get g k <> None) ->
  let rs := flat_map (fun k => match get g k with
                               | Some v => [(k, v)]
                               | None => []
                               end) ks in
  fold_result
    (fun core rKey =>
       match get g rKey with
       | None => Err TypeError
       | Some resource => push_resource rgKey core resource
       end) ks core
  = if existsb (fun r => md_shadowed (snd r)) rs then Err TypeError
    else Ok (core ++ resource_entries (coreLink rgKey) rs).
Proof.
  revert core. induction ks as [|k r IH]; intros core Hks; simpl.
  - now rewrite app_nil_r.
  - destruct (get g k) as [resource|] eqn:G;
      [|now destruct (Hks k (or_introl eq_refl))].
    simpl. rewrite push_resource_run.
    destruct (md_shadowed resource); [reflexivity|]. simpl.
    rewrite IH by auto with datatypes. simpl.
    destruct (existsb _ _); [reflexivity|].
    unfold resource_entries. simpl. now rewrite <- app_assoc.
Qed.

Lemma push_group_href d core :
  push_group d core "href" = Ok (core ++ href_entries d).
Proof.
  unfold push_group, href_entries. simpl.
  destruct (d_href d); [reflexivity | now rewrite app_nil_r].
Qed.

Lemma push_group_links d core :
  push_group d core "links" = Ok (core ++ links_entries d).
Proof.
  unfold push_group, links_entries. simpl.
  destruct (d_links d); [now rewrite fold_push | now rewrite app_nil_r].
Qed.

Lemma push_group_resources d core rgKey :
  rgKey = "properties" \/ rgKey = "actions" \/ rgKey = "events" ->
  let rs := group_in (@own_entries Metadata) (resourceGroup_of d rgKey) in
  push_group d core rgKey
  = if existsb (fun r => md_shadowed (snd r)) rs then Err TypeError
    else Ok (core ++ resource_entries (coreLink rgKey) rs).
Proof.
  intros H. unfold push_group.
  replace (String.eqb rgKey "href") with false
    by (destruct H as [->|[->| ->]]; reflexivity).
  replace (String.eqb rgKey "links") with false
    by (destruct H as [->|[->| ->]]; reflexivity).
  destruct (resourceGroup_of d rgKey) as [g|]; simpl.
  - apply fold_push_resources. intros k Hk.
    apply own_keys_In in Hk. rewrite owns_get in Hk.
    now destruct (get g k).
  - now rewrite app_nil_r.
Qed.

(** The encoder on any description: it throws when a resource cannot be
    asked for its [links], and joins the entries in enumeration order
    otherwise. *)
Lemma getCoreLinkFormat_run (d : Description) :
  getCoreLinkFormat d
  = if hides_method d then Err TypeError
    else Ok (encoding (@own_entries Metadata) d).
Proof.
  unfold getCoreLinkFormat, encoding, hides_method, resourceGroupKeys.
  simpl. rewrite push_group_href. simpl. rewrite push_group_links. simpl.
  rewrite !existsb_app.
  rewrite push_group_resources by auto. unfold resourceGroup_of at 1 2. simpl.
  destruct (existsb _ (group_in _ (d_properties d))); [reflexivity|]. simpl.
  rewrite push_group_resources by auto. unfold resourceGroup_of at 1 2. simpl.
  destruct (existsb _ (group_in _ (d_actions d))); [reflexivity|]. simpl.
  rewrite push_group_resources by auto. unfold resourceGroup_of at 1 2. simpl.
  destruct (existsb _ (group_in _ (d_events d))); [reflexivity|]. simpl.
  rewrite <- !app_assoc. reflexivity.
Qed.

(** C5, as the code has it.  The encoder emits, joined with commas: the
    bare [<href>] entry when the description has an href; one
    [<href>;rt="<rel>";ct=50] entry per top-level link, in list order;
    then the entries of the groups properties, actions and events, in
    that order, where within a group the resources come in the order the
    engine enumerates the group's names (array-index names first, in
    ascending numeric order, then the other names in insertion order) and
    each resource that has [links] gives one entry per link in list
    order: the property form with types and title for properties, the
    [rel] form for actions and events.  The encoder asks each resource
    whether it has [links]; a resource with a member named
    [hasOwnProperty] cannot be asked, and the encoder throws. *)
Theorem getCoreLinkFormat_entries (d : Description) :
  getCoreLinkFormat d
  = if hides_method d then Err TypeError
    else Ok (encoding (@own_entries Metadata) d).
Proof. exact (getCoreLinkFormat_run d). Qed.

End Encoder.

(** ** Rendering a description *)

Section Rendering.
Context {C : Collaborators}.
Import Thing.

Lemma for_in_run (A : Type) (body : A -> string -> M World A) f g :
  (forall acc name w,
      body acc name w
      = Ret (f acc name (this w))
            (mkWorld (g name (this w)) (counter w) (trace w))) ->
  forall names acc w,
    for_in names acc body w
    = Ret (fst (run_loop f g names acc (this w)))
          (mkWorld (snd (run_loop f g names acc (this w)))
                   (counter w) (trace w)).
Proof.
  intros Hb. induction names as [|name r IH]; intros acc w; simpl.
  - unfold ret. now rewrite world_eta.
  - unfold bind. rewrite Hb, IH. reflexivity.
Qed.

(** [asThingDescription] never throws; it leaves the counter and the
    trace alone. *)
Lemma asThingDescription_run w :
  asThingDescription w
  = Ret (description_of (this w))
        (mkWorld (after_description (this w)) (counter w) (trace w)).
Proof.
  unfold asThingDescription, bind, gets.
  rewrite (for_in_run _
             (action_links_value (hrefPrefix (this w)))
             (action_links_state (hrefPrefix (this w)))).
  2:{ intros acc name w0. unfold bind, gets, action_links_value,
        action_links_state.
      destruct (get (availableActions (this w0)) name); [reflexivity|].
      unfold ret. now rewrite world_eta. }
  rewrite (for_in_run _
             (event_links_value (hrefPrefix (this w)))
             (event_links_state (hrefPrefix (this w)))).
  2:{ intros acc name w0. unfold bind, gets, event_links_value,
        event_links_state.
      destruct (get (availableEvents (this w0)) name); [reflexivity|].
      unfold ret. now rewrite world_eta. }
  reflexivity.
Qed.

Lemma same_but_catalogs_refl x : same_but_catalogs x x.
Proof. unfold same_but_catalogs. tauto. Qed.

Lemma same_but_catalogs_trans x y z :
  same_but_catalogs x y -> same_but_catalogs y z -> same_but_catalogs x z.
Proof.
  unfold same_but_catalogs. intros H1 H2.
  decompose [and] H1. decompose [and] H2. repeat split; congruence.
Qed.

Lemma run_loop_same (A : Type) (f : A -> string -> Thing.t -> A) g names acc x :
  (forall name y, same_but_catalogs y (g name y)) ->
  same_but_catalogs x (snd (run_loop f g names acc x)).
Proof.
  intros Hg. revert acc x. induction names as [|n r IH]; intros acc x; simpl.
  - apply same_but_catalogs_refl.
  - eapply same_but_catalogs_trans; [apply Hg | apply IH].
Qed.

Lemma after_description_same x : same_but_catalogs x (after_description x).
Proof.
  unfold after_description, after_actions.
  eapply same_but_catalogs_trans; apply run_loop_same.
  - intros name y. unfold action_links_state.
    destruct (get (availableActions y) name);
      unfold same_but_catalogs; simpl; tauto.
  - intros name y. unfold event_links_state.
    destruct (get (availableEvents y) name);
      unfold same_but_catalogs; simpl; tauto.
Qed.

Lemma getHref_after_description x : getHref (after_description x) = getHref x.
Proof.
  unfold getHref.
  destruct (after_description_same x)
    as (_ & _ & _ & _ & _ & _ & _ & _ & _ & H & _).
  now rewrite H.
Qed.

Lemma getDescription_run req w :
  helpers.getDescription req w
  = Ret (rendered req (this w))
        (mkWorld (after_description (this w)) (counter w) (trace w)).
Proof.
  unfold helpers.getDescription, bind, gets.
  rewrite asThingDescription_run. simpl.
  rewrite getHref_after_description. reflexivity.
Qed.

(** C7. The description rendered for a request has an href exactly when
    the Thing's href is not the root, and then it is that href; its base
    is the scheme, [://], the request host and the Thing's href, in this
    order; and it always declares the no-security scheme. *)
Theorem getDescription_href_base_security (req : Request) (w : World) :
  exists d w',
    helpers.getDescription req w = Ret d w'
    /\ (d_href d <> None <-> getHref (this w) <> "/")
    /\ (forall h, d_href d = Some h -> h = getHref (this w))
    /\ d_base d
       = Some ("coap" ++ "://" ++ text_of (host req) ++ getHref (this w))%string
    /\ (forall h, host req = Some h ->
          d_base d = Some ("coap://" ++ h ++ getHref (this w))%string)
    /\ d_securityDefinitions d = Some [("nosec_sc", [("scheme", "nosec")])]
    /\ d_security d = Some "nosec_sc".
Proof.
  rewrite getDescription_run. eexists. eexists. split; [reflexivity|].
  unfold rendered. simpl.
  destruct (String.eqb (getHref (this w)) "/") eqn:E; simpl.
  - apply String.eqb_eq in E. rewrite E.
    split; [split; congruence|]. split; [discriminate|].
    split; [reflexivity|]. split; [|split; reflexivity].
    intros h Hh. now rewrite Hh.
  - apply String.eqb_neq in E.
    split; [split; congruence|]. split; [congruence|].
    split; [reflexivity|]. split; [|split; reflexivity].
    intros h Hh. now rewrite Hh.
Qed.

End Rendering.

(** ** Discovery *)

Section Discovery.
Context {C : Collaborators}.

Lemma getThings_put_thing r i x :
  getThings (put_thing r i x) = replace_at (getThings r) i x.
Proof.
  destruct r as [y n | l n]; simpl; [|reflexivity].
  destruct i as [|i]; simpl; [reflexivity|]. now destruct i.
Qed.

Lemma replace_at_middle (done rest : list Thing.t) x y :
  replace_at (done ++ x :: rest) (List.length done) y = done ++ y :: rest.
Proof.
  induction done as [|z r IH]; simpl; [reflexivity|]. now rewrite IH.
Qed.

Lemma nth_error_middle (done rest : list Thing.t) x :
  nth_error (done ++ x :: rest) (List.length done) = Some x.
Proof.
  induction done as [|z r IH]; simpl; [reflexivity|]. exact IH.
Qed.




End Discovery.

(** ** Request bodies *)

Section Bodies.
Context {C : Collaborators}.

(** C3 at its failing input.  A PUT whose payload is the JSON text
    [null] has a body without the property's name, yet the handler
    answers nothing: testing the body for the name throws a TypeError,
    which leaves the handler. *)
Theorem put_null_body_throws (req : Request) (s : Server) (thing : Ref) :
  Things_getThing (things s) (thingId (params req)) = Some thing ->
  JSON_parse (payload req) = Some JNull ->
  CoapPropertyHandler.put req s = Throw TypeError s.
Proof.
  intros Hres Hp.
  unfold CoapPropertyHandler.put, bind, getThing, gets. rewrite Hres.
  unfold helpers.getBody. now rewrite Hp.
Qed.

(** C4 at its failing input.  A payload that is not JSON makes
    [getBody] throw a SyntaxError; the PUT handler of a property and the
    two POST handlers of actions call it outside any [try], so the
    exception leaves the handler. *)
Theorem malformed_payload_escapes_handler (req : Request) (s : Server)
    (thing : Ref) :
  Things_getThing (things s) (thingId (params req)) = Some thing ->
  JSON_parse (payload req) = None ->
  CoapPropertyHandler.put req s = Throw SyntaxError s
  /\ CoapActionsHandler.post req s = Throw SyntaxError s
  /\ CoapActionHandler.post req s = Throw SyntaxError s.
Proof.
  intros Hres Hp.
  unfold CoapPropertyHandler.put, CoapActionsHandler.post,
    CoapActionHandler.post, bind, getThing, gets.
  rewrite Hres. unfold helpers.getBody. rewrite Hp. auto.
Qed.

End Bodies.

Lemma put_null_body_throws_witness :
  CoapPropertyHandler.put (C := Sample.collaborators)
    (Sample.request "on" "" "" "" "null") (Sample.single Sample.Lamp)
  = Throw TypeError (Sample.single Sample.Lamp).
Proof.
  exact (put_null_body_throws (C := Sample.collaborators)
           (Sample.request "on" "" "" "" "null") (Sample.single Sample.Lamp)
           (thing := 0) eq_refl eq_refl).
Defined.

Lemma malformed_payload_escapes_handler_witness :
  CoapPropertyHandler.put (C := Sample.collaborators)
    (Sample.request "on" "" "" "" "{") (Sample.single Sample.Lamp)
  = Throw SyntaxError (Sample.single Sample.Lamp)
  /\ CoapActionsHandler.post (C := Sample.collaborators)
       (Sample.request "on" "" "" "" "{") (Sample.single Sample.Lamp)
     = Throw SyntaxError (Sample.single Sample.Lamp)
  /\ CoapActionHandler.post (C := Sample.collaborators)
       (Sample.request "on" "" "" "" "{") (Sample.single Sample.Lamp)
     = Throw SyntaxError (Sample.single Sample.Lamp).
Proof.
  exact (malformed_payload_escapes_handler (C := Sample.collaborators)
           (Sample.request "on" "" "" "" "{") (Sample.single Sample.Lamp)
           (thing := 0) eq_refl eq_refl).
Defined.

(** ** Concrete runs of the claims *)

(** C10 at the Mirror, whose one property is named [hasOwnProperty]:
    asking for the value of [level], which it does not have, throws. *)
Lemma getProperty_throws_when_shadowed_witness :
  Thing.hasProperty Sample.Mirror "level" = Err TypeError
  /\ Thing.findProperty Sample.Mirror "level" = Err TypeError
  /\ Thing.getProperty Sample.Mirror "level" = Err TypeError.
Proof.
  exact (getProperty_throws_when_shadowed Sample.Mirror "level" eq_refl).
Defined.


(** C8 at the Mirror, whose one action is named [hasOwnProperty]:
    removing an instance of [fade], of which there is none, throws, also
    out of the DELETE handler. *)
Lemma removeAction_throws_when_shadowed_witness :
  Thing.getAction Sample.Mirror "fade" (IdStr "token-0") = Err TypeError
  /\ Thing.removeAction "fade" (IdStr "token-0") (Sample.world Sample.Mirror)
     = Throw TypeError (Sample.world Sample.Mirror)
  /\ CoapActionIDHandler.delete (Sample.request "" "fade" "token-0" "" "")
       (Sample.single Sample.Mirror)
     = Throw TypeError (Sample.single Sample.Mirror).
Proof.
  pose proof (removeAction_throws_when_shadowed
                (Sample.world Sample.Mirror) "fade" (IdStr "token-0") eq_refl)
    as H.
  exact (conj (proj1 H)
           (conj (proj1 (proj2 H))
              (proj2 (proj2 H) (Sample.request "" "fade" "token-0" "" "")
                 (Sample.single Sample.Mirror) 0 eq_refl eq_refl))).
Defined.

(** The found case at the Dimmer with one fade in flight: DELETE on its
    token cancels and removes the instance and answers 204. *)
Lemma removeAction_removes_first_match_witness :
  exists a,
    get (Thing.actions Dimmer_fading) "fade" = Some [a]
    /\ a_id a = IdStr "token-0"
    /\ Thing.removeAction "fade" (IdStr "token-0") (Sample.world Dimmer_fading)
       = Ret true
           (Thing.mkWorld
              (Thing.set_actions Dimmer_fading
                 (set (Thing.actions Dimmer_fading) "fade" []))
              0 [Cancelled (IdStr "token-0")])
    /\ CoapActionIDHandler.delete (Sample.request "" "fade" "token-0" "" "")
         (Sample.single Dimmer_fading)
       = Ret (status 204)
           (mkServer
              (SingleThing
                 (Thing.set_actions Dimmer_fading
                    (set (Thing.actions Dimmer_fading) "fade" []))
                 "sample")
              0 [Cancelled (IdStr "token-0")]).
Proof.
  pose proof (removeAction_removes_first_match
                (Sample.world Dimmer_fading) "fade" (IdStr "token-0") eq_refl)
    as H.
  exists (mkAction (IdStr "token-0") "fade" (JNum 5) "created" "").
  split; [reflexivity|]. split; [reflexivity|]. split.
  - exact (proj1 (proj2 (proj2 H)) []
             (mkAction (IdStr "token-0") "fade" (JNum 5) "created" "") []
             eq_refl (fun b (F : In b []) => match F with end) eq_refl).
  - exact (proj2 (proj2
             (proj2 (proj2 (proj2 H))
                (Sample.request "" "fade" "token-0" "" "")
                (Sample.single Dimmer_fading) 0
                eq_refl eq_refl eq_refl eq_refl))
             []
             (mkAction (IdStr "token-0") "fade" (JNum 5) "created" "") []
             eq_refl (fun b (F : In b []) => match F with end) eq_refl).
Defined.

(** C5, as stated, fails.  The relay board registers [power] before
    [1], but in the encoding of its description the entry of [1]
    precedes the entry of [power]; and on the description that lists the
    two properties in registration order the encoder does not produce the
    declared-order encoding. *)
Lemma getCoreLinkFormat_reorders_index_names :
  map fst (Thing.properties Sample.RelayBoard) = ["power"; "1"]
  /\ (exists d w',
        helpers.getDescription (C := Sample.collaborators)
          (Sample.request "" "" "" "" "") (Sample.world Sample.RelayBoard)
        = Ret d w'
        /\ helpers.getCoreLinkFormat d
           = Ok (join ","
               [ link_entry (mkLink "properties" "/properties" None);
                 link_entry (mkLink "actions" "/actions" None);
                 link_entry (mkLink "events" "/events" None);
                 property_entry
                   (mkMetadata (Some (TList ["OnOffProperty"; "Relay"]))
                      (Some "Channel 1") None None [])
                   (mkLink "property" "/properties/1" None);
                 property_entry
                   (mkMetadata (Some (TScalar "OnOffProperty"))
                      (Some "Power") None None [])
                   (mkLink "property" "/properties/power" None) ]))
  /\ (let d :=
        mkDescription "RelayBoard" "Relay board" "" [] 
          (Some
             [("power",
               mkMetadata (Some (TScalar "OnOffProperty")) (Some "Power")
                 None (Some [mkLink "property" "/properties/power" None]) []);
              ("1",
               mkMetadata (Some (TList ["OnOffProperty"; "Relay"]))
                 (Some "Channel 1")
                 None (Some [mkLink "property" "/properties/1" None]) [])])
          None None None None None None None None in
      helpers.getCoreLinkFormat d <> Ok (declared_encoding d)).
Proof.
  split; [reflexivity|]. split.
  - eexists. eexists. split; reflexivity.
  - vm_compute. discriminate.
Qed.

(** ** The property resource *)

Section PropertyResource.
Context {C : Collaborators}.
Import Thing.

(** A value that can be asked for a member is not null, and the member
    it is found to have can be read. *)
Lemma json_hasOwnProperty_Ok body k b :
  json_hasOwnProperty body k = Ok b ->
  json_member body k = Ok (json_own body k)
  /\ present (json_own body k) = b.
Proof.
  destruct body as [| b0 | z | str | l | o]; simpl; try discriminate;
    try (intros [= <-]; now split).
  intros H. apply hasOwnProperty_Ok in H. destruct H as [_ <-].
  split; [reflexivity|]. rewrite owns_get. now destruct (get o k).
Qed.

(** X1.  PUT on a property of a Thing that resolves, with a payload that
    parses.  When the body cannot be asked for the property's name (it
    is null, or an object with a member named [hasOwnProperty]) the
    exception leaves the handler.  Without the name in the body: 400.
    With the name in the body: when the Thing cannot be asked for the
    property (one of its properties is named [hasOwnProperty]) the
    exception leaves the handler; with no such property: 404; with a
    value the property rejects: 400; in all these cases nothing changes.
    Otherwise the value is stored and the response is [{name: value}]
    read back from the Thing. *)
Theorem put_property_cases (req : Request) (s : Server) (thing : Ref)
    (x : Thing.t) (body : json) :
  Things_getThing (things s) (thingId (params req)) = Some thing ->
  nth_error (getThings (things s)) thing = Some x ->
  JSON_parse (payload req) = Some body ->
  (forall e, json_hasOwnProperty body (propertyName (params req)) = Err e ->
             CoapPropertyHandler.put req s = Throw e s)
  /\ (json_hasOwnProperty body (propertyName (params req)) = Ok false ->
      CoapPropertyHandler.put req s = Ret (status 400) s)
  /\ (json_hasOwnProperty body (propertyName (params req)) = Ok true ->
      (exists v, json_own body (propertyName (params req)) = Some v)
      /\ (forall e, hasProperty x (propertyName (params req)) = Err e ->
                    CoapPropertyHandler.put req s = Throw e s)
      /\ (hasProperty x (propertyName (params req)) = Ok false ->
          CoapPropertyHandler.put req s = Ret (status 404) s)
      /\ (forall v prop,
            json_own body (propertyName (params req)) = Some v ->
            findProperty x (propertyName (params req)) = Ok (Some prop) ->
            satisfies (p_metadata prop) v = false ->
            CoapPropertyHandler.put req s = Ret (status 400) s)
      /\ (forall v prop,
            json_own body (propertyName (params req)) = Some v ->
            findProperty x (propertyName (params req)) = Ok (Some prop) ->
            satisfies (p_metadata prop) v = true ->
            exists s' x',
              CoapPropertyHandler.put req s
              = Ret (mkResponse None None
                       (Json (JObj [(propertyName (params req), v)]))) s'
              /\ nth_error (getThings (things s')) thing = Some x'
              /\ getProperty x' (propertyName (params req)) = Ok v)).
Proof.
  intros Hres Hx Hp.
  assert (Start : CoapPropertyHandler.put req s
                  = match json_hasOwnProperty body (propertyName (params req))
                    with
                    | Err e => Throw e s
                    | Ok false => Ret (status 400) s
                    | Ok true =>
                        match hasProperty x (propertyName (params req)) with
                        | Err e => Throw e s
                        | Ok false => Ret (status 404) s
                        | Ok true =>
                            (accepted <-
                               try_catch
                                 (member <-
                                    lift (json_member body
                                            (propertyName (params req))) ;;
                                  call thing
                                    (setProperty (propertyName (params req))
                                       (match member with
                                        | Some value => value
                                        | None => JNull
                                        end)) ;;
                                  ret true)
                                 (fun _ => ret false) ;;
                             if accepted then
                               value <-
                                 read_result thing
                                   (fun x =>
                                      getProperty x
                                        (propertyName (params req))) ;;
                               ret (mkResponse None None
                                      (Json (JObj [(propertyName (params req),
                                                    value)])))
                             else ret (status 400)) s
                        end
                    end).
  { unfold CoapPropertyHandler.put.
    unfold bind at 1. unfold getThing, gets. rewrite Hres.
    unfold bind at 1. unfold helpers.getBody. rewrite Hp. unfold ret at 1.
    unfold bind at 1.
    destruct (json_hasOwnProperty body (propertyName (params req)))
      as [[|]|e]; simpl; try reflexivity.
    unfold bind at 1. rewrite (read_result_run _ _ _ Hx).
    destruct (hasProperty x (propertyName (params req))) as [[|]|e];
      reflexivity. }
  rewrite Start. split; [|split].
  - now intros e ->.
  - now intros ->.
  - intros Hb. rewrite Hb.
    destruct (json_hasOwnProperty_Ok _ _ Hb) as [Hm Hv].
    split; [|split; [|split; [|split]]].
    + destruct (json_own body (propertyName (params req))); [eauto|discriminate].
    + now intros e ->.
    + now intros ->.
    + intros v prop Hv' Hf Hs.
      assert (Hh : hasProperty x (propertyName (params req)) = Ok true).
      { unfold hasProperty. apply findProperty_Ok in Hf.
        destruct Hf as [Hsh G].
        rewrite (hasOwnProperty_plain _ _ Hsh), owns_get. now rewrite G. }
      rewrite Hh. unfold bind, try_catch. rewrite Hm, Hv'. simpl.
      rewrite (call_run _ _ _ Hx).
      rewrite (setProperty_run _ _ (world_of s x) Hf), Property_setValue_run, Hs.
      now rewrite (server_with_same _ _ Hx).
    + intros v prop Hv' Hf Hs.
      assert (Hh : hasProperty x (propertyName (params req)) = Ok true).
      { unfold hasProperty. pose proof (findProperty_Ok _ _ Hf) as [Hsh G].
        rewrite (hasOwnProperty_plain _ _ Hsh), owns_get. now rewrite G. }
      rewrite Hh. unfold bind, try_catch. rewrite Hm, Hv'. simpl.
      rewrite (call_run _ _ _ Hx).
      rewrite (setProperty_run _ _ (world_of s x) Hf), Property_setValue_run, Hs.
      set (w' := mkWorld _ _ _).
      assert (Hg : getProperty (this w') (propertyName (params req)) = Ok v).
      { pose proof (findProperty_Ok _ _ Hf) as [Hsh G].
        unfold w'. rewrite getProperty_get. simpl.
        rewrite shadowed_set_present, Hsh, get_set_same; [reflexivity|].
        rewrite owns_get. now rewrite G. }
      assert (Hx' : nth_error (getThings (things (server_with s thing w'))) thing
                    = Some (this w'))
        by (apply (nth_error_put_thing _ _ _ Hx)).
      unfold ret at 1. cbv beta iota.
      rewrite (read_result_run _ _ _ Hx'), Hg.
      eexists. eexists. split; [reflexivity|]. split; [exact Hx'|exact Hg].
Qed.

End PropertyResource.

(** ** The actions resource *)

Section ActionsResource.
Context {C : Collaborators}.
Import Thing.

Lemma answers_true x name :
  answers x name = true ->
  shadowed (availableActions x) = false
  /\ forall entry, get (availableActions x) name = Some entry ->
                   md_shadowed (aa_metadata entry) = false.
Proof.
  unfold answers. intros H. apply andb_prop in H. destruct H as [H1 H2].
  apply negb_true_iff in H1. split; [exact H1|].
  intros entry G. rewrite G in H2. now apply negb_true_iff in H2.
Qed.

Lemma performAction_accepted name input w entry l :
  answers (this w) name = true ->
  get (availableActions (this w)) name = Some entry ->
  accepts (this w) name (or_else input JNull) = true ->
  get (actions (this w)) name = Some l ->
  performAction name input w
  = Ret (Some (instance_of entry input w))
        (mkWorld
           (set_actions (this w)
              (set (actions (this w)) name (l ++ [instance_of entry input w])))
           (S (counter w))
           (trace w ++ deliveries (subscribers (this w))
                         (action_message (instance_of entry input w)))).
Proof.
  intros Hans He Ha Hl. destruct (answers_true _ _ Hans) as [H1 H2].
  now rewrite performAction_run, H1, He, (H2 _ He), Ha, Hl.
Qed.

Lemma performAction_rejected name input w :
  answers (this w) name = true ->
  accepts (this w) name (or_else input JNull) = false ->
  performAction name input w = Ret None w.
Proof.
  intros Hans Ha. destruct (answers_true _ _ Hans) as [H1 H2].
  rewrite performAction_run, H1, Ha.
  destruct (get (availableActions (this w)) name) as [entry|];
    [|reflexivity].
  now rewrite (H2 _ eq_refl).
Qed.

(** When the catalog cannot be asked about the name, [performAction]
    throws and changes nothing. *)
Lemma performAction_unanswered name input w :
  answers (this w) name = false ->
  performAction name input w = Throw TypeError w.
Proof.
  unfold answers. intros H. rewrite performAction_run.
  destruct (shadowed (availableActions (this w))); [reflexivity|].
  simpl in H.
  destruct (get (availableActions (this w)) name) as [entry|];
    [|discriminate].
  apply negb_false_iff in H. now rewrite H.
Qed.

Lemma update_last_app (f : Action -> Action) l a :
  update_last f (l ++ [a]) = l ++ [f a].
Proof.
  induction l as [|b r IH]; simpl; [reflexivity|].
  rewrite IH. destruct (r ++ [a]) eqn:E; [|reflexivity].
  now destruct r.
Qed.

(** X2.  One entry [name: value] of the body of a POST on the actions
    resource.  When the entry cannot be asked for [input] (it is null, or
    an object with a member named [hasOwnProperty]) the exception leaves
    the loop.  Otherwise the input is the entry's member [input], or null
    if it has none, and: when the catalog of the Thing cannot be asked
    about the name, [performAction] throws and the exception leaves the
    loop; when the catalog does not accept the entry (unknown name, or an
    input its schema refuses) the entry is skipped; in these cases the
    response and the server stay as they are.  When the catalog accepts
    it, an instance is created, its description, taken while it is still
    [created], is merged into the response, and the instance is started:
    the in-flight list of the name ends with the instance in state
    [pending]. *)
Theorem post_entry_cases (s : Server) (thing : Ref) (x : Thing.t)
    (body value : json) (response : obj json) (name : string) :
  nth_error (getThings (things s)) thing = Some x ->
  json_member body name = Ok (Some value) ->
  (forall e, json_hasOwnProperty value "input" = Err e ->
             post_entry thing body response name s = Throw e s)
  /\ (forall has,
        json_hasOwnProperty value "input" = Ok has ->
        let input := if has
                     then match json_own value "input" with
                          | Some i => i
                          | None => JNull
                          end
                     else JNull in
        (answers x name = false ->
         post_entry thing body response name s = Throw TypeError s)
        /\ (answers x name = true ->
            accepts x name (or_else input JNull) = false ->
            post_entry thing body response name s = Ret response s)
        /\ (forall entry l,
              answers x name = true ->
              get (availableActions x) name = Some entry ->
              accepts x name (or_else input JNull) = true ->
              get (actions x) name = Some l ->
              let a := instance_of entry input (world_of s x) in
              exists s' x',
                post_entry thing body response name s
                = Ret (assign response (asActionDescription a)) s'
                /\ a_status a = "created"
                /\ nth_error (getThings (things s')) thing = Some x'
                /\ get (actions x') name
                   = Some (l ++ [Action_setStatus a "pending"])
                /\ srv_trace s'
                   = (srv_trace s
                      ++ deliveries (subscribers x) (action_message a))
                     ++ [Started (a_id a)])).
Proof.
  intros Hx Hb. split.
  - intros e He. unfold post_entry. unfold bind at 1. rewrite Hb. simpl.
    unfold bind at 1. unfold bind at 1. now rewrite He.
  - intros has Hh input.
    assert (Start : post_entry thing body response name s
                    = (action <- call thing (performAction name input) ;;
                       match action with
                       | Some action =>
                           let response :=
                             assign response (asActionDescription action) in
                           call thing (Action_start name action) ;;
                           ret response
                       | None => ret response
                       end) s).
    { unfold post_entry. unfold bind at 1. rewrite Hb. simpl.
      unfold bind at 1. unfold bind at 1. rewrite Hh. simpl.
      destruct (json_hasOwnProperty_Ok _ _ Hh) as [Hm _].
      unfold input. destruct has; [|reflexivity].
      unfold bind at 1. now rewrite Hm. }
    rewrite Start. unfold bind. rewrite (call_run _ _ _ Hx).
    split; [|split].
    + intros Hans. rewrite performAction_unanswered by exact Hans.
      now rewrite (server_with_same _ _ Hx).
    + intros Hans Hrej. rewrite performAction_rejected by assumption.
      now rewrite (server_with_same _ _ Hx).
    + intros entry l Hans He Hacc Hl.
      rewrite (performAction_accepted _ _ (world_of s x) Hans He Hacc Hl).
      set (a := instance_of entry input (world_of s x)).
      set (w1 := mkWorld _ _ _).
      assert (Hx1 : nth_error (getThings (things (server_with s thing w1)))
                      thing
                    = Some (this w1))
        by (apply (nth_error_put_thing _ _ _ Hx)).
      cbv zeta. rewrite (call_run _ _ _ Hx1).
      unfold Action_start, bind, update, emit, modify. simpl.
      rewrite get_set_same. simpl.
      eexists. eexists. split; [reflexivity|].
      split; [reflexivity|]. unfold server_with. simpl.
      split; [apply (nth_error_put_thing _ _ _ Hx1)|].
      simpl. rewrite get_set_same, update_last_app. split; reflexivity.
Qed.

End ActionsResource.

(** ** The catalog invariant *)

Section Invariant.
Context {C : Collaborators}.
Import Thing.

Lemma owns_keys (A B : Type) (o : obj A) (o' : obj B) k :
  map fst o = map fst o' -> owns o k = owns o' k.
Proof.
  revert o'. induction o as [|[k1 v1] r IH]; intros [|[k2 v2] r'];
    simpl; try discriminate; [reflexivity|].
  intros [= -> H]. now rewrite (IH _ H).
Qed.

Lemma keys_set (A : Type) (o : obj A) k v :
  map fst (set o k v)
  = if owns o k then map fst o else map fst o ++ [k].
Proof.
  destruct (owns o k) eqn:E.
  - now apply keys_set_present.
  - now apply keys_set_absent.
Qed.

Lemma same_names_catalog_ok x : same_names x -> catalog_ok x.
Proof.
  intros H name Hn. now rewrite <- (owns_keys _ _ _ H).
Qed.

Lemma fold_left_inv (A : Type) (P : Thing.t -> Prop)
    (f : A -> Thing.t -> Thing.t) (l : list A) x :
  (forall a y, P y -> P (f a y)) -> P x ->
  P (fold_left (fun x a => f a x) l x).
Proof.
  intros Hf. revert x. induction l as [|a r IH]; intros x Hx; simpl; auto.
Qed.

Lemma run_loop_inv (A : Type) (P : Thing.t -> Prop)
    (f : A -> string -> Thing.t -> A) g names acc x :
  (forall name y, P y -> P (g name y)) -> P x ->
  P (snd (run_loop f g names acc x)).
Proof.
  intros Hg. revert acc x.
  induction names as [|n r IH]; intros acc x Hx; simpl; auto.
Qed.

Lemma same_names_after_description x :
  same_names x -> same_names (after_description x).
Proof.
  intros H. unfold after_description, after_actions.
  apply run_loop_inv.
  - intros name y Hy. unfold event_links_state.
    destruct (get (availableEvents y) name); exact Hy.
  - apply run_loop_inv; [|exact H].
    intros name y Hy. unfold action_links_state.
    destruct (get (availableActions y) name) eqn:G; [|exact Hy].
    unfold same_names in *. simpl. rewrite keys_set_present; [exact Hy|].
    rewrite owns_get. now rewrite G.
Qed.

Lemma removeEventSubscriber_run name ws w :
  removeEventSubscriber name ws w
  = if shadowed (availableEvents (this w)) then Throw TypeError w
    else Ret tt (mkWorld (drop_subscriber ws name (this w))
                   (counter w) (trace w)).
Proof.
  unfold removeEventSubscriber, bind, eval, hasOwnProperty, drop_subscriber.
  destruct (shadowed (availableEvents (this w))); [reflexivity|].
  simpl. rewrite owns_get.
  destruct (get (availableEvents (this w)) name) eqn:G; simpl.
  - unfold update, modify. now rewrite G.
  - unfold ret. now rewrite world_eta.
Qed.

Lemma addEventSubscriber_run name ws w :
  addEventSubscriber name ws w
  = if shadowed (availableEvents (this w)) then Throw TypeError w
    else Ret tt (mkWorld (take_subscriber ws name (this w))
                   (counter w) (trace w)).
Proof.
  unfold addEventSubscriber, bind, eval, hasOwnProperty, take_subscriber.
  destruct (shadowed (availableEvents (this w))); [reflexivity|].
  simpl. rewrite owns_get.
  destruct (get (availableEvents (this w)) name) eqn:G; simpl.
  - unfold update, modify. now rewrite G.
  - unfold ret. now rewrite world_eta.
Qed.

Lemma shadowed_drop_subscriber ws name x :
  shadowed (availableEvents (drop_subscriber ws name x))
  = shadowed (availableEvents x).
Proof.
  unfold drop_subscriber.
  destruct (get (availableEvents x) name) eqn:G; [|reflexivity].
  destruct (set_has _ _ _); [|reflexivity]. simpl.
  apply shadowed_set_present. rewrite owns_get. now rewrite G.
Qed.

Lemma removal_loop_run ws names w :
  shadowed (availableEvents (this w)) = false ->
  for_of names (fun name => removeEventSubscriber name ws) w
  = Ret tt (mkWorld (fold_left (fun x name => drop_subscriber ws name x)
                       names (this w))
              (counter w) (trace w)).
Proof.
  revert w. induction names as [|n r IH]; intros w Hs; simpl.
  - unfold ret. now rewrite world_eta.
  - unfold bind. rewrite removeEventSubscriber_run, Hs.
    rewrite IH by (simpl; now rewrite shadowed_drop_subscriber).
    reflexivity.
Qed.

Lemma shadowed_own_keys (A : Type) (o : obj A) :
  shadowed o = true -> exists n r, own_keys o = n :: r.
Proof.
  intros H. apply own_keys_In in H.
  destruct (own_keys o) as [|n r]; [contradiction|eauto].
Qed.

Lemma removeSubscriber_run ws w :
  removeSubscriber ws w
  = if shadowed (availableEvents (this w))
    then Throw TypeError
           (mkWorld (unsubscribed ws (this w)) (counter w) (trace w))
    else
      Ret tt
        (mkWorld
           (fold_left (fun x name => drop_subscriber ws name x)
              (own_keys (availableEvents (this w)))
              (unsubscribed ws (this w)))
           (counter w) (trace w)).
Proof.
  unfold removeSubscriber, bind, update, modify, gets. simpl.
  assert (E : availableEvents
                (if set_has Nat.eqb (subscribers (this w)) ws
                 then set_subscribers (this w)
                        (set_delete Nat.eqb (subscribers (this w)) ws)
                 else this w)
              = availableEvents (this w))
    by (now destruct (set_has _ _ _)).
  rewrite E. fold (unsubscribed ws (this w)).
  destruct (shadowed (availableEvents (this w))) eqn:Hs.
  - destruct (shadowed_own_keys _ Hs) as [n [r ->]]. simpl.
    unfold bind. rewrite removeEventSubscriber_run. simpl.
    unfold unsubscribed at 1. rewrite E. now rewrite Hs.
  - rewrite removal_loop_run; [reflexivity|].
    simpl. unfold unsubscribed. now rewrite E.
Qed.

Lemma same_names_drop_subscriber ws name x :
  same_names x -> same_names (drop_subscriber ws name x).
Proof.
  intros H. unfold drop_subscriber.
  destruct (get (availableEvents x) name); [|exact H].
  destruct (set_has _ _ _); exact H.
Qed.

(** Every call keeps the names of the catalog and of the in-flight lists
    in step. *)
Lemma invoke_same_names c w :
  same_names (this w) -> same_names (this (state_of (invoke c w))).
Proof.
  intros H. destruct c; simpl.
  - unfold addProperty, bind, gets, update, modify. simpl.
    destruct (replaces_prototype _ _); exact H.
  - unfold removeProperty, bind, eval, update, modify.
    destruct (hasOwnProperty _ _) as [[|]|e]; simpl; exact H.
  - unfold setProperty, bind, eval.
    destruct (findProperty (this w) name) as [[prop|]|e]; simpl;
      try exact H.
    rewrite Property_setValue_run.
    destruct (satisfies _ _); simpl; exact H.
  - unfold addEvent, bind, update, modify. rewrite eventNotify_run.
    simpl. destruct (shadowed _); simpl; exact H.
  - unfold addAvailableEvent, bind, gets, update, modify. simpl.
    destruct (replaces_prototype _ _); exact H.
  - unfold bind. rewrite performAction_run.
    destruct (shadowed (availableActions (this w))); [exact H|].
    destruct (get (availableActions (this w)) name) as [entry|]; [|exact H].
    destruct (md_shadowed (aa_metadata entry)); [exact H|].
    destruct (accepts (this w) name (or_else input JNull)); [|exact H].
    cbv zeta.
    destruct (get (actions (this w)) name) as [l|] eqn:Hl; [|exact H].
    simpl. unfold same_names in *. simpl.
    rewrite keys_set_present; [exact H|].
    rewrite owns_get. now rewrite Hl.
  - unfold bind. rewrite removeAction_run.
    destruct (getAction (this w) name a) as [[act|]|e]; simpl;
      try exact H.
    destruct (get (actions (this w)) name) as [l|] eqn:Gl; [|exact H].
    unfold same_names in *. simpl. rewrite keys_set_present; [exact H|].
    rewrite owns_get. now rewrite Gl.
  - unfold addAvailableAction, bind, gets, update, modify. simpl.
    destruct (replaces_prototype (availableActions (this w)) name) eqn:R;
      [exact H|]. simpl.
    unfold same_names in *. simpl.
    assert (P : put (actions (this w)) name [] = set (actions (this w)) name []).
    { unfold put, replaces_prototype in *.
      rewrite <- (owns_keys _ _ _ H). now rewrite R. }
    rewrite P, !keys_set.
    rewrite (owns_keys _ _ _ H). now rewrite H.
  - unfold addSubscriber, update, modify. simpl. exact H.
  - rewrite removeSubscriber_run.
    destruct (shadowed _); simpl.
    + unfold unsubscribed. destruct (set_has _ _ _); exact H.
    + apply (fold_left_inv same_names).
      * intros name y Hy. now apply same_names_drop_subscriber.
      * unfold unsubscribed. destruct (set_has _ _ _); exact H.
  - rewrite addEventSubscriber_run.
    destruct (shadowed _); simpl; [exact H|].
    unfold take_subscriber.
    destruct (get (availableEvents (this w)) name); exact H.
  - rewrite removeEventSubscriber_run.
    destruct (shadowed _); simpl; [exact H|].
    now apply same_names_drop_subscriber.
  - unfold setHrefPrefix, bind, update, modify. simpl.
    unfold same_names in *. simpl. rewrite map_map. simpl. exact H.
  - unfold setUiHref, update, modify. simpl. exact H.
  - unfold bind. rewrite asThingDescription_run. simpl.
    now apply same_names_after_description.
Qed.

(** An invariant of every call holds along a sequence of calls. *)
Lemma invoke_all_inv (P : Thing.t -> Prop) :
  (forall c w, P (this w) -> P (this (state_of (invoke c w)))) ->
  forall cs w, P (this w) -> P (this (invoke_all cs w)).
Proof.
  intros Hc. induction cs as [|c r IH]; intros w H; simpl; [exact H|].
  pose proof (Hc c w H) as H'.
  destruct (invoke c w); simpl in H'; auto.
Qed.

Lemma invoke_all_same_names cs w :
  same_names (this w) -> same_names (this (invoke_all cs w)).
Proof. apply invoke_all_inv. apply invoke_same_names. Qed.

Lemma performAction_returns name input w :
  same_names (this w) ->
  answers (this w) name = true ->
  exists r w', performAction name input w = Ret r w'.
Proof.
  intros H Hans.
  destruct (accepts (this w) name (or_else input JNull)) eqn:A.
  - pose proof A as A'. unfold accepts in A'.
    destruct (get (availableActions (this w)) name) as [entry|] eqn:G;
      [|discriminate].
    pose proof (same_names_catalog_ok H name) as Hc.
    rewrite !owns_get, G in Hc.
    destruct (get (actions (this w)) name) as [l|] eqn:Hl;
      [|now specialize (Hc eq_refl)].
    rewrite (performAction_accepted _ _ _ Hans G A Hl). eauto.
  - rewrite (performAction_rejected _ _ _ Hans A). eauto.
Qed.

(** X3.  Whatever is called on a Thing after its construction, the
    catalog and the in-flight lists keep the same names in the same
    order, and every registered action name has its in-flight list.  So
    [performAction] then returns whenever the catalog can be asked about
    the name; when it cannot (an action, or a member of the metadata of
    the named action, is called [hasOwnProperty]) it throws and changes
    nothing.  The calls are followed up to the first registration under
    the name [__proto__], if there is one. *)
Theorem constructed_thing_catalog_invariant
    (id title : string) (type : AtType) (description : option string)
    (cs : list Call) (c : nat) (t : list Effect)
    (name : string) (input : json) :
  let w := invoke_all cs
             (mkWorld (constructor id title type description) c t) in
  same_names (this w)
  /\ catalog_ok (this w)
  /\ (answers (this w) name = true ->
      exists r w', performAction name input w = Ret r w')
  /\ (answers (this w) name = false ->
      performAction name input w = Throw TypeError w).
Proof.
  intros w.
  assert (H : same_names (this w)).
  { unfold w. apply invoke_all_same_names. reflexivity. }
  split; [exact H|]. split; [|split].
  - now apply same_names_catalog_ok.
  - now apply performAction_returns.
  - apply performAction_unanswered.
Qed.

End Invariant.

(** ** Reading resources *)

Section ReadingResources.
Context {C : Collaborators}.
Import Thing.

Lemma find_none_numeric l s :
  (forall a, In a l -> exists n, a_id a = IdNum n) ->
  find (fun action => id_eqb (a_id action) (IdStr s)) l = None.
Proof.
  induction l as [|a r IH]; intros H; simpl; [reflexivity|].
  destruct (H a (or_introl eq_refl)) as [n Hn]. rewrite Hn. simpl.
  apply IH. intros b Hb. apply H. now right.
Qed.

(** X4.  An instance whose identifier is a number cannot be addressed: the
    identifier in a path is text, and the comparison is strict.  If every
    instance under the action name has a numeric identifier, GET and
    DELETE on an instance path answer 404 and change nothing (on a Thing
    with an action named [hasOwnProperty] they throw instead, as for any
    path). *)
Theorem numeric_id_never_found (req : Request) (s : Server) (thing : Ref)
    (x : Thing.t) :
  Things_getThing (things s) (thingId (params req)) = Some thing ->
  nth_error (getThings (things s)) thing = Some x ->
  (forall l a, get (actions x) (actionName (params req)) = Some l ->
               In a l -> exists n, a_id a = IdNum n) ->
  CoapActionIDHandler.get req s
  = (if shadowed (actions x) then Throw TypeError s else Ret (status 404) s)
  /\ CoapActionIDHandler.delete req s
     = (if shadowed (actions x) then Throw TypeError s
        else Ret (status 404) s).
Proof.
  intros Hres Hx Hnum.
  assert (G : getAction x (actionName (params req))
                (IdStr (actionId (params req)))
              = if shadowed (actions x) then Err TypeError else Ok None).
  { rewrite getAction_get. destruct (shadowed (actions x)); [reflexivity|].
    destruct (get (actions x) (actionName (params req))) as [l|] eqn:E;
      [|reflexivity].
    f_equal. apply find_none_numeric. intros a Ha. now apply (Hnum l). }
  split.
  - unfold CoapActionIDHandler.get, bind, getThing, gets. rewrite Hres.
    rewrite (read_result_run _ _ _ Hx), G.
    now destruct (shadowed (actions x)).
  - rewrite (delete_run _ _ Hres Hx), removeAction_run.
    change (this (world_of s x)) with x. rewrite G.
    destruct (shadowed (actions x));
      now rewrite (server_with_same _ _ Hx).
Qed.

(** Resolving a reference does not look into the Things. *)
Lemma Things_getThing_put_thing r i x idx :
  Things_getThing (put_thing r i x) idx = Things_getThing r idx.
Proof.
  destruct r as [y n | l n]; simpl.
  - now destruct i.
  - assert (Hlen : List.length (replace_at l i x) = List.length l).
    { revert i. induction l as [|z r IH]; intros [|i]; simpl; auto. }
    now rewrite Hlen.
Qed.

(** X5.  The handlers that only read.  On a Thing that resolves, GET on
    the properties, the actions and the events answers with what the
    reader of the Thing returns; GET on a property, an action name and an
    action instance answers with what the reader returns or, when the
    reader throws (the Thing has a property, or an action, named
    [hasOwnProperty]), lets the exception through.  In every case the
    server is left exactly as it was.  GET on a property answers 404
    exactly when the Thing can be asked and has no such property, and the
    current value under the property's name when it has. *)
Theorem reading_handlers_change_nothing (req : Request) (s : Server)
    (thing : Ref) (x : Thing.t) :
  Things_getThing (things s) (thingId (params req)) = Some thing ->
  nth_error (getThings (things s)) thing = Some x ->
  CoapPropertiesHandler.get req s
  = Ret (mkResponse None None (Json (JObj (getProperties x)))) s
  /\ CoapPropertyHandler.get req s
     = (if shadowed (properties x) then Throw TypeError s
        else
          Ret (match get (properties x) (propertyName (params req)) with
               | Some p =>
                   mkResponse None None
                     (Json (JObj [(propertyName (params req),
                                   Property_getValue p)]))
               | None => status 404
               end) s)
  /\ (exists ds,
        getActionDescriptions x None = Ok ds
        /\ CoapActionsHandler.get req s
           = Ret (mkResponse None None (Json (JArr (map JObj ds)))) s)
  /\ CoapActionHandler.get req s
     = match getActionDescriptions x (Some (actionName (params req))) with
       | Ok ds => Ret (mkResponse None None (Json (JArr (map JObj ds)))) s
       | Err e => Throw e s
       end
  /\ CoapActionIDHandler.get req s
     = match getAction x (actionName (params req))
               (IdStr (actionId (params req))) with
       | Ok (Some a) =>
           Ret (mkResponse None None (Json (JObj (asActionDescription a)))) s
       | Ok None => Ret (status 404) s
       | Err e => Throw e s
       end
  /\ CoapEventsHandler.get req s
     = Ret (mkResponse None None
              (Json (JArr (getEventDescriptions x None)))) s
  /\ CoapEventHandler.get req s
     = Ret (mkResponse None None
              (Json (JArr (getEventDescriptions x
                             (Some (eventName (params req))))))) s.
Proof.
  intros Hres Hx.
  unfold CoapPropertiesHandler.get, CoapPropertyHandler.get,
    CoapActionsHandler.get, CoapActionHandler.get, CoapActionIDHandler.get,
    CoapEventsHandler.get, CoapEventHandler.get, bind, getThing, gets.
  rewrite Hres. rewrite !(read_run _ _ _ Hx), !(read_result_run _ _ _ Hx).
  split; [reflexivity|]. split; [|split; [|split; [|split; [|split]]]].
  - unfold hasProperty, hasOwnProperty.
    destruct (shadowed (properties x)) eqn:Hs; [reflexivity|]. simpl.
    rewrite owns_get.
    destruct (get (properties x) (propertyName (params req))) eqn:G;
      [|reflexivity].
    now rewrite (read_result_run _ _ _ Hx), getProperty_get, Hs, G.
  - eexists. split; reflexivity.
  - now destruct (getActionDescriptions x (Some (actionName (params req)))).
  - now destruct (getAction x (actionName (params req))
                    (IdStr (actionId (params req)))) as [[a|]|e].
  - reflexivity.
  - reflexivity.
Qed.

(** X6.  PUT then GET.  After a PUT that stored a value, GET on the same
    property answers with that value. *)
Theorem put_then_get_property (req : Request) (s s' : Server) (thing : Ref)
    (v : json) :
  Things_getThing (things s) (thingId (params req)) = Some thing ->
  CoapPropertyHandler.put req s
  = Ret (mkResponse None None
           (Json (JObj [(propertyName (params req), v)]))) s' ->
  exists s'',
    CoapPropertyHandler.get req s'
    = Ret (mkResponse None None
             (Json (JObj [(propertyName (params req), v)]))) s''.
Proof.
  intros Hres Hput.
  destruct (Things_getThing_resolves _ _ Hres) as [x Hx].
  unfold CoapPropertyHandler.put, bind, getThing, gets in Hput.
  rewrite Hres in Hput.
  destruct (helpers.getBody req s) as [body s1|e s1|s1] eqn:Hb;
    try discriminate.
  assert (s1 = s).
  { unfold helpers.getBody in Hb.
    destruct (JSON_parse (payload req)); [|discriminate].
    now injection Hb. }
  subst s1.
  destruct (json_hasOwnProperty body (propertyName (params req)))
    as [[|]|e] eqn:Hin; simpl in Hput; try discriminate.
  destruct (json_hasOwnProperty_Ok _ _ Hin) as [Hm Hv'].
  rewrite (read_result_run _ _ _ Hx) in Hput.
  destruct (hasProperty x (propertyName (params req))) as [[|]|e] eqn:Hh;
    simpl in Hput; try discriminate.
  unfold hasProperty in Hh. apply hasOwnProperty_Ok in Hh.
  destruct Hh as [Hsh Ho].
  unfold try_catch in Hput. rewrite Hm in Hput. simpl in Hput.
  rewrite (call_run _ _ _ Hx) in Hput.
  assert (Hf : exists prop,
             findProperty x (propertyName (params req)) = Ok (Some prop)).
  { rewrite findProperty_get, Hsh. rewrite owns_get in Ho.
    destruct (get (properties x) (propertyName (params req))); [eauto|].
    discriminate. }
  destruct Hf as [prop Hf].
  rewrite (setProperty_run _ _ (world_of s x) Hf), Property_setValue_run
    in Hput.
  destruct (satisfies (p_metadata prop) _) eqn:Hsat; [|discriminate].
  unfold ret at 1 in Hput. cbv beta iota in Hput.
  set (w' := mkWorld _ _ _) in Hput.
  assert (Hx' : nth_error (getThings (things (server_with s thing w'))) thing
                = Some (this w'))
    by (apply (nth_error_put_thing _ _ _ Hx)).
  rewrite (read_result_run _ _ _ Hx') in Hput.
  assert (Hsh' : shadowed (properties (this w')) = false).
  { unfold w'. simpl. rewrite shadowed_set_present; [exact Hsh|exact Ho]. }
  rewrite getProperty_get, Hsh' in Hput. simpl in Hput.
  injection Hput as Hv Hs. subst s'.
  assert (Hres' : Things_getThing (things (server_with s thing w'))
                    (thingId (params req)) = Some thing).
  { unfold server_with. simpl. now rewrite Things_getThing_put_thing. }
  unfold CoapPropertyHandler.get, bind, getThing, gets.
  rewrite Hres'. rewrite (read_result_run _ _ _ Hx').
  assert (Ho' : owns (properties (this w')) (propertyName (params req)) = true).
  { unfold w'. simpl. now rewrite owns_set, String.eqb_refl. }
  unfold hasProperty. rewrite (hasOwnProperty_plain _ _ Hsh'), Ho'.
  cbn [lift]. unfold ret at 1.
  rewrite (read_result_run _ _ _ Hx'), getProperty_get, Hsh'.
  eexists. unfold w'. simpl. now rewrite Hv.
Qed.

End ReadingResources.

(** ** Declared order *)

Section DeclaredOrder.
Context {C : Collaborators}.
Import helpers.

Lemma flat_map_agree (A B : Type) (f g : A -> list B) (l : list A) :
  (forall a, In a l -> f a = g a) -> flat_map f l = flat_map g l.
Proof.
  induction l as [|a r IH]; intros H; simpl; [reflexivity|].
  rewrite (H a (or_introl eq_refl)), IH; [reflexivity|].
  intros b Hb. apply H. now right.
Qed.

Lemma flat_map_get_NoDup (A : Type) (g : obj A) :
  NoDup (map fst g) ->
  flat_map (fun k => match get g k with
                     | Some v => [(k, v)]
                     | None => []
                     end) (map fst g) = g.
Proof.
  induction g as [|[k v] r IH]; simpl; [reflexivity|].
  intros H. inversion H as [|? ? Hk Hr]; subst.
  rewrite String.eqb_refl. simpl. f_equal.
  rewrite <- (IH Hr) at 2. apply flat_map_agree.
  intros k' Hk'. destruct (String.eqb k' k) eqn:E; [|reflexivity].
  apply String.eqb_eq in E. subst. contradiction.
Qed.

Lemma group_in_plain (group : option (obj Metadata)) :
  plain_names group ->
  group_in (@own_entries Metadata) group = group_in (fun g => g) group.
Proof.
  destruct group as [g|]; simpl; [|reflexivity].
  intros [Hn Hp]. unfold own_entries, own_keys.
  rewrite (enum_order_plain _ Hp). now apply flat_map_get_NoDup.
Qed.

(** X7.  When, in every group, the names are distinct and none is an array
    index, the encoder emits the resources in declared order (and throws
    when a resource cannot be asked for its links, as in every case). *)
Theorem getCoreLinkFormat_declared_order (d : Description) :
  plain_names (d_properties d) ->
  plain_names (d_actions d) ->
  plain_names (d_events d) ->
  getCoreLinkFormat d
  = if hides_method d then Err TypeError else Ok (declared_encoding d).
Proof.
  intros Hp Ha He. rewrite getCoreLinkFormat_run.
  destruct (hides_method d); [reflexivity|]. f_equal.
  unfold declared_encoding, encoding.
  now rewrite (group_in_plain _ Hp), (group_in_plain _ Ha),
    (group_in_plain _ He).
Qed.

End DeclaredOrder.

(** ** Href prefixes *)

Section HrefPrefix.
Context {C : Collaborators}.
Import Thing.

Lemma get_map_values (A B : Type) (f : A -> B) (o : obj A) k :
  get (map (fun kv => (fst kv, f (snd kv))) o) k
  = match get o k with Some v => Some (f v) | None => None end.
Proof.
  induction o as [|[k' v] r IH]; simpl; [reflexivity|].
  destruct (String.eqb k k'); [reflexivity | exact IH].
Qed.

(** X8.  [setHrefPrefix] reaches the Thing, every property and every in-flight
    action instance, and changes nothing else about them: names, values
    and instances stay; [getHref] then answers the prefix, or the root
    for the empty prefix. *)
Theorem setHrefPrefix_propagates (prefix : string) (w : World) :
  exists w',
    setHrefPrefix prefix w = Ret tt w'
    /\ hrefPrefix (this w') = prefix
    /\ getHref (this w') = (if String.eqb prefix "" then "/" else prefix)
    /\ (forall k,
          get (properties (this w')) k
          = match get (properties (this w)) k with
            | Some p => Some (Property_setHrefPrefix p prefix)
            | None => None
            end)
    /\ (forall k, getProperty (this w') k = getProperty (this w) k)
    /\ (forall k,
          get (actions (this w')) k
          = match get (actions (this w)) k with
            | Some l => Some (map (fun a => Action_setHrefPrefix a prefix) l)
            | None => None
            end)
    /\ trace w' = trace w.
Proof.
  unfold setHrefPrefix, bind, update, modify. simpl.
  eexists. split; [reflexivity|]. simpl.
  split; [reflexivity|]. split.
  { unfold getHref. simpl. now destruct (String.eqb prefix ""). }
  split.
  { intros k.
    apply (get_map_values (fun p => Property_setHrefPrefix p prefix)). }
  split.
  - intros k. rewrite !getProperty_get. simpl.
    unfold shadowed.
    rewrite !owns_get,
      !(get_map_values (fun p => Property_setHrefPrefix p prefix)).
    destruct (get (properties (this w)) "hasOwnProperty"); [reflexivity|].
    now destruct (get (properties (this w)) k).
  - split; [|reflexivity]. intros k.
    apply (get_map_values (map (fun a => Action_setHrefPrefix a prefix))).
Qed.

End HrefPrefix.

(** ** Loops that rewrite the entries of an object *)

Section EntryLoop.
Variables (E V : Type) (upd : string -> E -> E) (val : string -> E -> V).
Hypothesis upd_idem : forall n e, upd n (upd n e) = upd n e.
Hypothesis val_upd : forall n e, val n (upd n e) = val n e.

Lemma get_rewrite_entries names o k :
  get (rewrite_entries upd names o) k
  = if existsb (String.eqb k) names
    then match get o k with Some e => Some (upd k e) | None => None end
    else get o k.
Proof.
  revert o. induction names as [|n r IH]; intros o; simpl; [reflexivity|].
  rewrite IH. destruct (String.eqb k n) eqn:E1; simpl.
  - apply String.eqb_eq in E1. subst n.
    destruct (get o k) as [e|] eqn:G.
    + rewrite get_set_same, upd_idem.
      now destruct (existsb (String.eqb k) r).
    + rewrite G. now destruct (existsb (String.eqb k) r).
  - destruct (get o n) as [e|] eqn:G; [|reflexivity].
    rewrite get_set, E1. reflexivity.
Qed.

Lemma keys_rewrite_entries names o :
  map fst (rewrite_entries upd names o) = map fst o.
Proof.
  revert o. induction names as [|n r IH]; intros o; simpl; [reflexivity|].
  rewrite IH. destruct (get o n) as [e|] eqn:G; [|reflexivity].
  apply keys_set_present. rewrite owns_get. now rewrite G.
Qed.

Lemma set_get_same (A : Type) (o : obj A) k v : get o k = Some v -> set o k v = o.
Proof.
  induction o as [|[k' v'] r IH]; simpl; [discriminate|].
  destruct (String.eqb k k') eqn:E1.
  - apply String.eqb_eq in E1. subst. now intros [= ->].
  - intros H. now rewrite IH.
Qed.

Lemma rewrite_entries_fixed names o :
  (forall k e, get o k = Some e -> upd k e = e) ->
  rewrite_entries upd names o = o.
Proof.
  intros H. induction names as [|n r IH]; simpl; [reflexivity|].
  destruct (get o n) as [e|] eqn:G; [|exact IH].
  rewrite (H _ _ G), (set_get_same _ _ G). exact IH.
Qed.

(** Rewriting all entries twice is rewriting them once. *)
Lemma rewrite_entries_twice o :
  rewrite_entries upd (own_keys (rewrite_entries upd (own_keys o) o))
    (rewrite_entries upd (own_keys o) o)
  = rewrite_entries upd (own_keys o) o.
Proof.
  apply rewrite_entries_fixed. intros k e. rewrite get_rewrite_entries.
  destruct (existsb (String.eqb k) (own_keys o)) eqn:E1.
  - destruct (get o k); [|discriminate]. intros [= <-]. apply upd_idem.
  - intros G. rewrite existsb_own_keys, owns_get, G in E1.
    discriminate.
Qed.

(** After all entries were rewritten, each is the rewritten entry. *)
Lemma get_rewrite_all o k :
  get (rewrite_entries upd (own_keys o) o) k
  = match get o k with Some e => Some (upd k e) | None => None end.
Proof.
  rewrite get_rewrite_entries, existsb_own_keys, owns_get.
  now destruct (get o k).
Qed.

(** The collected values do not depend on which entries were already
    rewritten. *)
Lemma collect_related names acc o o' :
  (forall k, get o' k = get o k
             \/ get o' k = match get o k with
                           | Some e => Some (upd k e)
                           | None => None
                           end) ->
  collect upd val names acc o' = collect upd val names acc o.
Proof.
  revert acc o o'. induction names as [|n r IH]; intros acc o o' R; simpl;
    [reflexivity|].
  destruct (get o n) as [e|] eqn:G.
  - assert (G' : exists e', get o' n = Some e' /\ upd n e' = upd n e
                           /\ val n e' = val n e).
    { destruct (R n) as [H|H]; rewrite G in H; rewrite H.
      - now exists e.
      - exists (upd n e). now rewrite upd_idem, val_upd. }
    destruct G' as [e' [-> [Hu Hv]]]. rewrite Hu, Hv.
    apply IH. intros k. rewrite !get_set.
    destruct (String.eqb k n); [now left | apply R].
  - assert (G' : get o' n = None).
    { destruct (R n) as [H|H]; rewrite G in H; exact H. }
    rewrite G'. now apply IH.
Qed.

End EntryLoop.

(** ** Rendering twice *)

Section RenderingTwice.
Context {C : Collaborators}.
Import Thing.

Lemma set_availableActions_same x :
  set_availableActions x (availableActions x) = x.
Proof. now destruct x. Qed.

Lemma set_availableEvents_same x :
  set_availableEvents x (availableEvents x) = x.
Proof. now destruct x. Qed.

Lemma run_loop_actions prefix names acc x :
  run_loop (action_links_value prefix) (action_links_state prefix) names acc x
  = (collect (linked_action prefix)
       (fun name e => aa_metadata (linked_action prefix name e))
       names acc (availableActions x),
     set_availableActions x
       (rewrite_entries (linked_action prefix) names (availableActions x))).
Proof.
  revert acc x. induction names as [|n r IH]; intros acc x; simpl.
  - now rewrite set_availableActions_same.
  - rewrite IH. unfold action_links_value, action_links_state.
    destruct (get (availableActions x) n); reflexivity.
Qed.

Lemma run_loop_events prefix names acc x :
  run_loop (event_links_value prefix) (event_links_state prefix) names acc x
  = (collect (linked_event prefix)
       (fun name e => ae_metadata (linked_event prefix name e))
       names acc (availableEvents x),
     set_availableEvents x
       (rewrite_entries (linked_event prefix) names (availableEvents x))).
Proof.
  revert acc x. induction names as [|n r IH]; intros acc x; simpl.
  - now rewrite set_availableEvents_same.
  - rewrite IH. unfold event_links_value, event_links_state.
    destruct (get (availableEvents x) n); reflexivity.
Qed.

(** The Thing after a rendering, spelled out. *)
Lemma after_description_eq x :
  after_description x
  = set_availableEvents
      (set_availableActions x
         (rewrite_entries (linked_action (hrefPrefix x))
            (own_keys (availableActions x)) (availableActions x)))
      (rewrite_entries (linked_event (hrefPrefix x))
         (own_keys (availableEvents x)) (availableEvents x)).
Proof.
  unfold after_description, after_actions.
  rewrite run_loop_events, run_loop_actions. reflexivity.
Qed.

Lemma own_keys_rewrite_entries (E : Type) (upd : string -> E -> E) names
    (o : obj E) :
  own_keys (rewrite_entries upd names o) = own_keys o.
Proof. unfold own_keys. now rewrite keys_rewrite_entries. Qed.

Lemma after_description_twice x :
  after_description (after_description x) = after_description x.
Proof.
  rewrite (after_description_eq (after_description x)).
  rewrite (after_description_eq x). simpl.
  rewrite !rewrite_entries_twice by reflexivity. reflexivity.
Qed.

Lemma description_of_after x :
  description_of (after_description x) = description_of x.
Proof.
  unfold description_of.
  destruct (after_description_same x)
    as (H1 & H2 & H3 & H4 & H5 & H6 & H7 & H8 & H9 & H10 & H11).
  rewrite H1, H2, H3, H4, H5, H10, H11.
  assert (Hp : getPropertyDescriptions (after_description x)
               = getPropertyDescriptions x).
  { unfold getPropertyDescriptions. now rewrite H6. }
  rewrite Hp. unfold after_actions.
  rewrite !run_loop_events, !run_loop_actions. simpl.
  rewrite ?H10. rewrite (after_description_eq x). simpl.
  rewrite !own_keys_rewrite_entries.
  f_equal.
  - f_equal. apply collect_related; [reflexivity | reflexivity|].
    intros k. right. apply get_rewrite_all. reflexivity.
  - f_equal. apply collect_related; [reflexivity | reflexivity|].
    intros k. right. apply get_rewrite_all. reflexivity.
Qed.

(** X9.  Rendering is idempotent: a second [asThingDescription] returns the
    same description and leaves the Thing as the first one left it. *)
Theorem asThingDescription_idempotent (w : World) :
  exists d w1,
    asThingDescription w = Ret d w1
    /\ asThingDescription w1 = Ret d w1.
Proof.
  rewrite asThingDescription_run. eexists. eexists.
  split; [reflexivity|].
  rewrite asThingDescription_run. simpl.
  now rewrite after_description_twice, description_of_after.
Qed.


End RenderingTwice.

(** ** Subscribers *)

Section SubscriberFacts.
Context {C : Collaborators}.
Import Thing.

Lemma set_has_In (l : list Subscriber) ws :
  set_has Nat.eqb l ws = true <-> In ws l.
Proof.
  unfold set_has. rewrite existsb_exists. split.
  - intros [y [Hy E]]. apply Nat.eqb_eq in E. now subst.
  - intros H. exists ws. split; [exact H | apply Nat.eqb_refl].
Qed.

Lemma set_has_delete (l : list Subscriber) ws ws' :
  set_has Nat.eqb (set_delete Nat.eqb l ws) ws'
  = set_has Nat.eqb l ws' && negb (Nat.eqb ws ws').
Proof.
  unfold set_has, set_delete. induction l as [|y r IH]; simpl; [reflexivity|].
  destruct (Nat.eqb ws y) eqn:E1; simpl.
  - apply Nat.eqb_eq in E1. subst y. rewrite IH.
    destruct (Nat.eqb ws' ws) eqn:E2; simpl; [|reflexivity].
    apply Nat.eqb_eq in E2. subst. rewrite Nat.eqb_refl. simpl.
    now rewrite andb_false_r.
  - rewrite IH. destruct (Nat.eqb ws' y) eqn:E2; simpl; [|reflexivity].
    apply Nat.eqb_eq in E2. subst. now rewrite E1.
Qed.

Lemma without_has ws e : set_has Nat.eqb (ae_subscribers (without ws e)) ws = false.
Proof.
  unfold without. destruct (set_has Nat.eqb (ae_subscribers e) ws) eqn:E1;
    [|exact E1].
  simpl. now rewrite set_has_delete, Nat.eqb_refl, andb_false_r.
Qed.

Lemma without_idem ws e : without ws (without ws e) = without ws e.
Proof.
  unfold without at 1. now rewrite without_has.
Qed.

Lemma removal_loop ws names x :
  fold_left (fun x name => drop_subscriber ws name x) names x
  = set_availableEvents x
      (rewrite_entries (fun _ => without ws) names (availableEvents x)).
Proof.
  revert x. induction names as [|n r IH]; intros x; simpl.
  - now rewrite set_availableEvents_same.
  - rewrite IH. unfold drop_subscriber at 1 2.
    destruct (get (availableEvents x) n) as [e|] eqn:G;
      [|reflexivity].
    assert (Hstep :
              (if set_has Nat.eqb (ae_subscribers e) ws
               then set_availableEvents x
                      (set (availableEvents x) n
                         (mkAvailableEvent (ae_metadata e)
                            (set_delete Nat.eqb (ae_subscribers e) ws)))
               else x)
              = set_availableEvents x
                  (set (availableEvents x) n (without ws e))).
    { unfold without.
      destruct (set_has Nat.eqb (ae_subscribers e) ws); [reflexivity|].
      now rewrite (set_get_same _ _ G), set_availableEvents_same. }
    rewrite Hstep. reflexivity.
Qed.

Lemma deliveries_In subs ws message message' :
  In (Sent ws message) (deliveries subs message') -> In ws subs.
Proof.
  unfold deliveries. rewrite in_map_iff. intros [y [[= -> _] Hy]].
  now apply filter_In in Hy.
Qed.

(** X11.  [removeSubscriber ws] on a Thing whose catalog of events can be
    asked: afterwards the socket is in no subscriber set of the Thing,
    neither the Thing-wide one nor that of any event, so no notification
    of any kind is delivered to it; the other subscribers stay where they
    were.  When the catalog cannot be asked (an event is named
    [hasOwnProperty]) the socket leaves the Thing-wide set and the call
    then throws. *)
Theorem removeSubscriber_silences (ws : Subscriber) (w : World) :
  (shadowed (availableEvents (this w)) = false ->
   exists w',
    removeSubscriber ws w = Ret tt w'
    /\ ~ In ws (subscribers (this w'))
    /\ (forall name entry,
          get (availableEvents (this w')) name = Some entry ->
          ~ In ws (ae_subscribers entry))
    /\ (forall message message',
          ~ In (Sent ws message)
               (deliveries (subscribers (this w')) message'))
    /\ (forall name entry message message',
          get (availableEvents (this w')) name = Some entry ->
          ~ In (Sent ws message)
               (deliveries (ae_subscribers entry) message'))
    /\ (forall ws', ws' <> ws ->
          (In ws' (subscribers (this w')) <-> In ws' (subscribers (this w)))
          /\ forall name,
               match get (availableEvents (this w')) name,
                     get (availableEvents (this w)) name with
               | Some e', Some e =>
                   In ws' (ae_subscribers e') <-> In ws' (ae_subscribers e)
               | None, None => True
               | _, _ => False
               end))
  /\ (shadowed (availableEvents (this w)) = true ->
      removeSubscriber ws w
      = Throw TypeError
          (mkWorld (unsubscribed ws (this w)) (counter w) (trace w))
      /\ ~ In ws (subscribers (unsubscribed ws (this w)))).
Proof.
  rewrite removeSubscriber_run.
  set (x0 := unsubscribed ws (this w)).
  assert (Hs : forall ws', set_has Nat.eqb (subscribers x0) ws'
                           = set_has Nat.eqb (subscribers (this w)) ws'
                             && negb (Nat.eqb ws ws')).
  { intros ws'. unfold x0, unsubscribed.
    destruct (set_has Nat.eqb (subscribers (this w)) ws) eqn:E1; simpl.
    - apply set_has_delete.
    - destruct (Nat.eqb ws ws') eqn:E2; simpl; [|now rewrite andb_true_r].
      apply Nat.eqb_eq in E2. subst. now rewrite E1. }
  assert (N1 : ~ In ws (subscribers x0)).
  { intros H. apply set_has_In in H. rewrite Hs, Nat.eqb_refl in H.
    now rewrite andb_false_r in H. }
  split; intros Hsh; rewrite Hsh; [|now split].
  rewrite removal_loop.
  eexists. split; [reflexivity|]. simpl.
  assert (He : availableEvents x0 = availableEvents (this w))
    by (unfold x0, unsubscribed; now destruct (set_has _ _ _)).
  assert (Hg : forall name,
             get (rewrite_entries (fun _ => without ws)
                    (own_keys (availableEvents (this w)))
                    (availableEvents x0)) name
             = match get (availableEvents (this w)) name with
               | Some e => Some (without ws e)
               | None => None
               end).
  { intros name. rewrite He. apply get_rewrite_all.
    intros _ e. apply without_idem. }
  assert (N2 : forall name entry,
             get (rewrite_entries (fun _ => without ws)
                    (own_keys (availableEvents (this w)))
                    (availableEvents x0)) name = Some entry ->
             ~ In ws (ae_subscribers entry)).
  { intros name entry. rewrite Hg.
    destruct (get (availableEvents (this w)) name) as [e|]; [|discriminate].
    intros [= <-] H. apply set_has_In in H. now rewrite without_has in H. }
  split; [exact N1|]. split; [exact N2|]. split.
  { intros m m' H. apply N1. eapply deliveries_In, H. }
  split.
  { intros name entry m m' G H. apply (N2 _ _ G). eapply deliveries_In, H. }
  intros ws' Hne. split.
  - rewrite <- !set_has_In, Hs.
    destruct (Nat.eqb ws ws') eqn:E1.
    + apply Nat.eqb_eq in E1. congruence.
    + now rewrite andb_true_r.
  - intros name. rewrite Hg.
    destruct (get (availableEvents (this w)) name) as [e|]; [|exact I].
    unfold without.
    destruct (set_has Nat.eqb (ae_subscribers e) ws); [|tauto].
    simpl. rewrite <- !set_has_In, set_has_delete.
    destruct (Nat.eqb ws ws') eqn:E1.
    + apply Nat.eqb_eq in E1. congruence.
    + now rewrite andb_true_r.
Qed.

End SubscriberFacts.

(** ** Composition of model operations *)

Section Composition.
Context {C : Collaborators}.
Import Thing.

Lemma set_set (A : Type) (o : obj A) k v v' : set (set o k v) k v' = set o k v'.
Proof.
  induction o as [|[k' v0] r IH]; simpl.
  - now rewrite String.eqb_refl.
  - destruct (String.eqb k k') eqn:E1; simpl.
    + now rewrite String.eqb_refl.
    + now rewrite E1, IH.
Qed.

Lemma find_app_fresh l a aid :
  (forall b, In b l -> id_eqb (a_id b) aid = false) ->
  id_eqb (a_id a) aid = true ->
  find (fun action => id_eqb (a_id action) aid) (l ++ [a]) = Some a
  /\ splice_first (l ++ [a]) aid = l.
Proof.
  intros Hl Ha. induction l as [|b r IH]; simpl.
  - now rewrite Ha.
  - rewrite (Hl b (or_introl eq_refl)).
    destruct IH as [IH1 IH2]; [intros c Hc; apply Hl; now right|].
    now rewrite IH1, IH2.
Qed.

Lemma id_eqb_refl a : id_eqb a a = true.
Proof. destruct a; simpl; [apply Z.eqb_refl | apply String.eqb_refl]. Qed.

(** X12.  Perform, then remove, on a Thing whose catalog can be asked
    about the name and whose in-flight lists can be looked up.  When an
    accepted action gets an identifier no instance in its list has yet,
    [getAction] finds the new instance under that identifier, and
    removing it cancels that instance and gives the Thing back as it was
    before [performAction]. *)
Theorem performAction_then_removeAction (w : World) (name : string)
    (input : json) (entry : AvailableAction) (l : list Action) :
  answers (this w) name = true ->
  shadowed (actions (this w)) = false ->
  get (availableActions (this w)) name = Some entry ->
  accepts (this w) name (or_else input JNull) = true ->
  get (actions (this w)) name = Some l ->
  (forall b, In b l ->
             id_eqb (a_id b) (cls_id (aa_class entry) (counter w)) = false) ->
  exists a w1 w2,
    performAction name input w = Ret (Some a) w1
    /\ a_id a = cls_id (aa_class entry) (counter w)
    /\ getAction (this w1) name (a_id a) = Ok (Some a)
    /\ removeAction name (a_id a) w1 = Ret true w2
    /\ this w2 = this w
    /\ trace w2 = trace w1 ++ [Cancelled (a_id a)].
Proof.
  intros Hans Hsh He Ha Hl Hfresh.
  rewrite (performAction_accepted _ _ _ Hans He Ha Hl).
  set (a := instance_of entry input w).
  assert (Hid : a_id a = cls_id (aa_class entry) (counter w)) by reflexivity.
  destruct (find_app_fresh l a (a_id a)) as [Hf Hs].
  { intros b Hb. rewrite Hid. now apply Hfresh. }
  { apply id_eqb_refl. }
  assert (Hg : getAction
                 (set_actions (this w) (set (actions (this w)) name (l ++ [a])))
                 name (a_id a) = Ok (Some a)).
  { rewrite getAction_get. cbn [actions set_actions].
    rewrite shadowed_set_present, Hsh, get_set_same; [now rewrite Hf|].
    rewrite owns_get. now rewrite Hl. }
  eexists. eexists. eexists. split; [reflexivity|].
  split; [exact Hid|]. cbn [this counter trace]. split; [exact Hg|].
  rewrite removeAction_run. cbn [this counter trace].
  rewrite Hg. cbn [actions set_actions]. rewrite get_set_same, Hs.
  split; [reflexivity|]. cbn [this counter trace].
  rewrite set_set, (set_get_same _ _ Hl).
  split; [|reflexivity]. now destruct (this w).
Qed.

(** X13.  An event added to the log is the last one reported, under its own
    name and in the whole log; the reports of other names are as before.
    This holds in the state [addEvent] leaves, whether it returns or, the
    catalog of events not being askable, throws. *)
Theorem addEvent_then_getEventDescriptions (event : Event) (w : World)
    (name : string) :
  name <> "" ->
  exists w',
    (addEvent event w = Ret tt w' \/ addEvent event w = Throw TypeError w')
    /\ (shadowed (availableEvents (this w)) = false ->
        addEvent event w = Ret tt w')
    /\ getEventDescriptions (this w') None
       = getEventDescriptions (this w) None ++ [asEventDescription event]
    /\ getEventDescriptions (this w') (Some name)
       = getEventDescriptions (this w) (Some name)
         ++ (if String.eqb (e_name event) name
             then [asEventDescription event] else []).
Proof.
  intros Hn. unfold addEvent, bind, update, modify.
  rewrite eventNotify_run. cbn [this counter trace].
  cbn [availableEvents set_events].
  assert (E1 : String.eqb name "" = false) by now apply String.eqb_neq.
  destruct (shadowed (availableEvents (this w))).
  - eexists. split; [right; reflexivity|]. split; [discriminate|].
    unfold getEventDescriptions. simpl. rewrite E1. split.
    + now rewrite map_app.
    + rewrite filter_app, map_app. simpl.
      now destruct (String.eqb (e_name event) name).
  - eexists. split; [left; reflexivity|]. split; [reflexivity|].
    unfold getEventDescriptions. simpl. rewrite E1. split.
    + now rewrite map_app.
    + rewrite filter_app, map_app. simpl.
      now destruct (String.eqb (e_name event) name).
Qed.

Lemma post_loop_all_skipped thing body names response skip s :
  (forall k, In k names -> skip k = true) ->
  post_loop thing body names response skip s = Ret response s.
Proof.
  induction names as [|n r IH]; intros H; simpl; [reflexivity|].
  rewrite (H n (or_introl eq_refl)). apply IH.
  intros k Hk. apply H. now right.
Qed.

(** X14.  POST on an action name looks only at the body entry of that name:
    when the body has no such entry the answer is 201 with an empty
    object and nothing changes, whatever the other entries hold. *)
Theorem post_action_ignores_other_names (req : Request) (s : Server)
    (thing : Ref) (body : json) :
  Things_getThing (things s) (thingId (params req)) = Some thing ->
  JSON_parse (payload req) = Some body ->
  (forall k, In k (json_keys body) -> k <> actionName (params req)) ->
  CoapActionHandler.post req s
  = Ret (mkResponse (Some 201) None (Json (JObj []))) s.
Proof.
  intros Hres Hp Hk.
  unfold CoapActionHandler.post, bind, getThing, gets. rewrite Hres.
  unfold helpers.getBody. rewrite Hp. unfold ret.
  rewrite post_loop_all_skipped; [reflexivity|].
  intros k Hin. apply negb_true_iff. apply String.eqb_neq. now apply Hk.
Qed.

End Composition.

(** ** Subscriber sets never repeat a socket *)

Section SubscriberSets.
Context {C : Collaborators}.
Import Thing.

Lemma set_add_NoDup (l : list Subscriber) ws :
  NoDup l -> NoDup (set_add Nat.eqb l ws).
Proof.
  intros H. unfold set_add.
  destruct (set_has Nat.eqb l ws) eqn:E1; [exact H|].
  apply (Permutation_NoDup (l := ws :: l)).
  - apply Permutation_cons_append.
  - constructor; [|exact H]. intros Hin. apply set_has_In in Hin. congruence.
Qed.

Lemma set_delete_NoDup (l : list Subscriber) ws :
  NoDup l -> NoDup (set_delete Nat.eqb l ws).
Proof. intros H. unfold set_delete. now apply NoDup_filter. Qed.

Lemma deliveries_NoDup subs message :
  NoDup subs -> NoDup (deliveries subs message).
Proof.
  intros H. unfold deliveries.
  assert (Hf : NoDup (filter (fun ws => send_ok ws message) subs))
    by now apply NoDup_filter.
  induction Hf as [|ws l Hn Hl IH]; simpl; constructor; [|exact IH].
  rewrite in_map_iff. intros [y [[= ->] Hy]]. contradiction.
Qed.

Lemma sets_ok_events x o :
  NoDup (subscribers x) ->
  (forall name e, get o name = Some e -> NoDup (ae_subscribers e)) ->
  sets_ok (set_availableEvents x o).
Proof. intros H1 H2. split; [exact H1 | exact H2]. Qed.

Lemma sets_ok_drop_subscriber ws name x :
  sets_ok x -> sets_ok (drop_subscriber ws name x).
Proof.
  intros [H1 H2]. unfold drop_subscriber.
  destruct (get (availableEvents x) name) as [e0|] eqn:G; [|now split].
  destruct (set_has _ _ _); [|now split].
  apply sets_ok_events; [exact H1|].
  intros n e. rewrite get_set.
  destruct (String.eqb n name); [|apply H2].
  intros [= <-]. simpl. apply set_delete_NoDup. now apply (H2 name).
Qed.

Lemma sets_ok_unsubscribed ws x : sets_ok x -> sets_ok (unsubscribed ws x).
Proof.
  intros [H1 H2]. unfold unsubscribed.
  destruct (set_has _ _ _); [|now split].
  split; [simpl; now apply set_delete_NoDup | exact H2].
Qed.

Lemma invoke_sets_ok c w :
  sets_ok (this w) -> sets_ok (this (state_of (invoke c w))).
Proof.
  intros [H1 H2]. destruct c; simpl.
  - unfold addProperty, bind, gets, update, modify. simpl.
    destruct (replaces_prototype _ _); now split.
  - unfold removeProperty, bind, eval, update, modify.
    destruct (hasOwnProperty _ _) as [[|]|e]; simpl; now split.
  - unfold setProperty, bind, eval.
    destruct (findProperty (this w) name) as [[prop|]|e]; simpl;
      try (now split).
    rewrite Property_setValue_run.
    destruct (satisfies _ _); simpl; now split.
  - unfold addEvent, bind, update, modify. rewrite eventNotify_run.
    simpl. destruct (shadowed _); simpl; now split.
  - unfold addAvailableEvent, bind, gets, update, modify. simpl.
    destruct (replaces_prototype _ _); [now split|]. simpl.
    apply sets_ok_events; [exact H1|].
    intros n e. rewrite get_set.
    destruct (String.eqb n name); [|apply H2].
    intros [= <-]. simpl. constructor.
  - unfold bind. rewrite performAction_run.
    destruct (shadowed (availableActions (this w))); [now split|].
    destruct (get (availableActions (this w)) name) as [entry|];
      [|now split].
    destruct (md_shadowed (aa_metadata entry)); [now split|].
    destruct (accepts (this w) name (or_else input JNull)); [|now split].
    cbv zeta.
    destruct (get (actions (this w)) name) as [l|]; now split.
  - unfold bind. rewrite removeAction_run.
    destruct (getAction (this w) name a) as [[act|]|e]; simpl;
      try (now split).
    destruct (get (actions (this w)) name); now split.
  - unfold addAvailableAction, bind, gets, update, modify. simpl.
    destruct (replaces_prototype _ _); now split.
  - unfold addSubscriber, update, modify. simpl.
    split; [now apply set_add_NoDup | exact H2].
  - rewrite removeSubscriber_run.
    destruct (shadowed _); simpl.
    + now apply sets_ok_unsubscribed.
    + apply (fold_left_inv sets_ok).
      * intros n y Hy. now apply sets_ok_drop_subscriber.
      * now apply sets_ok_unsubscribed.
  - rewrite addEventSubscriber_run.
    destruct (shadowed _); simpl; [now split|].
    unfold take_subscriber.
    destruct (get (availableEvents (this w)) name) as [e0|] eqn:G;
      [|now split].
    apply sets_ok_events; [exact H1|].
    intros n e. rewrite get_set.
    destruct (String.eqb n name); [|apply H2].
    intros [= <-]. simpl. apply set_add_NoDup. now apply (H2 name).
  - rewrite removeEventSubscriber_run.
    destruct (shadowed _); simpl; [now split|].
    now apply sets_ok_drop_subscriber.
  - unfold setHrefPrefix, bind, update, modify. simpl. now split.
  - unfold setUiHref, update, modify. simpl. now split.
  - unfold bind. rewrite asThingDescription_run. simpl.
    rewrite after_description_eq. apply sets_ok_events; [exact H1|].
    intros n e. rewrite get_rewrite_all by reflexivity.
    destruct (get (availableEvents (this w)) n) as [e0|] eqn:G;
      [|discriminate].
    intros [= <-]. simpl. now apply (H2 n).
Qed.

Lemma invoke_all_sets_ok cs w :
  sets_ok (this w) -> sets_ok (this (invoke_all cs w)).
Proof. apply invoke_all_inv. apply invoke_sets_ok. Qed.

(** X15.  Whatever is called on a Thing after its construction, a fan-out
    delivers a message to each subscriber at most once: no subscriber set
    of the Thing ever holds a socket twice.  The calls are followed up to
    the first registration under the name [__proto__], if there is one. *)
Theorem constructed_thing_notifies_once
    (id title : string) (type : AtType) (description : option string)
    (cs : list Call) (c : nat) (t : list Effect) (message : string) :
  let w := invoke_all cs
             (mkWorld (constructor id title type description) c t) in
  NoDup (deliveries (subscribers (this w)) message)
  /\ forall name e,
       get (availableEvents (this w)) name = Some e ->
       NoDup (deliveries (ae_subscribers e) message).
Proof.
  intros w.
  assert (H : sets_ok (this w)).
  { unfold w. apply invoke_all_sets_ok. split; simpl; [constructor|].
    intros n e. discriminate. }
  destruct H as [H1 H2]. split.
  - now apply deliveries_NoDup.
  - intros n e G. apply deliveries_NoDup. now apply (H2 n).
Qed.

End SubscriberSets.

(** ** The href prefixes the server assigns *)

Section ServerPrefixes.
Import Thing CoapWebThingServer.

Lemma setHrefPrefix_run prefix w :
  setHrefPrefix prefix w
  = Ret tt (mkWorld (prefixed prefix (this w)) (counter w) (trace w)).
Proof. reflexivity. Qed.

Lemma nth_error_prefixed_from base k l i :
  nth_error (prefixed_from base k l) i
  = match nth_error l i with
    | Some x => Some (prefixed (base ++ "/" ++ nat_text (k + i)) x)
    | None => None
    end.
Proof.
  revert k i. induction l as [|x r IH]; intros k [|i]; simpl; try reflexivity.
  - now rewrite Nat.add_0_r.
  - rewrite IH. now rewrite Nat.add_succ_r.
Qed.

Lemma length_prefixed_from base k l :
  List.length (prefixed_from base k l) = List.length l.
Proof.
  revert k. induction l as [|x r IH]; intros k; simpl; [reflexivity|].
  now rewrite IH.
Qed.

Lemma set_prefixes_loop base rest :
  forall done s,
    getThings (things s) = done ++ rest ->
    exists s',
      for_of (seq (List.length done) (List.length rest))
        (fun i => call i (setHrefPrefix (base ++ "/" ++ nat_text i))) s
      = Ret tt s'
      /\ getThings (things s')
         = done ++ prefixed_from base (List.length done) rest
      /\ (forall l n, things s = MultipleThings l n ->
                      exists l', things s' = MultipleThings l' n).
Proof.
  induction rest as [|x r IH]; intros done s Hs; simpl.
  - exists s. unfold ret. rewrite Hs. eauto.
  - unfold bind.
    assert (Hx : nth_error (getThings (things s)) (List.length done) = Some x)
      by (rewrite Hs; apply nth_error_middle).
    rewrite (call_run _ _ _ Hx), setHrefPrefix_run. simpl.
    set (s1 := server_with s (List.length done) _).
    assert (H1 : getThings (things s1)
                 = (done ++ [prefixed (base ++ "/" ++ nat_text (List.length done)) x])
                   ++ r).
    { unfold s1, server_with. simpl.
      rewrite getThings_put_thing, Hs, replace_at_middle.
      now rewrite <- app_assoc. }
    destruct (IH _ _ H1) as [s' [Hrun [Hl Hm]]].
    rewrite length_app in Hrun, Hl. simpl in Hrun, Hl.
    rewrite Nat.add_1_r in Hrun, Hl. rewrite Hrun.
    exists s'. split; [reflexivity|]. split.
    + rewrite Hl, <- app_assoc. reflexivity.
    + intros l n Hln. apply (Hm (replace_at l (List.length done)
                                   (prefixed (base ++ "/"
                                              ++ nat_text (List.length done)) x)) n).
      unfold s1, server_with. simpl. now rewrite Hln.
Qed.

End ServerPrefixes.

(** ** Decimal names of positions *)

Section DecimalNames.

Lemma digits_value_string_of_uint d acc :
  digits_value (NilEmpty.string_of_uint d) acc
  = Some (N.of_nat (Nat.of_uint_acc d (N.to_nat acc))).
Proof.
  revert acc. induction d; intros acc; simpl NilEmpty.string_of_uint;
    [simpl; now rewrite N2Nat.id | ..];
    unfold digits_value; fold digits_value;
    match goal with
    | |- context [is_digit ?c] =>
        replace (is_digit c) with true by reflexivity
    end;
    rewrite IHd; do 2 f_equal; simpl Nat.of_uint_acc;
    rewrite Nat.tail_mul_spec; f_equal; lia.
Qed.

Lemma to_uint_unorm n : Nat.to_uint n = Decimal.unorm (Nat.to_uint n).
Proof.
  rewrite <- (DecimalNat.Unsigned.to_of (Nat.to_uint n)).
  now rewrite DecimalNat.Unsigned.of_to.
Qed.

Lemma unorm_head_zero d d' : Decimal.unorm d = Decimal.D0 d' -> d' = Decimal.Nil.
Proof.
  unfold Decimal.unorm.
  destruct (Decimal.nzhead d) as [|u|u|u|u|u|u|u|u|u|u] eqn:E1;
    intros H; try discriminate.
  - now injection H.
  - exfalso. apply (DecimalFacts.nzhead_nonzero d u). exact E1.
Qed.

Lemma unorm_nonnil d : Decimal.unorm d <> Decimal.Nil.
Proof. unfold Decimal.unorm. now destruct (Decimal.nzhead d). Qed.

(** The decimal text of a position is the array index of that
    position. *)
Lemma array_index_nat_text i :
  (N.of_nat i < 4294967295)%N -> array_index (nat_text i) = Some (N.of_nat i).
Proof.
  intros Hi. unfold nat_text.
  assert (Hn : Nat.to_uint i <> Decimal.Nil)
    by (rewrite to_uint_unorm; apply unorm_nonnil).
  assert (Hs : NilZero.string_of_uint (Nat.to_uint i)
               = NilEmpty.string_of_uint (Nat.to_uint i)).
  { unfold NilZero.string_of_uint. now destruct (Nat.to_uint i). }
  rewrite Hs.
  assert (Hv : digits_value (NilEmpty.string_of_uint (Nat.to_uint i)) 0
               = Some (N.of_nat i)).
  { rewrite digits_value_string_of_uint. simpl N.to_nat.
    change (Nat.of_uint_acc (Nat.to_uint i) 0) with (Nat.of_uint (Nat.to_uint i)).
    now rewrite DecimalNat.Unsigned.of_to. }
  unfold array_index.
  destruct (Nat.to_uint i) as [|d|d|d|d|d|d|d|d|d|d] eqn:E1;
    try contradiction;
    simpl NilEmpty.string_of_uint in *;
    try (cbv beta iota; change (Ascii.eqb _ "0") with false; simpl andb;
         rewrite Hv; apply N.ltb_lt in Hi; now rewrite Hi).
  (* leading zero: the text is just 0 *)
  assert (d = Decimal.Nil).
  { apply (unorm_head_zero (Nat.to_uint i)). now rewrite <- to_uint_unorm. }
  subst d. simpl. 
  simpl in Hv. injection Hv as <-. reflexivity.
Qed.

End DecimalNames.

Section ServerRoutes.
Import Thing CoapWebThingServer.

Lemma prefix_not_empty base t : String.eqb (base ++ "/" ++ t) "" = false.
Proof. now destruct base. Qed.

(** X16.  The constructor gives the Thing at position [i] of a MultipleThings
    registry the prefix [<basePath>/<i>], the base path taken without a
    final slash; the Thing's href is that prefix, its property values are
    untouched, and a request whose [thingId] is the text of [i] resolves
    to that Thing.  The one Thing of a SingleThing registry gets the base
    path itself, so under the default base path its href is the root. *)
Theorem constructor_assigns_prefixes (l : list Thing.t) (n basePath : string) :
  (forall i x,
     nth_error l i = Some x ->
     exists x',
       nth_error
         (getThings (things (constructor (MultipleThings l n) basePath))) i
       = Some x'
       /\ hrefPrefix x' = (strip_final_slash basePath ++ "/" ++ nat_text i)%string
       /\ getHref x' = hrefPrefix x'
       /\ (forall k, getProperty x' k = getProperty x k)
       /\ ((N.of_nat i < 4294967295)%N ->
           Things_getThing
             (things (constructor (MultipleThings l n) basePath))
             (Some (nat_text i))
           = Some i))
  /\ (forall x,
        exists x',
          things (constructor (SingleThing x n) basePath) = SingleThing x' n
          /\ hrefPrefix x' = strip_final_slash basePath
          /\ (basePath = "/" -> getHref x' = "/")).
Proof.
  split.
  - intros i x Hx. unfold constructor, set_prefixes, bind, gets. simpl.
    destruct (set_prefixes_loop (strip_final_slash basePath) l []
                (mkServer (MultipleThings l n) 0 []) eq_refl)
      as [s' [Hrun [Hl Hm]]].
    simpl in Hrun, Hl. rewrite Hrun. simpl.
    exists (prefixed (strip_final_slash basePath ++ "/" ++ nat_text i) x).
    split.
    { rewrite Hl, nth_error_prefixed_from, Hx. reflexivity. }
    split; [reflexivity|]. split.
    { assert (Hh : forall p y, hrefPrefix (prefixed p y) = p) by reflexivity.
      unfold getHref. rewrite Hh, prefix_not_empty. reflexivity. }
    split.
    { intros k. rewrite !getProperty_get. simpl. unfold shadowed.
      rewrite !owns_get,
        !(get_map_values
            (fun p => Property_setHrefPrefix p
                        (strip_final_slash basePath ++ "/" ++ nat_text i))).
      destruct (get (properties x) "hasOwnProperty"); [reflexivity|].
      now destruct (get (properties x) k). }
    intros Hi. destruct (Hm l n eq_refl) as [l' Hl'].
    rewrite Hl'. rewrite Hl' in Hl. simpl in Hl. simpl.
    rewrite (array_index_nat_text _ Hi), Nat2N.id, Hl, length_prefixed_from.
    assert (Hlt : (i <? List.length l)%nat = true).
    { apply Nat.ltb_lt. apply nth_error_Some. now rewrite Hx. }
    now rewrite Hlt.
  - intros x. unfold constructor, set_prefixes, bind, gets. simpl.
    eexists. split; [reflexivity|]. split; [reflexivity|].
    intros ->. reflexivity.
Qed.

End ServerRoutes.

(** ** Concrete runs of the further properties *)

Section Runs.
#[local] Existing Instance Sample.collaborators.

Lemma put_property_cases_witness :
  exists s' x',
    CoapPropertyHandler.put
      (Sample.request "on" "" "" "" Sample.text_on_false)
      (Sample.single Sample.Lamp)
    = Ret (mkResponse None None (Json (JObj [("on", JBool false)]))) s'
    /\ nth_error (getThings (things s')) 0 = Some x'
    /\ Thing.getProperty x' "on" = Ok (JBool false).
Proof.
  exact (proj2 (proj2 (proj2 (proj2
           (proj2 (proj2
              (@put_property_cases Sample.collaborators
                 (Sample.request "on" "" "" "" Sample.text_on_false)
                 (Sample.single Sample.Lamp) 0 Sample.Lamp
                 (JObj [("on", JBool false)])
                 eq_refl eq_refl eq_refl))
              eq_refl))))
           (JBool false) _ eq_refl eq_refl eq_refl).
Defined.

Lemma post_entry_cases_witness :
  exists s' x',
    post_entry 0 Sample.body_timer [] "SwitchOffTimer"
      (Sample.single Sample.Lamp)
    = Ret (assign []
             (asActionDescription
                (mkAction (IdNum 0) "test" (JObj [("duration", JNum 5)])
                   "created" "")))
          s'
    /\ "created" = "created"
    /\ nth_error (getThings (things s')) 0 = Some x'
    /\ get (Thing.actions x') "SwitchOffTimer"
       = Some [mkAction (IdNum 0) "test" (JObj [("duration", JNum 5)])
                 "pending" ""]
    /\ srv_trace s' = [Started (IdNum 0)].
Proof.
  exact (proj2 (proj2
           (proj2
              (@post_entry_cases Sample.collaborators
                 (Sample.single Sample.Lamp) 0 Sample.Lamp
                 Sample.body_timer
                 (JObj [("input", JObj [("duration", JNum 5)])])
                 [] "SwitchOffTimer" eq_refl eq_refl)
              true eq_refl))
           (Thing.mkAvailableAction
              (mkMetadata None (Some "Switch Off Timer")
                 (Some (JObj [("type", JStr "object");
                              ("required", JArr [JStr "duration"])]))
                 None
                 [("description",
                   JStr "Switch off lamp after given duration")])
              Sample.TestTimerAction)
           [] eq_refl eq_refl eq_refl eq_refl).
Defined.

Lemma numeric_id_never_found_witness :
  CoapActionIDHandler.get (Sample.request "" "SwitchOffTimer" "0" "" "")
    (Sample.single Lamp_timing)
  = Ret (status 404) (Sample.single Lamp_timing)
  /\ CoapActionIDHandler.delete (Sample.request "" "SwitchOffTimer" "0" "" "")
       (Sample.single Lamp_timing)
     = Ret (status 404) (Sample.single Lamp_timing).
Proof.
  apply (@numeric_id_never_found Sample.collaborators
           (Sample.request "" "SwitchOffTimer" "0" "" "")
           (Sample.single Lamp_timing) 0 Lamp_timing
           eq_refl eq_refl).
  intros l a H Hin. simpl in H. injection H as <-.
  destruct Hin as [<-|[]]. now exists 0%Z.
Defined.

Lemma reading_handlers_change_nothing_witness :
  CoapPropertiesHandler.get (Sample.request "" "" "" "" "")
    (Sample.single Sample.Lamp)
  = Ret (mkResponse None None (Json (JObj (Thing.getProperties Sample.Lamp))))
        (Sample.single Sample.Lamp).
Proof.
  exact (proj1 (@reading_handlers_change_nothing Sample.collaborators
                  (Sample.request "" "" "" "" "") (Sample.single Sample.Lamp)
                  0 Sample.Lamp eq_refl eq_refl)).
Defined.

Lemma put_then_get_property_witness :
  exists s'',
    CoapPropertyHandler.get
      (Sample.request "on" "" "" "" Sample.text_on_false)
      (state_of
         (CoapPropertyHandler.put
            (Sample.request "on" "" "" "" Sample.text_on_false)
            (Sample.single Sample.Lamp)))
    = Ret (mkResponse None None (Json (JObj [("on", JBool false)]))) s''.
Proof.
  refine (@put_then_get_property Sample.collaborators
            (Sample.request "on" "" "" "" Sample.text_on_false)
            (Sample.single Sample.Lamp) _ 0 (JBool false)
            eq_refl _).
  vm_compute. reflexivity.
Defined.

Lemma getCoreLinkFormat_declared_order_witness :
  helpers.getCoreLinkFormat paired_description
  = Ok (join ","
          [ property_entry
              (mkMetadata (Some (TScalar "OnOffProperty")) (Some "On/Off")
                 None None [])
              (mkLink "property" "/properties/on" None);
            property_entry
              (mkMetadata (Some (TScalar "BrightnessProperty"))
                 (Some "Brightness") None None [])
              (mkLink "property" "/properties/brightness" None);
            link_entry (mkLink "action" "/actions/toggle" None);
            link_entry (mkLink "action" "/actions/fade" None);
            link_entry (mkLink "event" "/events/overheated" None);
            link_entry (mkLink "event" "/events/cooled" None) ]).
Proof.
  apply (@getCoreLinkFormat_declared_order paired_description);
    (split; [repeat constructor; simpl; intuition discriminate
            | reflexivity]).
Defined.

Lemma performAction_then_removeAction_witness :
  exists a w1 w2,
    Thing.performAction "SwitchOffTimer" (JObj [("duration", JNum 5)])
      (Sample.world Sample.Lamp) = Ret (Some a) w1
    /\ a_id a = IdNum 0
    /\ Thing.getAction (Thing.this w1) "SwitchOffTimer" (a_id a) = Ok (Some a)
    /\ Thing.removeAction "SwitchOffTimer" (a_id a) w1 = Ret true w2
    /\ Thing.this w2 = Sample.Lamp
    /\ Thing.trace w2 = Thing.trace w1 ++ [Cancelled (a_id a)].
Proof.
  exact (@performAction_then_removeAction Sample.collaborators
           (Sample.world Sample.Lamp)
           "SwitchOffTimer" (JObj [("duration", JNum 5)]) _ []
           eq_refl eq_refl eq_refl eq_refl eq_refl
           (fun b H => match H with end)).
Defined.

Lemma addEvent_then_getEventDescriptions_witness :
  exists w',
    (Thing.addEvent (mkEvent "overheated" (JNum 102) "t0")
       (Sample.world Sample.Lamp) = Ret tt w'
     \/ Thing.addEvent (mkEvent "overheated" (JNum 102) "t0")
          (Sample.world Sample.Lamp) = Throw TypeError w')
    /\ (false = false ->
        Thing.addEvent (mkEvent "overheated" (JNum 102) "t0")
          (Sample.world Sample.Lamp) = Ret tt w')
    /\ Thing.getEventDescriptions (Thing.this w') None
       = Thing.getEventDescriptions Sample.Lamp None
         ++ [asEventDescription (mkEvent "overheated" (JNum 102) "t0")]
    /\ Thing.getEventDescriptions (Thing.this w') (Some "overheated")
       = Thing.getEventDescriptions Sample.Lamp (Some "overheated")
         ++ [asEventDescription (mkEvent "overheated" (JNum 102) "t0")].
Proof.
  apply (@addEvent_then_getEventDescriptions Sample.collaborators
           (mkEvent "overheated" (JNum 102) "t0") (Sample.world Sample.Lamp)
           "overheated").
  discriminate.
Defined.

Lemma post_action_ignores_other_names_witness :
  CoapActionHandler.post (Sample.request "" "fade" "" "" Sample.text_timer)
    (Sample.single Sample.Lamp)
  = Ret (mkResponse (Some 201) None (Json (JObj [])))
        (Sample.single Sample.Lamp).
Proof.
  apply (@post_action_ignores_other_names Sample.collaborators
           (Sample.request "" "fade" "" "" Sample.text_timer)
           (Sample.single Sample.Lamp) 0 Sample.body_timer
           eq_refl eq_refl).
  intros k [<-|[]]. discriminate.
Defined.

End Runs.


(** ** Resolution comes first *)

Section Resolution.
Context {C : Collaborators}.

(** X17.  When the request's Thing does not resolve, every handler that
    addresses one Thing answers 404 and changes nothing; the payload is
    not even parsed, so this also holds for a malformed one. *)
Theorem unresolved_thing_not_found (req : Request) (s : Server) :
  Things_getThing (things s) (thingId (params req)) = None ->
  CoapThingHandler.get req s = Ret (status 404) s
  /\ CoapCoreHandler.get req s = Ret (status 404) s
  /\ CoapPropertiesHandler.get req s = Ret (status 404) s
  /\ CoapPropertyHandler.get req s = Ret (status 404) s
  /\ CoapPropertyHandler.put req s = Ret (status 404) s
  /\ CoapActionsHandler.get req s = Ret (status 404) s
  /\ CoapActionsHandler.post req s = Ret (status 404) s
  /\ CoapActionHandler.get req s = Ret (status 404) s
  /\ CoapActionHandler.post req s = Ret (status 404) s
  /\ CoapActionIDHandler.get req s = Ret (status 404) s
  /\ CoapActionIDHandler.put req s = Ret (status 404) s
  /\ CoapActionIDHandler.delete req s = Ret (status 404) s
  /\ CoapEventsHandler.get req s = Ret (status 404) s
  /\ CoapEventHandler.get req s = Ret (status 404) s.
Proof.
  intros H.
  unfold CoapThingHandler.get, CoapCoreHandler.get, CoapPropertiesHandler.get,
    CoapPropertyHandler.get, CoapPropertyHandler.put, CoapActionsHandler.get,
    CoapActionsHandler.post, CoapActionHandler.get, CoapActionHandler.post,
    CoapActionIDHandler.get, CoapActionIDHandler.put,
    CoapActionIDHandler.delete, CoapEventsHandler.get, CoapEventHandler.get,
    bind, getThing, gets.
  rewrite H. repeat split.
Qed.


End Resolution.

(** ** Adding and removing properties *)

Section PropertyRegistry.
Context {C : Collaborators}.
Import Thing.

Lemma delete_set_fresh (A : Type) (o : obj A) k v :
  owns o k = false -> delete (set o k v) k = o.
Proof.
  induction o as [|[k0 v0] r IH]; simpl.
  - now rewrite String.eqb_refl.
  - destruct (String.eqb k k0) eqn:E1; [discriminate|].
    intros H. simpl. now rewrite E1, IH.
Qed.

(** X19.  [addProperty], for a name other than [__proto__], registers the
    property under its own name, with the Thing's href prefix, and leaves
    the other properties alone.  Unless the name is [hasOwnProperty] or
    the Thing already has a property of that name, the property then
    reads back through [findProperty], [getProperty] and [hasProperty],
    the lookup of other names is as before, and removing a property just
    added under a fresh name gives the Thing back as it was. *)
Theorem addProperty_then_findProperty (property : Property) (w : World) :
  p_name property <> "__proto__" ->
  exists w',
    addProperty property w = Ret tt w'
    /\ get (properties (this w')) (p_name property)
       = Some (Property_setHrefPrefix property (hrefPrefix (this w)))
    /\ (forall k, k <> p_name property ->
          get (properties (this w')) k = get (properties (this w)) k)
    /\ shadowed (properties (this w'))
       = (String.eqb (p_name property) "hasOwnProperty"
          || shadowed (properties (this w)))
    /\ (shadowed (properties (this w')) = false ->
        findProperty (this w') (p_name property)
        = Ok (Some (Property_setHrefPrefix property (hrefPrefix (this w))))
        /\ hasProperty (this w') (p_name property) = Ok true
        /\ getProperty (this w') (p_name property) = Ok (p_value property)
        /\ (forall k, k <> p_name property ->
              findProperty (this w') k = findProperty (this w) k)
        /\ (owns (properties (this w)) (p_name property) = false ->
            removeProperty property w' = Ret tt w)).
Proof.
  intros Hname. unfold addProperty, bind, gets, update, modify. simpl.
  assert (R : replaces_prototype (properties (this w)) (p_name property)
              = false).
  { unfold replaces_prototype.
    destruct (String.eqb (p_name property) "__proto__") eqn:E;
      [|reflexivity].
    apply String.eqb_eq in E. contradiction. }
  rewrite R. eexists. split; [reflexivity|]. simpl.
  set (p := Property_setHrefPrefix property (hrefPrefix (this w))).
  assert (S : shadowed (set (properties (this w)) (p_name property) p)
              = (String.eqb (p_name property) "hasOwnProperty"
                 || shadowed (properties (this w)))).
  { unfold shadowed. rewrite owns_set. now rewrite String.eqb_sym. }
  split; [apply get_set_same|]. split.
  { intros k Hk. now apply get_set_other. }
  split; [exact S|]. intros Hs.
  rewrite Hs in S. symmetry in S. apply orb_false_iff in S.
  destruct S as [_ Hs0].
  assert (F : findProperty
                (set_properties (this w)
                   (set (properties (this w)) (p_name property) p))
                (p_name property)
              = Ok (Some p)).
  { rewrite findProperty_get. simpl. rewrite Hs. now rewrite get_set_same. }
  split; [exact F|]. split.
  { unfold hasProperty. simpl.
    rewrite (hasOwnProperty_plain _ _ Hs).
    now rewrite owns_set, String.eqb_refl. }
  split.
  { unfold getProperty. now rewrite F. }
  split.
  { intros k Hk. rewrite !findProperty_get. simpl. rewrite Hs, Hs0.
    now rewrite get_set_other. }
  intros Hfresh. unfold removeProperty, bind, eval, update, modify. simpl.
  rewrite (hasOwnProperty_plain _ _ Hs).
  rewrite owns_set, String.eqb_refl. simpl.
  rewrite delete_set_fresh by exact Hfresh.
  destruct w as [x c t]. simpl. now destruct x.
Qed.

End PropertyRegistry.

(** X19 at the Lamp: a property [brightness] added to it reads back, and
    removing it gives the Lamp back. *)
Lemma addProperty_then_findProperty_witness :
  exists w',
    Thing.addProperty
      (mkProperty "brightness" (JNum 50)
         (mkMetadata None (Some "Brightness") None None []) "")
      (Sample.world Sample.Lamp) = Ret tt w'
    /\ Thing.hasProperty (Thing.this w') "brightness" = Ok true
    /\ Thing.getProperty (Thing.this w') "brightness" = Ok (JNum 50)
    /\ Thing.findProperty (Thing.this w') "on"
       = Thing.findProperty Sample.Lamp "on"
    /\ Thing.removeProperty
         (mkProperty "brightness" (JNum 50)
            (mkMetadata None (Some "Brightness") None None []) "")
         w' = Ret tt (Sample.world Sample.Lamp).
Proof.
  destruct (addProperty_then_findProperty
              (mkProperty "brightness" (JNum 50)
                 (mkMetadata None (Some "Brightness") None None []) "")
              (Sample.world Sample.Lamp))
    as [w' [H1 [_ [_ [H4 H5]]]]]; [discriminate|].
  exists w'. split; [exact H1|].
  assert (Hs : shadowed (Thing.properties (Thing.this w')) = false)
    by (rewrite H4; reflexivity).
  destruct (H5 Hs) as [_ [Hh [Hg [Hf Hr]]]].
  split; [exact Hh|]. split; [exact Hg|]. split.
  - apply Hf. discriminate.
  - apply Hr. reflexivity.
Defined.

Lemma unresolved_thing_not_found_witness :
  CoapPropertyHandler.put (C := Sample.collaborators)
    (Sample.request "on" "" "" "" "{")
    (Sample.multiple [Sample.Lamp; Sample.HumiditySensor])
  = Ret (status 404) (Sample.multiple [Sample.Lamp; Sample.HumiditySensor]).
Proof.
  exact (proj1 (proj2 (proj2 (proj2 (proj2
           (@unresolved_thing_not_found Sample.collaborators
              (Sample.request "on" "" "" "" "{")
              (Sample.multiple [Sample.Lamp; Sample.HumiditySensor])
              eq_refl)))))).
Defined.

(** ** Routing *)

Ltac split_segments :=
  repeat match goal with
         | |- context [String.eqb ?a ?b] =>
             let E := fresh "E" in destruct (String.eqb a b) eqn:E
         end.

Ltac clash_segments :=
  repeat match goal with
         | E : String.eqb _ _ = true |- _ => apply String.eqb_eq in E
         | E : String.eqb _ _ = false |- _ => apply String.eqb_neq in E
         end;
  subst; try discriminate; try congruence.

(** X20.  Routing is unambiguous: in either table at most one route matches
    a request, so which route handles it does not depend on the order of
    registration. *)
Theorem routing_unambiguous (r : Things) (m : Method) (path : list string) :
  List.length (matching (Routes.of_things r) m path) <= 1.
Proof.
  destruct r; destruct m;
    destruct path as [|a [|b [|c [|d [|e rest]]]]];
    cbn; split_segments; cbn; try lia; clash_segments.
Qed.

(** X21.  The table of MultipleThings is the table of a single Thing behind
    one more leading segment that binds [thingId]: a path [t/rest] is
    routed as [rest] is for a single Thing, with the same handler and the
    same bindings.  The discovery path is the one exception:
    [/.well-known/core] is bound for the server as a whole only. *)
Theorem multiple_routes_extend_single
    (m : Method) (t : string) (rest : list string) :
  rest <> [".well-known"; "core"] ->
  t :: rest <> [".well-known"; "core"] ->
  matching Routes.multiple m (t :: rest)
  = map (fun hp => (fst hp, bind_param "thingId" t (snd hp)))
      (matching Routes.single m rest).
Proof.
  intros Hsingle Hmultiple.
  destruct m;
    destruct rest as [|a [|b [|c [|d tail]]]];
    cbn; split_segments; cbn; try reflexivity; clash_segments.
Qed.

Lemma multiple_routes_extend_single_witness :
  matching Routes.multiple PUT ["1"; "properties"; "on"]
  = map (fun hp => (fst hp, bind_param "thingId" "1" (snd hp)))
      (matching Routes.single PUT ["properties"; "on"]).
Proof.
  apply multiple_routes_extend_single; discriminate.
Defined.

Section Served.
Context {C : Collaborators}.

(** X22.  A server of several Things, asked for a path below a Thing it
    does not have: the request is answered 404 when a route matches it and
    is not handled otherwise, and in both cases nothing changes, whatever
    the method and the payload. *)
Theorem serve_unknown_thing
    (m : Method) (t : string) (rest : list string) (host : option string)
    (payload : string) (s : Server) (l : list Thing.t) (name : string) :
  things s = MultipleThings l name ->
  Things_getThing (things s) (Some t) = None ->
  t :: rest <> [".well-known"; "core"] ->
  serve m (t :: rest) host payload s
  = Ret (match matching Routes.multiple m (t :: rest) with
         | [] => None
         | _ :: _ => Some (status 404)
         end) s.
Proof.
  intros Hthings Hnone Hpath.
  unfold serve, bind, gets. rewrite Hthings. cbn [Routes.of_things].
  destruct m;
    destruct rest as [|a [|b [|c [|d tail]]]];
    cbn; split_segments; cbn;
    try reflexivity;
    try (rewrite Hnone; reflexivity);
    clash_segments.
Qed.

End Served.

Lemma serve_unknown_thing_witness :
  serve (C := Sample.collaborators) PUT ["7"; "properties"; "on"] None "{"
    (Sample.multiple [Sample.Lamp; Sample.HumiditySensor])
  = Ret (Some (status 404))
      (Sample.multiple [Sample.Lamp; Sample.HumiditySensor]).
Proof.
  refine (@serve_unknown_thing Sample.collaborators PUT "7"
            ["properties"; "on"] None "{"
            (Sample.multiple [Sample.Lamp; Sample.HumiditySensor])
            _ _ eq_refl eq_refl _).
  discriminate.
Defined.
